(** * ForgeBuild_2: the incremental build engine of [FB2.py]

    A shallow embedding of the build core of [src/FB2.py]: the fingerprint
    function [hash_source], the cache store [BuildCache], the compile worker
    [compiler_daemon], the scheduler [_run_parallel_compilers], the link step
    [_link], the orchestrator [ForgeBuilder.build] and the profile selection
    of [BuildConfig.from_file].

    Conventions of the embedding.
    - A Python [str] is a Rocq [string] holding its UTF-8 bytes, so
      [s.encode("utf-8")] is the byte list of the string.
    - [pathlib] is modelled for POSIX path syntax (split on "/", drop empty
      and "." components); what the file system answers ([exists],
      [resolve], file contents) comes from a [world] of oracles.
    - Child processes, the clock, the completion order of the process pool
      and the success of writing the cache file are oracles of the [world]
      too; the code's reaction to each of their answers is modelled.
    - [sys.exit(n)] and an uncaught exception are results of a computation
      ([SysExit n], [Raised e]); a computation threads the in-memory cache,
      the persisted cache file and a trace of the externally visible actions.
    - The workers run concurrently; in the trace the actions of a worker are
      placed where the scheduler collects its future.
    - Log lines and the echo of compiler diagnostics are not modelled.
    - After the engine come the helper [colored], the command [clean], the
      command [init] ([create_example_project_and_wrapper] and
      [install_wrapper_scripts], run on a file system held in memory) and
      the dispatch of the commands in [main]. *)

From Stdlib Require Import ZArith List String Ascii Permutation Lia.
From Stdlib.Strings Require Import Byte.
From stdpp Require Import base option list gmap strings fin_maps.
Import ListNotations.

Local Open Scope string_scope.
Local Open Scope list_scope.

(** ** SHA-256 ([hashlib.sha256]) over byte strings *)

Module SHA256.
Local Open Scope Z_scope.

Definition wrap32 (x : Z) : Z := Z.land x 0xffffffff.
Definition add32 (x y : Z) : Z := wrap32 (x + y).
Definition rotr (n x : Z) : Z :=
  Z.lor (Z.shiftr x n) (wrap32 (Z.shiftl x (32 - n))).
Definition not32 (x : Z) : Z := Z.lxor x 0xffffffff.

Definition Ch (x y z : Z) : Z := Z.lxor (Z.land x y) (Z.land (not32 x) z).
Definition Maj (x y z : Z) : Z :=
  Z.lxor (Z.lxor (Z.land x y) (Z.land x z)) (Z.land y z).
Definition bsig0 (x : Z) : Z := Z.lxor (Z.lxor (rotr 2 x) (rotr 13 x)) (rotr 22 x).
Definition bsig1 (x : Z) : Z := Z.lxor (Z.lxor (rotr 6 x) (rotr 11 x)) (rotr 25 x).
Definition ssig0 (x : Z) : Z := Z.lxor (Z.lxor (rotr 7 x) (rotr 18 x)) (Z.shiftr x 3).
Definition ssig1 (x : Z) : Z := Z.lxor (Z.lxor (rotr 17 x) (rotr 19 x)) (Z.shiftr x 10).

(** The round constants and the initial hash value (FIPS 180-4, 4.2.2 and
  5.3.3), in decimal. *)
Definition K : list Z :=
  [ 1116352408; 1899447441; 3049323471; 3921009573; 961987163; 1508970993;
    2453635748; 2870763221; 3624381080; 310598401; 607225278; 1426881987;
    1925078388; 2162078206; 2614888103; 3248222580; 3835390401; 4022224774;
    264347078; 604807628; 770255983; 1249150122; 1555081692; 1996064986;
    2554220882; 2821834349; 2952996808; 3210313671; 3336571891; 3584528711;
    113926993; 338241895; 666307205; 773529912; 1294757372; 1396182291;
    1695183700; 1986661051; 2177026350; 2456956037; 2730485921; 2820302411;
    3259730800; 3345764771; 3516065817; 3600352804; 4094571909; 275423344;
    430227734; 506948616; 659060556; 883997877; 958139571; 1322822218;
    1537002063; 1747873779; 1955562222; 2024104815; 2227730452; 2361852424;
    2428436474; 2756734187; 3204031479; 3329325298 ].

Definition H0 : list Z :=
  [ 1779033703; 3144134277; 1013904242; 2773480762;
    1359893119; 2600822924; 528734635; 1541459225 ].

Definition byte_val (b : byte) : Z := Z.of_N (Byte.to_N b).

(** Big-endian encoding of [x] on [n] bytes. *)
Fixpoint be_bytes (n : nat) (x : Z) : list Z :=
  match n with
  | O => []
  | S n' => Z.land (Z.shiftr x (8 * Z.of_nat n')) 0xff :: be_bytes n' x
  end.

(** Message padding: a 1 bit, zeros up to 56 modulo 64, the bit length. *)
Definition pad (msg : list Z) : list Z :=
  let len := Z.of_nat (length msg) in
  msg ++ 0x80 :: repeat 0 (Z.to_nat ((55 - len) mod 64)) ++ be_bytes 8 (8 * len).

Fixpoint words (fuel : nat) (bs : list Z) : list Z :=
  match fuel, bs with
  | S f, b0 :: b1 :: b2 :: b3 :: rest =>
      (Z.shiftl b0 24 + Z.shiftl b1 16 + Z.shiftl b2 8 + b3) :: words f rest
  | _, _ => []
  end.

Definition wd (l : list Z) (i : nat) : Z := nth i l 0.

(** The message schedule: sixteen block words extended to sixty-four. *)
Fixpoint extend (n : nat) (w : list Z) : list Z :=
  match n with
  | O => w
  | S n' =>
      let t := length w in
      extend n'
        (w ++ [add32 (add32 (ssig1 (wd w (t - 2))) (wd w (t - 7)))
                     (add32 (ssig0 (wd w (t - 15))) (wd w (t - 16)))])
  end.

Definition round (st : list Z) (kw : Z * Z) : list Z :=
  match st with
  | [a; b; c; d; e; f; g; h] =>
      let t1 := add32 (add32 (add32 h (bsig1 e)) (add32 (Ch e f g) (fst kw))) (snd kw) in
      let t2 := add32 (bsig0 a) (Maj a b c) in
      [add32 t1 t2; a; b; c; add32 d t1; e; f; g]
  | _ => st
  end.

Definition compress (hs : list Z) (block : list Z) : list Z :=
  let w := extend 48 block in
  let st := fold_left round (combine K w) hs in
  map (fun p => add32 (fst p) (snd p)) (combine hs st).

Fixpoint blocks (fuel : nat) (ws : list Z) : list (list Z) :=
  match fuel, ws with
  | _, [] => []
  | O, _ => []
  | S f, _ => firstn 16 ws :: blocks f (skipn 16 ws)
  end.

Definition digest_words (msg : list byte) : list Z :=
  let bs := pad (map byte_val msg) in
  let ws := words (length bs) bs in
  fold_left compress (blocks (length ws) ws) H0.

Definition hex_digit (d : Z) : ascii :=
  if d <? 10 then ascii_of_N (Z.to_N (48 + d)) else ascii_of_N (Z.to_N (87 + d)).

Fixpoint hex_word (n : nat) (x : Z) : string :=
  match n with
  | O => EmptyString
  | S n' => String (hex_digit (Z.land (Z.shiftr x (4 * Z.of_nat n')) 0xf)) (hex_word n' x)
  end.

Definition hexdigest (msg : list byte) : string :=
  fold_right (fun w acc => String.append (hex_word 8 w) acc) EmptyString (digest_words msg).
End SHA256.

(** ** Python strings *)

Module PyStr.
(** [s.split(sep)] for a one-character separator. *)
Fixpoint split (sep : ascii) (s : string) : list string :=
  match s with
  | EmptyString => [EmptyString]
  | String a s' =>
      if Ascii.eqb a sep then EmptyString :: split sep s'
      else match split sep s' with
           | h :: t => String a h :: t
           | [] => [String a EmptyString]
           end
  end.

(** [sep.join(l)]. *)
Fixpoint join (sep : string) (l : list string) : string :=
  match l with
  | [] => EmptyString
  | [x] => x
  | x :: rest => x +:+ sep +:+ join sep rest
  end.

(** [s.rfind(c)]: the index of the last occurrence, [None] for Python's -1. *)
Fixpoint rfind (c : ascii) (s : string) : option nat :=
  match s with
  | EmptyString => None
  | String a s' =>
      match rfind c s' with
      | Some i => Some (S i)
      | None => if Ascii.eqb a c then Some O else None
      end
  end.

Definition lower_ascii (a : ascii) : ascii :=
  let n := nat_of_ascii a in
  if (65 <=? n)%nat && (n <=? 90)%nat then ascii_of_nat (n + 32) else a.

(** [s.lower()]; the bytes of non-ASCII characters are left as they are. *)
Fixpoint lower (s : string) : string :=
  match s with
  | EmptyString => EmptyString
  | String a s' => String (lower_ascii a) (lower s')
  end.

(** [s.endswith(suf)]. *)
Definition endswith (s suf : string) : bool :=
  let n := String.length s in
  let k := String.length suf in
  (k <=? n)%nat && String.eqb (substring (n - k) k s) suf.

(** [s.encode("utf-8")]. *)
Definition encode (s : string) : list byte := list_byte_of_string s.
End PyStr.

(** ** [pathlib] paths, POSIX flavour *)

Record PurePath := mkPath { p_root : string; p_parts : list string }.

Definition is_component (c : string) : bool :=
  negb (String.eqb c "") && negb (String.eqb c ".").

(** The number of leading occurrences of [c]: what [s.lstrip(c)] removes. *)
Fixpoint leading (c : ascii) (s : string) : nat :=
  match s with
  | String a s' => if Ascii.eqb a c then S (leading c s') else O
  | EmptyString => O
  end.

(** The root of a path string: "//" for exactly two leading slashes, "/"
    for any other number of leading slashes, empty for a relative path. *)
Definition splitroot (s : string) : string :=
  match leading "/" s with
  | 0 => ""
  | 2 => "//"
  | _ => "/"
  end.

(** [Path(s)] *)
Definition Path (s : string) : PurePath :=
  mkPath (splitroot s) (List.filter is_component (PyStr.split "/" s)).

(** [str(p)] *)
Definition path_str (p : PurePath) : string :=
  match p_root p, p_parts p with
  | EmptyString, [] => "."
  | r, ps => r +:+ PyStr.join "/" ps
  end.

(** [p.name] *)
Definition path_name (p : PurePath) : string := List.last (p_parts p) "".

(** [p.parent] *)
Definition path_parent (p : PurePath) : PurePath :=
  mkPath (p_root p) (removelast (p_parts p)).

(** [p / s] *)
Definition path_join (p : PurePath) (s : string) : PurePath :=
  let q := Path s in
  match p_root q with
  | EmptyString => mkPath (p_root p) (p_parts p ++ p_parts q)
  | _ => q
  end.

(** Path components as [Path] produces them: not empty, not ".", without
    a separator; and the paths made of them. *)
Fixpoint has_char (c : ascii) (s : string) : bool :=
  match s with
  | EmptyString => false
  | String a s' => Ascii.eqb a c || has_char c s'
  end.

Definition plain_component (c : string) : Prop :=
  is_component c = true /\ has_char "/" c = false.

Definition wf_path (p : PurePath) : Prop :=
  (p_root p = "" \/ p_root p = "/" \/ p_root p = "//")
  /\ Forall plain_component (p_parts p).

(** [p.suffix] computed on the name: the part from the last dot on, when
    that dot is neither the first nor the last character. *)
Definition name_suffix (nm : string) : string :=
  match PyStr.rfind "." nm with
  | Some i =>
      if (0 <? i)%nat && (i <? String.length nm - 1)%nat
      then substring i (String.length nm - i) nm
      else ""
  | None => ""
  end.

(** [p.with_suffix(suffix).name]; [None] is the [ValueError] pathlib raises
    for a path with an empty name. *)
Definition with_suffix_name (p : PurePath) (suffix : string) : option string :=
  let nm := path_name p in
  if String.eqb nm "" then None
  else
    let old_suffix := name_suffix nm in
    Some (substring 0 (String.length nm - String.length old_suffix) nm +:+ suffix).

(** ** Configuration ([BuildProfile], [BuildConfig]) *)

(** A value of the parsed TOML document, as far as [from_file] looks. *)
#[local] Unset Elimination Schemes.
Inductive toml :=
| TStr (s : string)
| TInt (n : Z)
| TBool (b : bool)
| TArr (items : list toml).
#[local] Set Elimination Schemes.

(** The parsed document [raw], restricted to the keys [from_file] reads;
    [None] is an absent key.  Apart from the profile, which the code only
    compares with a string, the values have the types of the [BuildConfig]
    fields they are stored in.  [t_has_dates] tells whether the document
    holds, under any key, a date or a time: [tomllib] parses those to
    [datetime] objects, which [json.dumps] does not serialise. *)
Record forge_toml := {
  t_project : option string;
  t_version : option string;
  t_build_profile : option toml;
  t_sources_cpp : option (list string);
  t_compiler_command : option string;
  t_compiler_flags : option (list string);
  t_include_dirs : option (list string);
  t_output_dir : option string;
  t_binary_name : option string;
  t_has_dates : bool
}.

(** What is found at the configuration path. *)
Inductive config_file :=
| ConfigMissing
| ConfigInvalid
| ConfigDoc (doc : forge_toml).

Record BuildProfile := { name : string; flags : list string }.

Record BuildConfig := {
  raw : forge_toml;
  project : string;
  version : string;
  profile : BuildProfile;
  cpp_sources : list string;
  compiler_cmd : string;
  compiler_base_flags : list string;
  include_dirs : list string;
  output_dir : string;
  binary_name : string
}.

Definition SUPPORTED_COMPILER : string := "clang++".

(** ** Results of computations *)

Inductive exn :=
| ConfigUnparsable     (* tomllib.load raises *)
| MkdirFailed          (* Path.mkdir raises *)
| EmptyName            (* with_suffix on a path without a name *)
| ReadFailed           (* read_file_bytes raises *)
| SpawnFailed          (* subprocess.run raises: the command cannot be started,
                          or its output cannot be decoded as text *)
| WorkerLost           (* the pool lost the worker process *)
| PoolFailed           (* ProcessPoolExecutor(max_workers=jobs) raises *)
| SubmitFailed         (* executor.submit raises *)
| CacheWriteFailed.    (* open or json.dump raises in BuildCache.save *)

Inductive result (A : Type) :=
| Returned (a : A)
| SysExit (code : Z)
| Raised (e : exn).
Arguments Returned {A} a.
Arguments SysExit {A} code.
Arguments Raised {A} e.

(** The exit status the operating system sees. *)
Definition exit_status {A} (r : result A) : Z :=
  match r with
  | Returned _ => 0
  | SysExit code => code
  | Raised _ => 1
  end.

Definition is_returned {A} (r : result A) : bool :=
  match r with Returned _ => true | _ => false end.

(** [dict.get(key, default)] on an optional key of the document. *)
Definition get_or {A} (o : option A) (d : A) : A :=
  match o with Some v => v | None => d end.

(** [profile_name == "release"] for a value of any TOML type. *)
Definition is_release (v : toml) : bool :=
  match v with
  | TStr s => String.eqb s "release"
  | _ => false
  end.

(** [BuildConfig.from_file] *)
Definition from_file (f : config_file) : result BuildConfig :=
  match f with
  | ConfigMissing => SysExit 1
  | ConfigInvalid => Raised ConfigUnparsable
  | ConfigDoc doc =>
      let project := get_or (t_project doc) "UnnamedProject" in
      let version := get_or (t_version doc) "0.0.0" in
      let profile_name := get_or (t_build_profile doc) (TStr "debug") in
      let profile :=
        if is_release profile_name
        then {| name := "release"; flags := ["-O3"; "-DNDEBUG"] |}
        else {| name := "debug"; flags := ["-O0"; "-g"] |} in
      let cpp_sources := get_or (t_sources_cpp doc) [] in
      match cpp_sources with
      | [] => SysExit 1
      | _ =>
          let compiler_cmd := get_or (t_compiler_command doc) SUPPORTED_COMPILER in
          let base_flags := get_or (t_compiler_flags doc) [] in
          let include_dirs := get_or (t_include_dirs doc) [] in
          let output_dir := get_or (t_output_dir doc) "build" in
          let binary_name := get_or (t_binary_name doc) project in
          Returned
            {| raw := doc;
               project := project;
               version := version;
               profile := profile;
               cpp_sources := cpp_sources;
               compiler_cmd := compiler_cmd;
               compiler_base_flags := base_flags;
               include_dirs := include_dirs;
               output_dir := output_dir;
               binary_name := binary_name |}
      end
  end.

(** ** The cache store ([BuildCache]) *)

(** A value stored in a cache entry. *)
Inductive jval :=
| JNull
| JBool (b : bool)
| JNum (n : Z)
| JStr (s : string).

Global Instance jval_eq_dec : EqDecision jval.
Proof. solve_decision. Defined.

(** [self.data : Dict[str, Dict[str, Any]]] is a [gmap string (gmap string jval)]. *)
Abbreviation cache_entry := (gmap string jval).
Abbreviation cache_data := (gmap string (gmap string jval)).

(** What is found at [CACHE_FILE]: nothing, a file that cannot be opened or
    read, a file [json.load] rejects, or the JSON text of a map of entries.
    JSON of another shape than [Dict[str, Dict[str, Any]]], the declared
    type of [self.data], is outside the model. *)
Inductive cache_file :=
| NoFile
| Unreadable
| Unparsable
| Stored (d : cache_data).

(** [BuildCache._load] *)
Definition _load (f : cache_file) : cache_data :=
  match f with
  | NoFile => ∅
  | Unreadable => ∅
  | Unparsable => ∅
  | Stored d => d
  end.

(** [BuildCache.get_entry] *)
Definition get_entry (data : cache_data) (obj_path : PurePath) : option cache_entry :=
  data !! path_str obj_path.

(** [BuildCache.update_entry]; [now] is the reading of [time.time()]. *)
Definition update_entry (data : cache_data) (obj_path : PurePath)
    (source_hash : string) (now : Z) : cache_data :=
  <[ path_str obj_path := <[ "hash" := JStr source_hash ]> (<[ "timestamp" := JNum now ]> ∅) ]> data.

(** [entry.get("hash") != source_hash] *)
Definition hash_differs (entry : cache_entry) (source_hash : string) : bool :=
  match entry !! "hash" with
  | Some (JStr h) => negb (String.eqb h source_hash)
  | _ => true
  end.

(** [BuildCache.needs_rebuild] *)
Definition needs_rebuild (data : cache_data) (obj_path : PurePath)
    (source_hash : string) : bool :=
  match get_entry data obj_path with
  | None => true
  | Some entry => hash_differs entry source_hash
  end.

(** ** The environment of a build *)

(** What [subprocess.run(cmd, stdout=PIPE, stderr=PIPE, text=True)] does:
    it returns for a finished child whose output is text, or it raises,
    because the command could not be started or because the child, whatever
    its return code, wrote bytes that cannot be decoded. *)
Inductive spawned :=
| Completed (returncode : Z) (stderr : string)
| NotStarted
| Undecodable (returncode : Z).

(** What writing the cache file does: the whole text is written, the file
    cannot be opened for writing (it stays as it was), or the write stops
    part-way and leaves a truncated text behind. *)
Inductive write_outcome :=
| Written
| OpenDenied
| WriteInterrupted.

(** One compile task of [build]: [(src, obj, hash)]. *)
Record task := Task { task_src : string; task_obj : string; task_hash : string }.

(** What [future.result()] gives for a job: the triple the worker returned,
    or the exception it re-raises. *)
Inductive daemon_result :=
| Done (source : string) (returncode : Z) (stderr_output : string)
| Crashed (e : exn).

(** What can be observed of a run from outside the process. *)
Inductive event :=
| EvMkdir (dir : string)
| EvPool (workers : Z)
| EvSubmit (job : nat) (t : task)
| EvCompilerRun (job : nat) (cmd : list string)
| EvCollected (job : nat) (t : task) (ok : bool)
| EvLinkerRun (cmd : list string)
| EvCacheWrite (d : cache_data).

(** A submitted job: its position in submission order, its task, what the
    worker did and what its future holds. *)
Record future := Future {
  fut_job : nat;
  fut_task : task;
  fut_events : list event;
  fut_result : daemon_result
}.

Record world := World {
  os_name : string;                              (* os.name *)
  os_cpu_count : option Z;                       (* os.cpu_count() *)
  fs_exists : string -> bool;                    (* Path.exists() *)
  fs_resolve : string -> string;                 (* str(Path.resolve()) *)
  fs_read_bytes : string -> option (list byte);  (* read_file_bytes, None: raises *)
  fs_mkdir : string -> bool;                     (* mkdir(parents, exist_ok), false: raises *)
  run_compiler : nat -> list string -> spawned;  (* subprocess.run in job i *)
  pool_start : Z -> bool;                        (* ProcessPoolExecutor(max_workers=n), false: raises *)
  pool_submit : nat -> bool;                     (* executor.submit of job i, false: raises *)
  pool_lost : nat -> bool;                       (* the worker of job i died *)
  pool_as_completed : list future -> list future;(* as_completed(future_map) *)
  run_linker : list string -> spawned;           (* subprocess.run in _link *)
  clock : nat -> Z;                              (* the n-th reading of time.time() *)
  fs_write_cache : cache_data -> write_outcome   (* open + json.dump in save *)
}.

(** [as_completed] yields every submitted future once, in some order. *)
Definition fair_pool (w : world) : Prop :=
  forall fs : list future, Permutation (pool_as_completed w fs) fs.

(** The state of the build process: the in-memory cache [self.cache.data],
    the persisted cache file, the actions so far, the clock readings taken. *)
Record proc := Proc {
  data : cache_data;
  disk : cache_file;
  trace : list event;
  ticks : nat
}.

Definition M (A : Type) : Type := proc -> result A * proc.

Definition ret {A} (a : A) : M A := fun st => (Returned a, st).
Definition sys_exit {A} (code : Z) : M A := fun st => (SysExit code, st).
Definition raise {A} (e : exn) : M A := fun st => (Raised e, st).
Definition bind {A B} (m : M A) (k : A -> M B) : M B :=
  fun st =>
    match m st with
    | (Returned a, st') => k a st'
    | (SysExit code, st') => (SysExit code, st')
    | (Raised e, st') => (Raised e, st')
    end.

Notation "'let*' x ':=' m 'in' k" := (bind m (fun x => k))
  (at level 10, x name, m at level 100, k at level 200).

Definition log_events (evs : list event) (st : proc) : proc :=
  Proc (data st) (disk st) (trace st ++ evs) (ticks st).
Definition emit (ev : event) : M unit := fun st => (Returned tt, log_events [ev] st).
Definition set_data (d : cache_data) (st : proc) : proc :=
  Proc d (disk st) (trace st) (ticks st).
Definition set_disk (f : cache_file) (st : proc) : proc :=
  Proc (data st) f (trace st) (ticks st).
Definition tick (st : proc) : proc :=
  Proc (data st) (disk st) (trace st) (S (ticks st)).

(** [Path.mkdir(parents=True, exist_ok=True)] *)
Definition mkdir (w : world) (p : PurePath) : M unit :=
  fun st =>
    let st' := log_events [EvMkdir (path_str p)] st in
    if fs_mkdir w (path_str p) then (Returned tt, st') else (Raised MkdirFailed, st').

(** [BuildCache.save] *)
Definition save (w : world) : M unit :=
  fun st =>
    let st' := log_events [EvCacheWrite (data st)] st in
    match fs_write_cache w (data st) with
    | Written => (Returned tt, set_disk (Stored (data st)) st')
    | OpenDenied => (Raised CacheWriteFailed, st')
    | WriteInterrupted => (Raised CacheWriteFailed, set_disk Unparsable st')
    end.

(** ** The fingerprint ([hash_source]) *)

(** The [hashlib] object: the bytes fed so far; [hexdigest] hashes them. *)
Definition hasher := list byte.
Definition sha256_new : hasher := [].
Definition h_update (h : hasher) (bs : list byte) : hasher := h ++ bs.
Definition h_hexdigest (h : hasher) : string := SHA256.hexdigest h.

Definition update_all (h : hasher) (l : list string) : hasher :=
  fold_left (fun h s => h_update h (PyStr.encode s)) l h.

(** The bytes [hash_source] feeds to the hash, for given file contents. *)
Definition hash_input (resolved : string) (contents : list byte)
    (base_flags profile_flags include_dirs : list string) : hasher :=
  let h := sha256_new in
  let h := h_update h (PyStr.encode resolved) in
  let h := h_update h contents in
  let h := update_all h base_flags in
  let h := update_all h profile_flags in
  let h := update_all h include_dirs in
  h.

(** [hash_source] *)
Definition hash_source (w : world) (source_path : PurePath)
    (base_flags profile_flags include_dirs : list string) : result string :=
  let resolved := fs_resolve w (path_str source_path) in
  match fs_read_bytes w (path_str source_path) with
  | None => Raised ReadFailed
  | Some contents =>
      Returned (h_hexdigest (hash_input resolved contents base_flags profile_flags include_dirs))
  end.

(** ** The compile worker ([compiler_daemon]) *)

Definition compiler_daemon (w : world) (job : nat) (compiler_cmd : string)
    (base_flags profile_flags include_dirs : list string)
    (source obj_path : string) : list event * daemon_result :=
  let src := Path source in
  let obj := Path obj_path in
  let parent := path_str (path_parent obj) in
  if fs_mkdir w parent then
    let cmd := [compiler_cmd; "-c"; path_str src; "-o"; path_str obj] in
    let cmd := fold_left (fun cmd inc => cmd ++ ["-I" +:+ inc]) include_dirs cmd in
    let cmd := cmd ++ base_flags in
    let cmd := cmd ++ profile_flags in
    match run_compiler w job cmd with
    | Completed returncode stderr =>
        ([EvMkdir parent; EvCompilerRun job cmd], Done source returncode stderr)
    | NotStarted =>
        ([EvMkdir parent; EvCompilerRun job cmd], Crashed SpawnFailed)
    | Undecodable _ =>
        ([EvMkdir parent; EvCompilerRun job cmd], Crashed SpawnFailed)
    end
  else ([EvMkdir parent], Crashed MkdirFailed).

(** ** The scheduler ([ForgeBuilder._run_parallel_compilers]) *)

(** [jobs = os.cpu_count() or 1] when [jobs] is [None] or not positive. *)
Definition effective_jobs (w : world) (jobs : option Z) : Z :=
  let default :=
    match os_cpu_count w with
    | Some n => if (n =? 0)%Z then 1%Z else n
    | None => 1%Z
    end in
  match jobs with
  | None => default
  | Some j => if (j <=? 0)%Z then default else j
  end.

(** [executor.submit(compiler_daemon, ...)] for the job at position [i]. *)
Definition submit (w : world) (config : BuildConfig) (i : nat) (t : task) : future :=
  if pool_lost w i then Future i t [] (Crashed WorkerLost)
  else
    let r := compiler_daemon w i (compiler_cmd config) (compiler_base_flags config)
               (flags (profile config)) (include_dirs config) (task_src t) (task_obj t) in
    Future i t (fst r) (snd r).

(** The futures of a task list all of whose submissions are accepted. *)
Fixpoint submit_all (w : world) (config : BuildConfig) (i : nat) (tasks : list task)
    : list future :=
  match tasks with
  | [] => []
  | t :: rest => submit w config i t :: submit_all w config (S i) rest
  end.

(** The body of the [as_completed] loop: the state of the process and the
    [errors] flag before and after one future. *)
Definition collect (w : world) (acc : proc * bool) (fu : future) : proc * bool :=
  let st := log_events (fut_events fu) (fst acc) in
  let errors := snd acc in
  let t := fut_task fu in
  match fut_result fu with
  | Crashed _ =>
      (log_events [EvCollected (fut_job fu) t false] st, true)
  | Done source returncode stderr_output =>
      if (returncode =? 0)%Z then
        let now := clock w (ticks st) in
        let d := update_entry (data st) (Path (task_obj t)) (task_hash t) now in
        (log_events [EvCollected (fut_job fu) t true] (tick (set_data d st)), errors)
      else
        (log_events [EvCollected (fut_job fu) t false] st, true)
  end.

(** The dict comprehension that builds [future_map]: the futures handed
    out, from position [i] on, and whether it got through the task list; it
    stops at the first call of [executor.submit] that raises. *)
Fixpoint submit_each (w : world) (config : BuildConfig) (i : nat) (tasks : list task)
    : list future * bool :=
  match tasks with
  | [] => ([], true)
  | t :: rest =>
      if pool_submit w i then
        let '(fs, through) := submit_each w config (S i) rest in
        (submit w config i t :: fs, through)
      else ([], false)
  end.

(** When the pool cannot be created nothing has happened yet.  When a
    submission raises, the [with] block is left through the shutdown of the
    pool, which waits for the jobs handed out so far: their workers run,
    their futures are not collected. *)
Definition _run_parallel_compilers (w : world) (config : BuildConfig)
    (tasks : list task) (jobs : option Z) : M unit :=
  fun st =>
    let jobs := effective_jobs w jobs in
    if pool_start w jobs then
      let '(future_map, through) := submit_each w config 0 tasks in
      let st := log_events (EvPool jobs :: map (fun fu => EvSubmit (fut_job fu) (fut_task fu)) future_map) st in
      if through then
        let '(st, errors) := fold_left (collect w) (pool_as_completed w future_map) (st, false) in
        if errors then (SysExit 1, st) else (Returned tt, st)
      else (Raised SubmitFailed, log_events (flat_map fut_events future_map) st)
    else (Raised PoolFailed, st).

(** ** The link step ([ForgeBuilder._link]) *)

Definition _link (w : world) (config : BuildConfig) (obj_files : list PurePath) : M unit :=
  match obj_files with
  | [] => ret tt
  | _ =>
      let binary_name := binary_name config in
      let binary_name :=
        if String.eqb (os_name w) "nt" then
          if negb (PyStr.endswith (PyStr.lower binary_name) ".exe")
          then binary_name +:+ ".exe" else binary_name
        else binary_name in
      let output_binary := path_join (Path (output_dir config)) binary_name in
      let cmd := [compiler_cmd config] in
      let cmd := cmd ++ map path_str obj_files in
      let cmd := cmd ++ compiler_base_flags config in
      let cmd := cmd ++ flags (profile config) in
      let cmd := cmd ++ ["-o"; path_str output_binary] in
      let* _ := emit (EvLinkerRun cmd) in
      match run_linker w cmd with
      | NotStarted => raise SpawnFailed
      | Undecodable _ => raise SpawnFailed
      | Completed returncode stderr =>
          if (returncode =? 0)%Z then ret tt else sys_exit 1
      end
  end.

(** ** The orchestrator ([ForgeBuilder.build]) *)

(** One turn of the classification loop: the object path of the unit and,
    when the unit is stale, its compile task. *)
Definition classify_unit (w : world) (config : BuildConfig) (force_rebuild : bool)
    (d : cache_data) (src_str : string) : result (PurePath * option task) :=
  let src_path := Path src_str in
  if negb (fs_exists w (path_str src_path)) then SysExit 1
  else
    match with_suffix_name src_path ".o" with
    | None => Raised EmptyName
    | Some obj_name =>
        let obj_path := path_join (Path (output_dir config)) obj_name in
        match hash_source w src_path (compiler_base_flags config)
                (flags (profile config)) (include_dirs config) with
        | Returned source_hash =>
            if force_rebuild || needs_rebuild d obj_path source_hash
            then Returned (obj_path, Some (Task (path_str src_path) (path_str obj_path) source_hash))
            else Returned (obj_path, None)
        | SysExit code => SysExit code
        | Raised e => Raised e
        end
    end.

(** The classification loop over [cpp_sources], with the two lists it
    appends to. *)
Fixpoint classify (w : world) (config : BuildConfig) (force_rebuild : bool)
    (d : cache_data) (sources : list string)
    (obj_files : list PurePath) (compile_tasks : list task)
    : result (list PurePath * list task) :=
  match sources with
  | [] => Returned (obj_files, compile_tasks)
  | src_str :: rest =>
      match classify_unit w config force_rebuild d src_str with
      | Returned (obj_path, Some t) =>
          classify w config force_rebuild d rest (obj_files ++ [obj_path]) (compile_tasks ++ [t])
      | Returned (obj_path, None) =>
          classify w config force_rebuild d rest (obj_files ++ [obj_path]) compile_tasks
      | SysExit code => SysExit code
      | Raised e => Raised e
      end
  end.

Definition build (w : world) (config : BuildConfig) (force_rebuild : bool)
    (jobs : option Z) : M unit :=
  let* _ := mkdir w (Path (output_dir config)) in
  fun st =>
    match classify w config force_rebuild (data st) (cpp_sources config) [] [] with
    | Returned (obj_files, compile_tasks) =>
        (let* _ :=
           match compile_tasks with
           | [] => ret tt
           | _ => _run_parallel_compilers w config compile_tasks jobs
           end in
         let* _ := _link w config obj_files in
         save w) st
    | SysExit code => (SysExit code, st)
    | Raised e => (Raised e, st)
    end.

(** ** The command line ([main]), for the commands that run the engine *)

Inductive command := CmdBuild | CmdForceBuild.

(** A fresh process: nothing in memory, the cache file as found on disk. *)
Definition boot (f : cache_file) : proc := Proc ∅ f [] 0.

(** [ForgeBuilder(config)]: the cache store is loaded from the file. *)
Definition ForgeBuilder_init : M unit :=
  fun st => (Returned tt, set_data (_load (disk st)) st).

Definition main (w : world) (cfg : config_file) (cmd : command) (jobs : option Z) : M unit :=
  match from_file cfg with
  | Returned config =>
      let* _ := ForgeBuilder_init in
      match cmd with
      | CmdBuild => build w config false jobs
      | CmdForceBuild => build w config true jobs
      end
  | SysExit code => sys_exit code
  | Raised e => raise e
  end.

(** ** Derived notions used to state the properties *)

(** The compilation unit of a source string, as [build] derives it: the
    normalised source path, the object path and the fingerprint.  [None]
    when the path has no name or the file cannot be read. *)
Definition unit_object (config : BuildConfig) (src_str : string) : option PurePath :=
  match with_suffix_name (Path src_str) ".o" with
  | Some obj_name => Some (path_join (Path (output_dir config)) obj_name)
  | None => None
  end.

Definition unit_fingerprint (w : world) (config : BuildConfig) (src_str : string)
    : option string :=
  match hash_source w (Path src_str) (compiler_base_flags config)
          (flags (profile config)) (include_dirs config) with
  | Returned h => Some h
  | _ => None
  end.

Definition unit_task (w : world) (config : BuildConfig) (src_str : string) : option task :=
  match unit_object config src_str, unit_fingerprint w config src_str with
  | Some obj, Some h => Some (Task (path_str (Path src_str)) (path_str obj) h)
  | _, _ => None
  end.

(** Every source exists, has a name and can be read: fingerprinting gets
    through the whole source list. *)
Definition sources_ok (w : world) (config : BuildConfig) : Prop :=
  Forall (fun s => fs_exists w (path_str (Path s)) = true
                   /\ is_Some (unit_task w config s)) (cpp_sources config).

(** Units that are written to the same object path have the same
    fingerprint. *)
Definition coherent_objects (w : world) (config : BuildConfig) : Prop :=
  forall s1 s2 t1 t2,
    In s1 (cpp_sources config) -> In s2 (cpp_sources config) ->
    unit_task w config s1 = Some t1 -> unit_task w config s2 = Some t2 ->
    task_obj t1 = task_obj t2 -> task_hash t1 = task_hash t2.

(** Two environments with the same source files. *)
Definition same_sources (w1 w2 : world) : Prop :=
  forall p, fs_exists w1 p = fs_exists w2 p
            /\ fs_resolve w1 p = fs_resolve w2 p
            /\ fs_read_bytes w1 p = fs_read_bytes w2 p.

(** The key of a task in the cache store, as [update_entry] computes it. *)
Definition task_key (t : task) : string := path_str (Path (task_obj t)).

(** The fingerprint stored in an entry, when it is a string. *)
Definition stored_hash (e : cache_entry) : option string :=
  match e !! "hash" with
  | Some (JStr h) => Some h
  | _ => None
  end.

(** Readings of a trace. *)
Definition submitted (evs : list event) : list task :=
  flat_map (fun ev => match ev with EvSubmit _ t => [t] | _ => [] end) evs.
Definition submitted_jobs (evs : list event) : list nat :=
  flat_map (fun ev => match ev with EvSubmit j _ => [j] | _ => [] end) evs.
Definition collected_jobs (evs : list event) : list nat :=
  flat_map (fun ev => match ev with EvCollected j _ _ => [j] | _ => [] end) evs.
Definition succeeded (evs : list event) : list task :=
  flat_map (fun ev => match ev with EvCollected _ t true => [t] | _ => [] end) evs.
Definition failed (evs : list event) : list task :=
  flat_map (fun ev => match ev with EvCollected _ t false => [t] | _ => [] end) evs.
Definition linker_runs (evs : list event) : list (list string) :=
  flat_map (fun ev => match ev with EvLinkerRun cmd => [cmd] | _ => [] end) evs.
Definition cache_writes (evs : list event) : list cache_data :=
  flat_map (fun ev => match ev with EvCacheWrite d => [d] | _ => [] end) evs.
Definition submissions (evs : list event) : list (nat * task) :=
  flat_map (fun ev => match ev with EvSubmit j t => [(j, t)] | _ => [] end) evs.
Definition collections (evs : list event) : list (nat * task * bool) :=
  flat_map (fun ev => match ev with EvCollected j t ok => [(j, t, ok)] | _ => [] end) evs.
Definition compiler_runs (evs : list event) : list (nat * list string) :=
  flat_map (fun ev => match ev with EvCompilerRun j cmd => [(j, cmd)] | _ => [] end) evs.

(** Whether the future of a job holds a success. *)
Definition fut_ok (fu : future) : bool :=
  match fut_result fu with
  | Done _ returncode _ => (returncode =? 0)%Z
  | Crashed _ => false
  end.

(** What one turn of the completion loop adds to the trace. *)
Definition fut_trace (fu : future) : list event :=
  fut_events fu ++ [EvCollected (fut_job fu) (fut_task fu) (fut_ok fu)].

(** The events a worker process produces. *)
Definition worker_event (ev : event) : bool :=
  match ev with
  | EvMkdir _ | EvCompilerRun _ _ => true
  | _ => false
  end.

(** A future whose events are those of a worker. *)
Definition worker_future (fu : future) : Prop :=
  forallb worker_event (fut_events fu) = true.

(** The state after one turn of the completion loop. *)
Definition collected (w : world) (st : proc) (fu : future) : proc :=
  if fut_ok fu then
    Proc (update_entry (data st) (Path (task_obj (fut_task fu)))
            (task_hash (fut_task fu)) (clock w (ticks st)))
         (disk st) (trace st ++ fut_trace fu) (S (ticks st))
  else Proc (data st) (disk st) (trace st ++ fut_trace fu) (ticks st).

(** What the compile stage adds to the trace when the futures complete in
    the order [done]: nothing without tasks, else the pool, the submissions
    and the turns of the completion loop. *)
Definition compile_trace (w : world) (config : BuildConfig) (tasks : list task)
    (jobs : option Z) (done : list future) : list event :=
  match tasks with
  | [] => []
  | _ =>
      EvPool (effective_jobs w jobs)
      :: map (fun fu => EvSubmit (fut_job fu) (fut_task fu)) (submit_all w config 0 tasks)
      ++ flat_map fut_trace done
  end.

(** How many of the [n] submissions from position [i] on are accepted
    before one raises, and whether a pool of the asked size can be created
    and accepts all [n] submissions. *)
Fixpoint accepted (w : world) (i n : nat) : nat :=
  match n with
  | O => O
  | S n' => if pool_submit w i then S (accepted w (S i) n') else O
  end.

Definition pool_takes (w : world) (jobs : option Z) (n : nat) : bool :=
  pool_start w (effective_jobs w jobs) && (accepted w 0 n =? n)%nat.

(** The tasks that get submitted: those before the first submission that
    raises, none when the pool cannot be created. *)
Definition sent_tasks (w : world) (jobs : option Z) (tasks : list task) : list task :=
  if pool_start w (effective_jobs w jobs)
  then firstn (accepted w 0 (length tasks)) tasks else [].

(** What the compile stage adds to the trace when the pool does not take
    the tasks: nothing when the pool cannot be created, else the pool, the
    submissions before the one that raises, and what their workers do. *)
Definition pool_abort_trace (w : world) (config : BuildConfig) (tasks : list task)
    (jobs : option Z) : list event :=
  if pool_start w (effective_jobs w jobs) then
    let sent := submit_all w config 0 (firstn (accepted w 0 (length tasks)) tasks) in
    EvPool (effective_jobs w jobs)
    :: map (fun fu => EvSubmit (fut_job fu) (fut_task fu)) sent
    ++ flat_map fut_events sent
  else [].

(** The command a worker runs for a task, and whether the job at position
    [j] compiles the task: its worker is not lost, the directory of the
    object can be made, and the compiler runs and exits with zero. *)
Definition compile_cmd (config : BuildConfig) (t : task) : list string :=
  [compiler_cmd config; "-c"; path_str (Path (task_src t)); "-o"; path_str (Path (task_obj t))]
  ++ map (fun inc => "-I" +:+ inc) (include_dirs config)
  ++ compiler_base_flags config ++ flags (profile config).

Definition job_ok (w : world) (config : BuildConfig) (j : nat) (t : task) : bool :=
  negb (pool_lost w j)
  && fs_mkdir w (path_str (path_parent (Path (task_obj t))))
  && match run_compiler w j (compile_cmd config t) with
     | Completed returncode _ => (returncode =? 0)%Z
     | _ => false
     end.

(** The units of a source list: object path and task of every source. *)
Definition unit_pair (w : world) (config : BuildConfig) (src_str : string)
    : option (PurePath * task) :=
  match unit_object config src_str, unit_task w config src_str with
  | Some o, Some t => Some (o, t)
  | _, _ => None
  end.

Fixpoint units (w : world) (config : BuildConfig) (sources : list string)
    : option (list (PurePath * task)) :=
  match sources with
  | [] => Some []
  | s :: rest =>
      match unit_pair w config s, units w config rest with
      | Some u, Some us => Some (u :: us)
      | _, _ => None
      end
  end.

(** The classification of a unit against the cache store. *)
Definition stale (force_rebuild : bool) (d : cache_data) (u : PurePath * task) : bool :=
  force_rebuild || needs_rebuild d (fst u) (task_hash (snd u)).

(** The compile stage of [build]: nothing when no task is stale. *)
Definition compile_stage (w : world) (config : BuildConfig) (tasks : list task)
    (jobs : option Z) : M unit :=
  match tasks with
  | [] => ret tt
  | _ => _run_parallel_compilers w config tasks jobs
  end.

(** The ways through [build], stage by stage: where it stops and with what. *)
Inductive build_run (w : world) (config : BuildConfig) (force_rebuild : bool)
    (jobs : option Z) (st : proc) : result unit -> proc -> Prop :=
| run_mkdir_failed :
    fs_mkdir w (path_str (Path (output_dir config))) = false ->
    build_run w config force_rebuild jobs st (Raised MkdirFailed)
      (log_events [EvMkdir (path_str (Path (output_dir config)))] st)
| run_config_error code :
    fs_mkdir w (path_str (Path (output_dir config))) = true ->
    classify w config force_rebuild (data st) (cpp_sources config) [] [] = SysExit code ->
    build_run w config force_rebuild jobs st (SysExit code)
      (log_events [EvMkdir (path_str (Path (output_dir config)))] st)
| run_fingerprint_error e :
    fs_mkdir w (path_str (Path (output_dir config))) = true ->
    classify w config force_rebuild (data st) (cpp_sources config) [] [] = Raised e ->
    build_run w config force_rebuild jobs st (Raised e)
      (log_events [EvMkdir (path_str (Path (output_dir config)))] st)
| run_compile_abort obj_files tasks r1 st1 :
    fs_mkdir w (path_str (Path (output_dir config))) = true ->
    classify w config force_rebuild (data st) (cpp_sources config) [] []
    = Returned (obj_files, tasks) ->
    compile_stage w config tasks jobs
      (log_events [EvMkdir (path_str (Path (output_dir config)))] st) = (r1, st1) ->
    r1 <> Returned tt ->
    build_run w config force_rebuild jobs st r1 st1
| run_link_abort obj_files tasks st1 r2 st2 :
    fs_mkdir w (path_str (Path (output_dir config))) = true ->
    classify w config force_rebuild (data st) (cpp_sources config) [] []
    = Returned (obj_files, tasks) ->
    compile_stage w config tasks jobs
      (log_events [EvMkdir (path_str (Path (output_dir config)))] st) = (Returned tt, st1) ->
    _link w config obj_files st1 = (r2, st2) ->
    r2 <> Returned tt ->
    build_run w config force_rebuild jobs st r2 st2
| run_persist obj_files tasks st1 st2 r st' :
    fs_mkdir w (path_str (Path (output_dir config))) = true ->
    classify w config force_rebuild (data st) (cpp_sources config) [] []
    = Returned (obj_files, tasks) ->
    compile_stage w config tasks jobs
      (log_events [EvMkdir (path_str (Path (output_dir config)))] st) = (Returned tt, st1) ->
    _link w config obj_files st1 = (Returned tt, st2) ->
    save w st2 = (r, st') ->
    build_run w config force_rebuild jobs st r st'.

(** The cache store [d'] after the completion loop has gone through [done]
    from the store [d]: under every key, the old entry when no succeeded
    future has that key, else an entry with the fingerprint of a succeeded
    future that has it. *)
Definition data_after (done : list future) (d d' : cache_data) : Prop :=
  forall k : string,
    ((forall fu, In fu done -> fut_ok fu = true -> task_key (fut_task fu) <> k)
     /\ d' !! k = d !! k)
    \/ (exists fu e, In fu done /\ fut_ok fu = true /\ task_key (fut_task fu) = k
                    /\ d' !! k = Some e
                    /\ stored_hash e = Some (task_hash (fut_task fu))).

(** The five shapes of a run of [build] under a fair pool, with the result,
    the trace and the two caches of each. *)
Inductive build_shape (w : world) (config : BuildConfig) (force_rebuild : bool)
    (jobs : option Z) (st : proc) (r : result unit) (st' : proc) : Prop :=
| shape_early :
    st' = log_events [EvMkdir (path_str (Path (output_dir config)))] st ->
    r = Raised MkdirFailed \/ r = SysExit 1 \/ r = Raised EmptyName \/ r = Raised ReadFailed ->
    fs_mkdir w (path_str (Path (output_dir config))) = false
    \/ is_returned (classify w config force_rebuild (data st) (cpp_sources config) [] [])
       = false ->
    build_shape w config force_rebuild jobs st r st'
| shape_pool_abort obj_files tasks :
    classify w config force_rebuild (data st) (cpp_sources config) [] []
    = Returned (obj_files, tasks) ->
    tasks <> [] ->
    pool_takes w jobs (length tasks) = false ->
    (if pool_start w (effective_jobs w jobs) then r = Raised SubmitFailed
     else r = Raised PoolFailed) ->
    data st' = data st ->
    disk st' = disk st ->
    trace st' = trace st ++ [EvMkdir (path_str (Path (output_dir config)))]
                ++ pool_abort_trace w config tasks jobs ->
    build_shape w config force_rebuild jobs st r st'
| shape_compile_abort obj_files tasks done :
    classify w config force_rebuild (data st) (cpp_sources config) [] []
    = Returned (obj_files, tasks) ->
    Permutation done (submit_all w config 0 tasks) ->
    data_after done (data st) (data st') ->
    forallb fut_ok done = false ->
    r = SysExit 1 ->
    disk st' = disk st ->
    trace st' = trace st ++ [EvMkdir (path_str (Path (output_dir config)))]
                ++ compile_trace w config tasks jobs done ->
    tasks = [] \/ pool_takes w jobs (length tasks) = true ->
    build_shape w config force_rebuild jobs st r st'
| shape_link_abort obj_files tasks done cmd :
    classify w config force_rebuild (data st) (cpp_sources config) [] []
    = Returned (obj_files, tasks) ->
    Permutation done (submit_all w config 0 tasks) ->
    data_after done (data st) (data st') ->
    forallb fut_ok done = true ->
    (exists returncode stderr,
        run_linker w cmd = Completed returncode stderr /\ returncode <> 0%Z /\ r = SysExit 1)
    \/ ((forall returncode stderr, run_linker w cmd <> Completed returncode stderr)
        /\ r = Raised SpawnFailed) ->
    disk st' = disk st ->
    trace st' = trace st ++ [EvMkdir (path_str (Path (output_dir config)))]
                ++ compile_trace w config tasks jobs done ++ [EvLinkerRun cmd] ->
    tasks = [] \/ pool_takes w jobs (length tasks) = true ->
    build_shape w config force_rebuild jobs st r st'
| shape_persist obj_files tasks done link_evs :
    classify w config force_rebuild (data st) (cpp_sources config) [] []
    = Returned (obj_files, tasks) ->
    Permutation done (submit_all w config 0 tasks) ->
    data_after done (data st) (data st') ->
    forallb fut_ok done = true ->
    (obj_files = [] /\ link_evs = [])
    \/ (exists cmd stderr, link_evs = [EvLinkerRun cmd]
                           /\ run_linker w cmd = Completed 0 stderr) ->
    match fs_write_cache w (data st') with
    | Written => r = Returned tt /\ disk st' = Stored (data st')
    | OpenDenied => r = Raised CacheWriteFailed /\ disk st' = disk st
    | WriteInterrupted => r = Raised CacheWriteFailed /\ disk st' = Unparsable
    end ->
    trace st' = trace st ++ [EvMkdir (path_str (Path (output_dir config)))]
                ++ compile_trace w config tasks jobs done ++ link_evs
                ++ [EvCacheWrite (data st')] ->
    tasks = [] \/ pool_takes w jobs (length tasks) = true ->
    build_shape w config force_rebuild jobs st r st'.

(** The [force_rebuild] argument [main] passes for a command. *)
Definition force_of (cmd : command) : bool :=
  match cmd with
  | CmdBuild => false
  | CmdForceBuild => true
  end.

(** The name of the linked binary after the platform policy of [_link]. *)
Definition link_binary_name (w : world) (config : BuildConfig) : string :=
  if String.eqb (os_name w) "nt" then
    if negb (PyStr.endswith (PyStr.lower (binary_name config)) ".exe")
    then binary_name config +:+ ".exe" else binary_name config
  else binary_name config.

(** The command [_link] runs for a list of object files. *)
Definition link_cmd (w : world) (config : BuildConfig) (obj_files : list PurePath)
    : list string :=
  [compiler_cmd config] ++ map path_str obj_files ++ compiler_base_flags config
  ++ flags (profile config)
  ++ ["-o"; path_str (path_join (Path (output_dir config)) (link_binary_name w config))].

(** ** Console helpers ([colored], [log]) *)

Definition ESC : string := String (ascii_of_nat 27) EmptyString.
Definition NL : string := String (ascii_of_nat 10) EmptyString.
Definition DQ : string := String (ascii_of_nat 34) EmptyString.

(** The table of [colored]. *)
Definition colors : gmap string string :=
  list_to_map
    [ ("red", ESC +:+ "[31m"); ("green", ESC +:+ "[32m"); ("yellow", ESC +:+ "[33m");
      ("blue", ESC +:+ "[34m"); ("magenta", ESC +:+ "[35m"); ("cyan", ESC +:+ "[36m");
      ("reset", ESC +:+ "[0m") ].

(** [colored] *)
Definition colored (text color : string) : string :=
  let prefix := default "" (colors !! color) in
  let reset := if String.eqb prefix "" then "" else default "" (colors !! "reset") in
  prefix +:+ text +:+ reset.

(** The line [log] prints. *)
Definition log_line (msg : string) : string := "[ForgeBuild_2] " +:+ msg.

(** ** The command [clean] ([ForgeBuilder.clean]) *)

(** How the two removals of [clean] go: whether [shutil.rmtree] of a
    directory returns ([false] is an exception), whether the cache file
    lies in the tree of that directory and is deleted by the time
    [rmtree] ends, returning or raising (the output directory may be [.],
    which [rmtree] empties before it fails to remove it), and whether
    [unlink] of the cache file returns. *)
Record removal_oracle := {
  rmtree_ok : string -> bool;
  rmtree_takes_cache : string -> bool;
  unlink_ok : bool
}.

Inductive clean_exn := RmtreeFailed | UnlinkFailed.

(** What [clean] did to the disk: a tree removed as a whole, a tree of
    which [rmtree] removed some part, possibly none, before it raised, and
    the cache file unlinked. *)
Inductive removal :=
| RemovedTree (dir : string)
| TreeLeftInPart (dir : string)
| RemovedCacheFile.

(** [ForgeBuilder.clean]: the exception that ends it, if any, the cache
    file afterwards and what was removed. *)
Definition clean (w : world) (o : removal_oracle) (config : BuildConfig) (f : cache_file)
    : option clean_exn * cache_file * list removal :=
  let output_dir := path_str (Path (output_dir config)) in
  let unlink_cache (f1 : cache_file) (removed : list removal) :=
    match f1 with
    | NoFile => (None, NoFile, removed)
    | _ =>
        if unlink_ok o then (None, NoFile, removed ++ [RemovedCacheFile])
        else (Some UnlinkFailed, f1, removed)
    end in
  if fs_exists w output_dir then
    let f1 := if rmtree_takes_cache o output_dir then NoFile else f in
    if rmtree_ok o output_dir then unlink_cache f1 [RemovedTree output_dir]
    else (Some RmtreeFailed, f1, [TreeLeftInPart output_dir])
  else unlink_cache f [].

(** ** A file system for [init] *)

(** A directory, or a regular file with its text and permission bits.  The
    file system maps normalised path strings to nodes; it has no links, a
    [..] component is not resolved (two paths name the same node when their
    strings are equal), and the current directory and the root, the paths
    without components, are always there. *)
Inductive node := NDir | NFile (content : string) (mode : Z).

Abbreviation fsys := (gmap string node).

(** How [shutil.copy2] of the running script goes once its target can be
    opened for writing.  [copy2] is [copyfile], which opens the source,
    then opens and truncates the target and copies the bytes, followed by
    [copystat]: it returns; or it raises before the target is opened (the
    source cannot be read, or is the target itself); or it raises after
    the target was opened, which then holds [written], with the permission
    bits of the source when [copystat] got as far as [chmod], else with
    the bits the target had, or those of a new file. *)
Inductive copy_run :=
| CopyWhole
| CopyRefused
| CopyBroken (written : string) (stat_copied : bool).

(** What [init] depends on besides the file system: the running script
    [SELF_PATH] (text, permission bits, file name, how copying it goes),
    the permission bits of a newly created file, and the paths at which
    creating or writing is refused by the system. *)
Record init_env := {
  self_text : string;
  self_mode : Z;
  self_name : string;
  self_copy : copy_run;
  new_file_mode : Z;
  denied : string -> bool
}.

(** A step on the file system: [None] is an exception. *)
Definition IO : Type := gmap string node -> option unit * gmap string node.

Definition io_ret : IO := fun fs => (Some tt, fs).
Definition io_seq (m k : IO) : IO :=
  fun fs =>
    match m fs with
    | (Some _, fs') => k fs'
    | (None, fs') => (None, fs')
    end.
Fixpoint io_all (steps : list IO) : IO :=
  match steps with
  | [] => io_ret
  | m :: rest => io_seq m (io_all rest)
  end.

Definition fs_node (fs : fsys) (p : PurePath) : option node :=
  match p_parts p with
  | [] => Some NDir
  | _ => fs !! path_str p
  end.

(** [p.exists()] and [p.is_dir()] *)
Definition fs_has (fs : fsys) (p : PurePath) : bool :=
  match fs_node fs p with Some _ => true | None => false end.
Definition fs_is_dir (fs : fsys) (p : PurePath) : bool :=
  match fs_node fs p with Some NDir => true | _ => false end.

(** Whether a node can be created at [p]: the parent is a directory and the
    system does not refuse. *)
Definition can_create (env : init_env) (fs : fsys) (p : PurePath) : bool :=
  fs_is_dir fs (path_parent p) && negb (denied env (path_str p)).

(** [p.mkdir(exist_ok=True)] *)
Definition io_mkdir (env : init_env) (p : PurePath) : IO :=
  fun fs =>
    match fs_node fs p with
    | Some NDir => (Some tt, fs)
    | Some (NFile _ _) => (None, fs)
    | None =>
        if can_create env fs p then (Some tt, <[path_str p := NDir]> fs) else (None, fs)
    end.

(** [p.write_text(content, encoding="utf-8")] *)
Definition io_write_text (env : init_env) (p : PurePath) (content : string) : IO :=
  fun fs =>
    match fs_node fs p with
    | Some NDir => (None, fs)
    | Some (NFile _ mode) =>
        if denied env (path_str p) then (None, fs)
        else (Some tt, <[path_str p := NFile content mode]> fs)
    | None =>
        if can_create env fs p
        then (Some tt, <[path_str p := NFile content (new_file_mode env)]> fs)
        else (None, fs)
    end.

(** [p.chmod(p.stat().st_mode | 0o111)]; 0o111 is 73. *)
Definition io_make_executable (p : PurePath) : IO :=
  fun fs =>
    match fs_node fs p with
    | Some (NFile content mode) =>
        (Some tt, <[path_str p := NFile content (Z.lor mode 73)]> fs)
    | Some NDir => (Some tt, fs)
    | None => (None, fs)
    end.

(** [if not p.exists(): body] *)
Definition io_unless_exists (p : PurePath) (body : IO) : IO :=
  fun fs => if fs_has fs p then (Some tt, fs) else body fs.

(** Where [shutil.copy2(SELF_PATH, target)] writes: into [target] when it
    is a directory. *)
Definition copy_destination (env : init_env) (fs : fsys) (target : PurePath) : PurePath :=
  if fs_is_dir fs target then path_join target (self_name env) else target.

(** [shutil.copy2(SELF_PATH, target)] under [try]: whether it returned,
    and the file system afterwards.  A copy that raises before its target
    is opened leaves the file system as it was; one that raises later
    leaves the target overwritten. *)
Definition io_copy_self (env : init_env) (target : PurePath) (fs : fsys) : bool * fsys :=
  let dst := copy_destination env fs target in
  let opened (mode : Z) : bool * fsys :=
    match self_copy env with
    | CopyWhole => (true, <[path_str dst := NFile (self_text env) (self_mode env)]> fs)
    | CopyRefused => (false, fs)
    | CopyBroken written stat_copied =>
        (false, <[path_str dst := NFile written
                                    (if stat_copied then self_mode env else mode)]> fs)
    end in
  match fs_node fs dst with
  | Some NDir => (false, fs)
  | Some (NFile _ mode) => if denied env (path_str dst) then (false, fs) else opened mode
  | None => if can_create env fs dst then opened (new_file_mode env) else (false, fs)
  end.

(** The permission bits a file written at [k] without [chmod] has: those of
    the file that was there, or those of a new file. *)
Definition mode_at (env : init_env) (fs : fsys) (k : string) : Z :=
  match fs !! k with
  | Some (NFile _ m) => m
  | _ => new_file_mode env
  end.

Definition WRAPPER_DIR : string := ".forgebuild2".
Definition WRAPPER_SCRIPT_NAME : string := "forgebuild2.py".
Definition WRAPPER_SH : string := "forgew".
Definition WRAPPER_BAT : string := "forgew.bat".

(** A text given line by line, every line ended by a newline. *)
Definition text_of_lines (lines : list string) : string :=
  fold_right (fun line rest => line +:+ NL +:+ rest) EmptyString lines.

(** The text of [forgew]. *)
Definition wrapper_sh_contents : string :=
  text_of_lines
  [ "#!/usr/bin/env sh";
    "# ForgeBuild_2 wrapper (Unix-like)";
    ("DIR=" +:+ DQ +:+ "$(CDPATH= cd -- " +:+ DQ +:+ "$(dirname " +:+ DQ +:+ "$0" +:+ DQ +:+ ")" +:+ DQ +:+ " && pwd)" +:+ DQ);
    ("PYTHON=" +:+ DQ +:+ "${PYTHON:-python3}" +:+ DQ);
    ("exec " +:+ DQ +:+ "$PYTHON" +:+ DQ +:+ " " +:+ DQ +:+ "$DIR/.forgebuild2/forgebuild2.py" +:+ DQ +:+ " " +:+ DQ +:+ "$@" +:+ DQ) ].

(** The text of [forgew.bat]. *)
Definition wrapper_bat_contents : string :=
  text_of_lines
  [ "@echo off";
    "REM ForgeBuild_2 wrapper (Windows)";
    "setlocal";
    "set DIR=%~dp0";
    "set PYTHON=%PYTHON%";
    ("if " +:+ DQ +:+ "%PYTHON%" +:+ DQ +:+ "==" +:+ DQ +:+ DQ +:+ " set PYTHON=python");
    (DQ +:+ "%PYTHON%" +:+ DQ +:+ " " +:+ DQ +:+ "%DIR%.forgebuild2\forgebuild2.py" +:+ DQ +:+ " %*");
    "endlocal" ].

(** The example [forge.toml]. *)
Definition example_config : string :=
  text_of_lines
  [ "# ForgeBuild_2 example configuration";
    ("project = " +:+ DQ +:+ "MyProject" +:+ DQ);
    ("version = " +:+ DQ +:+ "0.1.0" +:+ DQ);
    "";
    "[build]";
    ("# " +:+ DQ +:+ "debug" +:+ DQ +:+ " or " +:+ DQ +:+ "release" +:+ DQ);
    ("profile = " +:+ DQ +:+ "debug" +:+ DQ);
    "";
    "[sources]";
    "cpp = [";
    ("    " +:+ DQ +:+ "src/main.cpp" +:+ DQ +:+ ",");
    "]";
    "";
    "[compiler]";
    "# Only clang++ is officially supported.";
    ("command = " +:+ DQ +:+ "clang++" +:+ DQ);
    "# Extra flags applied to all builds (debug + release)";
    ("flags = [" +:+ DQ +:+ "-Wall" +:+ DQ +:+ ", " +:+ DQ +:+ "-std=c++20" +:+ DQ +:+ "]");
    "";
    "[paths]";
    ("include_dirs = [" +:+ DQ +:+ "include" +:+ DQ +:+ "]");
    ("output_dir = " +:+ DQ +:+ "build" +:+ DQ);
    ("binary_name = " +:+ DQ +:+ "myproject" +:+ DQ) ].

(** The starter [src/main.cpp]. *)
Definition example_main_cpp : string :=
  text_of_lines
  [ "#include <iostream>";
    "";
    "int main() {";
    ("    std::cout << " +:+ DQ +:+ "Hello from ForgeBuild_2!\n" +:+ DQ +:+ ";");
    "    return 0;";
    "}" ].

(** [install_wrapper_scripts] *)
Definition install_wrapper_scripts (env : init_env) (project_root : PurePath) : IO :=
  let wrapper_dir := path_join project_root WRAPPER_DIR in
  let target_script := path_join wrapper_dir WRAPPER_SCRIPT_NAME in
  let wrapper_sh := path_join project_root WRAPPER_SH in
  let wrapper_bat := path_join project_root WRAPPER_BAT in
  io_seq (io_mkdir env wrapper_dir)
    (fun fs =>
       match io_copy_self env target_script fs with
       | (false, fs') => (Some tt, fs')
       | (true, fs') =>
           io_all
             [ io_unless_exists wrapper_sh
                 (io_seq (io_write_text env wrapper_sh wrapper_sh_contents)
                    (io_make_executable wrapper_sh));
               io_unless_exists wrapper_bat
                 (io_write_text env wrapper_bat wrapper_bat_contents) ] fs'
       end).

(** [create_example_project_and_wrapper] *)
Definition create_example_project_and_wrapper (env : init_env) (config_path : PurePath)
    : IO :=
  let project_root := path_parent config_path in
  let src_dir := path_join project_root "src" in
  let main_cpp := path_join src_dir "main.cpp" in
  let include_dir := path_join project_root "include" in
  io_all
    [ io_unless_exists config_path (io_write_text env config_path example_config);
      io_mkdir env src_dir;
      io_unless_exists main_cpp (io_write_text env main_cpp example_main_cpp);
      io_mkdir env include_dir;
      install_wrapper_scripts env project_root ].

(** ** What a step of [init] leaves in place *)

(** Every node of [fs] is still a node of [fs'], and of the same kind. *)
Definition same_kinds (fs fs' : fsys) : Prop :=
  forall k n, fs !! k = Some n ->
    exists n', fs' !! k = Some n' /\ (n = NDir <-> n' = NDir).

(** Every node of [fs] is in [fs'] as it was, except possibly those stored
    under one of [keys]. *)
Definition kept_outside (keys : list string) (fs fs' : fsys) : Prop :=
  forall k n, fs !! k = Some n -> ~ In k keys -> fs' !! k = Some n.

(** All runs of a step, returning or raising, relate the file system before
    to the one after. *)
Definition io_respects (R : fsys -> fsys -> Prop) (m : IO) : Prop :=
  forall fs r fs', m fs = (r, fs') -> R fs fs'.

(** Once a step has returned, it returns and changes nothing on every file
    system related to the one it left. *)
Definition io_settles (R : fsys -> fsys -> Prop) (m : IO) : Prop :=
  forall fs fs1, m fs = (Some tt, fs1) -> forall fs2, R fs1 fs2 -> m fs2 = (Some tt, fs2).

(** The paths [init] works on. *)
Definition wrapper_dir_of (root : PurePath) : PurePath := path_join root WRAPPER_DIR.
Definition target_script_of (root : PurePath) : PurePath :=
  path_join (wrapper_dir_of root) WRAPPER_SCRIPT_NAME.

(** ** The command line with all its commands ([main]) *)

Inductive cli_command := CliInit | CliBuild | CliForceBuild | CliClean | CliShowConfig.

(** What a run of [main] did. *)
Inductive cli_outcome :=
| ArgsRefused
| HelpPrinted
| RanInit (r : option unit) (fs : gmap string node)
| ConfigRefused (code_or_exn : result unit)
| RanClean (e : option clean_exn) (f : cache_file) (removed : list removal)
| ShowedConfig (raw : forge_toml)
| ShowConfigRaised
| RanBuild (r : result unit) (st : proc).

(** [main] from [config_path = Path(args.config)] on: [init] never looks at
    the configuration; every other command loads it first and builds a
    [ForgeBuilder].  [show-config] prints [json.dumps(config.raw)], which
    raises [TypeError] on a date or time. *)
Definition cli_main (w : world) (o : removal_oracle) (env : init_env)
    (cmd : cli_command) (config_path : string) (cfg : config_file) (jobs : option Z)
    (f : cache_file) (fs : fsys) : cli_outcome :=
  match cmd with
  | CliInit =>
      let r := create_example_project_and_wrapper env (Path config_path) fs in
      RanInit (fst r) (snd r)
  | _ =>
      match from_file cfg with
      | SysExit code => ConfigRefused (SysExit code)
      | Raised e => ConfigRefused (Raised e)
      | Returned config =>
          match cmd with
          | CliClean => let '(e, f', removed) := clean w o config f in RanClean e f' removed
          | CliShowConfig =>
              if t_has_dates (raw config) then ShowConfigRaised else ShowedConfig (raw config)
          | CliBuild => let r := main w cfg CmdBuild jobs (boot f) in RanBuild (fst r) (snd r)
          | _ => let r := main w cfg CmdForceBuild jobs (boot f) in RanBuild (fst r) (snd r)
          end
      end
  end.

(** What [parser.parse_args()] makes of the command line: it ends the
    program with [parser.error] (no command or one that is not among the
    choices, an option that is not known, a [-j] value that [int] does not
    take, a missing option value), it prints the help text and ends the
    program ([-h]), or it returns the command, the configuration path
    (the default when [-c] is not given) and the job count ([None] when
    [-j] is not given). *)
Inductive cli_args :=
| ArgsRejected
| ArgsHelp
| ArgsParsed (cmd : cli_command) (config_path : string) (jobs : option Z).

(** [main], from [parse_args] on. *)
Definition cli_program (w : world) (o : removal_oracle) (env : init_env)
    (args : cli_args) (cfg : config_file) (f : cache_file) (fs : fsys) : cli_outcome :=
  match args with
  | ArgsRejected => ArgsRefused
  | ArgsHelp => HelpPrinted
  | ArgsParsed cmd config_path jobs => cli_main w o env cmd config_path cfg jobs f fs
  end.

(** The exit status of a run of [main]: that of [sys.exit], 2 from
    [parser.error], 1 when an exception leaves [main], else 0. *)
Definition cli_status (out : cli_outcome) : Z :=
  match out with
  | ArgsRefused => 2
  | HelpPrinted => 0
  | RanInit (Some _) _ => 0
  | RanInit None _ => 1
  | ConfigRefused r => exit_status r
  | RanClean None _ _ => 0
  | RanClean (Some _) _ _ => 1
  | ShowedConfig _ => 0
  | ShowConfigRaised => 1
  | RanBuild r _ => exit_status r
  end.

(** The compile tasks of a run of [main]: those the classification loop
    returns, none when the configuration is refused or the loop stops. *)
Definition compile_tasks_of (w : world) (cfg : config_file) (cmd : command)
    (f : cache_file) : list task :=
  match from_file cfg with
  | Returned config =>
      match classify w config (force_of cmd) (_load f) (cpp_sources config) [] [] with
      | Returned (_, tasks) => tasks
      | _ => []
      end
  | _ => []
  end.

(** ** A small project to run the definitions on *)

Module Demo.
Definition doc (sources : list string) : forge_toml :=
  {| t_project := Some "MyProject";
     t_version := Some "0.1.0";
     t_build_profile := Some (TStr "debug");
     t_sources_cpp := Some sources;
     t_compiler_command := Some "clang++";
     t_compiler_flags := Some ["-Wall"; "-std=c++20"];
     t_include_dirs := Some ["include"];
     t_output_dir := Some "build";
     t_binary_name := Some "myproject";
     t_has_dates := false |}.

Definition config (sources : list string) : BuildConfig :=
  {| raw := doc sources;
     project := "MyProject";
     version := "0.1.0";
     profile := {| name := "debug"; flags := ["-O0"; "-g"] |};
     cpp_sources := sources;
     compiler_cmd := "clang++";
     compiler_base_flags := ["-Wall"; "-std=c++20"];
     include_dirs := ["include"];
     output_dir := "build";
     binary_name := "myproject" |}.

(** The source files on disk. *)
Definition files : list (string * string) :=
  [ ("main.cpp", "int main() { return 0; }");
    ("a/x.cpp", "static int a = 1;");
    ("b/x.cpp", "static int b = 2;");
    ("broken.cpp", "int main( {");
    ("legacy/x.cpp", "int x = ;") ].

Fixpoint find_file (p : string) (fs : list (string * string)) : option string :=
  match fs with
  | [] => None
  | (q, c) :: rest => if String.eqb p q then Some c else find_file p rest
  end.

(** A compiler that rejects the texts of [broken.cpp] and [legacy/x.cpp]
    and accepts the rest. *)
Definition compiler (i : nat) (cmd : list string) : spawned :=
  match cmd with
  | _ :: _ :: src :: _ =>
      if String.eqb src "broken.cpp" then Completed 1 "broken.cpp:1:11: error: expected ')'"
      else if String.eqb src "legacy/x.cpp" then Completed 1 "legacy/x.cpp:1:9: error: expected expression"
      else Completed 0 ""
  | _ => Completed 1 "no input files"
  end.

(** The same files after an edit of [a/x.cpp]. *)
Definition files_edited : list (string * string) :=
  [ ("main.cpp", "int main() { return 0; }");
    ("a/x.cpp", "static int a = 3;");
    ("b/x.cpp", "static int b = 2;");
    ("broken.cpp", "int main( {");
    ("legacy/x.cpp", "int x = ;") ].

(** A machine with the given source files under [/proj], on which
    directories can be made, a pool is created for every size that fits a C
    [int] with room for one more, every submission is accepted, no worker is
    lost, jobs complete in submission order and the linker succeeds. *)
Definition machine (fs : list (string * string)) (os : string)
    (write : write_outcome) : world :=
  {| os_name := os;
     os_cpu_count := Some 4%Z;
     fs_exists := fun p => match find_file p fs with Some _ => true | None => false end;
     fs_resolve := fun p => "/proj/" +:+ p;
     fs_read_bytes := fun p => option_map PyStr.encode (find_file p fs);
     fs_mkdir := fun _ => true;
     run_compiler := compiler;
     pool_start := fun n => (n <? 2147483647)%Z;
     pool_submit := fun _ => true;
     pool_lost := fun _ => false;
     pool_as_completed := fun fs => fs;
     run_linker := fun _ => Completed 0 "";
     clock := fun n => (1700000000 + Z.of_nat n)%Z;
     fs_write_cache := fun _ => write |}.

Definition w : world := machine files "posix" Written.

(** The same machine with a cache file that cannot be opened for writing. *)
Definition w_readonly : world := machine files "posix" OpenDenied.

(** The same machine after the edit of [a/x.cpp]. *)
Definition w_edited : world := machine files_edited "posix" Written.

(** The same project on Windows. *)
Definition w_nt : world := machine files "nt" Written.

(** A machine like [w0] with another compiler. *)
Definition with_compiler (c : nat -> list string -> spawned) (w0 : world) : world :=
  {| os_name := os_name w0;
     os_cpu_count := os_cpu_count w0;
     fs_exists := fs_exists w0;
     fs_resolve := fs_resolve w0;
     fs_read_bytes := fs_read_bytes w0;
     fs_mkdir := fs_mkdir w0;
     run_compiler := c;
     pool_start := pool_start w0;
     pool_submit := pool_submit w0;
     pool_lost := pool_lost w0;
     pool_as_completed := pool_as_completed w0;
     run_linker := run_linker w0;
     clock := clock w0;
     fs_write_cache := fs_write_cache w0 |}.

(** A compiler that exits with status 1 after writing diagnostics that are
    no text in the encoding of the locale. *)
Definition w_undecodable : world := with_compiler (fun _ _ => Undecodable 1) w.

(** A checkout in which [init] runs: the script can be read, new files get
    the permission bits 0o644 (420), nothing is refused. *)
Definition env : init_env :=
  {| self_text := "#!/usr/bin/env python3";
     self_mode := 493;
     self_name := "FB2.py";
     self_copy := CopyWhole;
     new_file_mode := 420;
     denied := fun _ => false |}.


(** A directory that holds a configuration file of the user. *)
Definition tree : gmap string node := {[ "forge.toml" := NFile "project = 1" 384 ]}.

End Demo.

(** * Properties *)

(** ** SHA-256 test vectors *)

Example sha256_empty :
  SHA256.hexdigest [] = "e3b0c44298fc1c149afbf4c8996fb92427ae41e4649b934ca495991b7852b855".
Proof. vm_compute. reflexivity. Qed.

Example sha256_abc :
  SHA256.hexdigest (PyStr.encode "abc")
  = "ba7816bf8f01cfea414140de5dae2223b00361a396177a9cb410ff61f20015ad".
Proof. vm_compute. reflexivity. Qed.

Example sha256_two_blocks :
  SHA256.hexdigest (repeat "a"%byte 56)
  = "b35439a4ac6f0948b6d6f9e3c6af0f5f590ce20f1bde7090ef7970686ec6738a".
Proof. vm_compute. reflexivity. Qed.

(** ** Strings and paths *)

Section PathFacts.

Lemma length_str_app (a b : string) :
    String.length (a +:+ b) = String.length a + String.length b.
  Proof. induction a as [|c a IH]; simpl; [reflexivity | now rewrite IH]. Qed.

Lemma has_char_app c (a b : string) :
    has_char c (a +:+ b) = has_char c a || has_char c b.
  Proof.
    induction a as [|x a IH]; simpl; [reflexivity|].
    rewrite IH. now rewrite orb_assoc.
  Qed.

Lemma has_char_substring c (s : string) : forall i k,
    has_char c s = false -> has_char c (substring i k s) = false.
  Proof.
    induction s as [|x s IH]; intros i k H.
    - destruct i, k; reflexivity.
    - simpl in H. apply orb_false_iff in H as [Hx Hs].
      destruct i as [|i].
      + destruct k as [|k]; simpl; [reflexivity|].
        rewrite Hx. simpl. now apply IH.
      + simpl. now apply IH.
  Qed.

Lemma split_not_nil sep s : PyStr.split sep s <> [].
  Proof.
    destruct s as [|a s]; simpl; [discriminate|].
    destruct (Ascii.eqb a sep); [discriminate|].
    destruct (PyStr.split sep s); discriminate.
  Qed.

Lemma split_no_sep sep s :
    Forall (fun c => has_char sep c = false) (PyStr.split sep s).
  Proof.
    induction s as [|a s IH]; simpl.
    - repeat constructor.
    - destruct (Ascii.eqb a sep) eqn:E.
      + constructor; [reflexivity | exact IH].
      + destruct (PyStr.split sep s) as [|h t]; inversion IH; subst.
        * repeat constructor. simpl. now rewrite E.
        * constructor; [|assumption]. simpl. rewrite E. assumption.
  Qed.

  (** A string without the separator is a single field. *)
Lemma split_plain sep x : has_char sep x = false -> PyStr.split sep x = [x].
  Proof.
    induction x as [|a x IH]; simpl; intros H; [reflexivity|].
    apply orb_false_iff in H as [Ha Hx]. rewrite Ha, (IH Hx). reflexivity.
  Qed.

Lemma split_app sep x s :
    has_char sep x = false ->
    PyStr.split sep (x +:+ String sep s) = x :: PyStr.split sep s.
  Proof.
    induction x as [|a x IH]; simpl; intros H.
    - now rewrite Ascii.eqb_refl.
    - apply orb_false_iff in H as [Ha Hx]. rewrite Ha, (IH Hx). reflexivity.
  Qed.

Lemma split_join ps :
    Forall (fun c => has_char "/" c = false) ps -> ps <> [] ->
    PyStr.split "/" (PyStr.join "/" ps) = ps.
  Proof.
    induction ps as [|x ps IH]; intros HF Hne; [congruence|].
    inversion HF as [|? ? Hx Hps]; subst.
    destruct ps as [|y ps].
    - simpl. now apply split_plain.
    - change (PyStr.join "/" (x :: y :: ps)) with (x +:+ String "/" (PyStr.join "/" (y :: ps))).
      rewrite split_app by assumption. f_equal. apply IH; [assumption | discriminate].
  Qed.

Lemma filter_components ps :
    Forall plain_component ps -> List.filter is_component ps = ps.
  Proof.
    induction 1 as [|x ps [Hx _] _ IH]; simpl; [reflexivity|].
    now rewrite Hx, IH.
  Qed.

Lemma plain_no_sep ps :
    Forall plain_component ps -> Forall (fun c => has_char "/" c = false) ps.
  Proof. induction 1 as [|x l [_ H] _ IH]; constructor; assumption. Qed.

Lemma plain_leading x : plain_component x -> leading "/" x = 0.
  Proof.
    intros [Hc Hs]. destruct x as [|a x]; [reflexivity|].
    simpl in *. apply orb_false_iff in Hs as [Ha _]. now rewrite Ha.
  Qed.

Lemma join_leading ps :
    Forall plain_component ps -> leading "/" (PyStr.join "/" ps) = 0.
  Proof.
    intros HF. destruct ps as [|x ps]; [reflexivity|].
    inversion HF as [|? ? Hx Hps]; subst.
    pose proof (plain_leading x Hx) as Hl.
    destruct ps as [|y ps]; [exact Hl|].
    change (PyStr.join "/" (x :: y :: ps)) with (x +:+ String "/" (PyStr.join "/" (y :: ps))).
    destruct Hx as [Hc Hs]. destruct x as [|a x]; [discriminate Hc|].
    simpl in *. apply orb_false_iff in Hs as [Ha _]. now rewrite Ha.
  Qed.

  (** [Path(s)] is made of plain components. *)
Lemma Path_wf s : wf_path (Path s).
  Proof.
    split.
    - unfold Path, splitroot; simpl.
      destruct (leading "/" s) as [|[|[|n]]]; auto.
    - unfold Path; simpl. apply List.Forall_forall. intros c Hc.
      apply filter_In in Hc as [Hin Hcomp].
      split; [assumption|].
      pose proof (split_no_sep "/" s) as HF.
      rewrite List.Forall_forall in HF. now apply HF.
  Qed.

Lemma path_str_cons r x ps :
    path_str (mkPath r (x :: ps)) = r +:+ PyStr.join "/" (x :: ps).
  Proof. destruct r; reflexivity. Qed.

  (** [Path(str(p)) == p]. *)
Lemma Path_str_roundtrip p : wf_path p -> Path (path_str p) = p.
  Proof.
    destruct p as [r ps]. intros [Hr HF]; simpl in *.
    destruct ps as [|x ps].
    - destruct Hr as [-> | [-> | ->]]; reflexivity.
    - pose proof (join_leading _ HF) as Hl.
      pose proof (split_join _ (plain_no_sep _ HF) ltac:(discriminate)) as Hs.
      pose proof (filter_components _ HF) as Hf.
      rewrite path_str_cons.
      set (j := PyStr.join "/" (x :: ps)) in *.
      destruct Hr as [-> | [-> | ->]]; unfold Path, splitroot.
      + change ("" +:+ j) with j. rewrite Hl, Hs, Hf. reflexivity.
      + change ("/" +:+ j) with (String "/" j).
        change (leading "/" (String "/" j)) with (S (leading "/" j)).
        change (PyStr.split "/" (String "/" j)) with ("" :: PyStr.split "/" j).
        rewrite Hl, Hs.
        change (List.filter is_component ("" :: x :: ps))
          with (List.filter is_component (x :: ps)).
        rewrite Hf. reflexivity.
      + change ("//" +:+ j) with (String "/" (String "/" j)).
        change (leading "/" (String "/" (String "/" j))) with (S (S (leading "/" j))).
        change (PyStr.split "/" (String "/" (String "/" j)))
          with ("" :: "" :: PyStr.split "/" j).
        rewrite Hl, Hs.
        change (List.filter is_component ("" :: "" :: x :: ps))
          with (List.filter is_component (x :: ps)).
        rewrite Hf. reflexivity.
  Qed.

Lemma path_str_inj p q : wf_path p -> wf_path q -> path_str p = path_str q -> p = q.
  Proof.
    intros Hp Hq E. rewrite <- (Path_str_roundtrip p Hp), <- (Path_str_roundtrip q Hq).
    now rewrite E.
  Qed.

  (** Normalising twice is normalising once. *)
Lemma path_str_idem s : path_str (Path (path_str (Path s))) = path_str (Path s).
  Proof. now rewrite (Path_str_roundtrip _ (Path_wf s)). Qed.

End PathFacts.

(** ** Object names and object paths *)

Section ObjectPaths.

Lemma last_In {A} (l : list A) (d : A) : l <> [] -> In (List.last l d) l.
  Proof.
    induction l as [|x l IH]; [congruence|]. intros _.
    destruct l as [|y l]; [now left|].
    right. apply IH. discriminate.
  Qed.

  (** The name [with_suffix] computes is a plain component. *)
Lemma with_suffix_name_plain p suffix n :
    wf_path p -> has_char "/" suffix = false -> 2 <= String.length suffix ->
    with_suffix_name p suffix = Some n -> plain_component n.
  Proof.
    intros [_ HF] Hsuf Hlen. unfold with_suffix_name.
    destruct (String.eqb (path_name p) "") eqn:E; [discriminate|].
    intros [= <-].
    apply String.eqb_neq in E.
    assert (Hin : In (path_name p) (p_parts p)).
    { unfold path_name in *. apply last_In. intros Hnil. rewrite Hnil in E. now apply E. }
    rewrite List.Forall_forall in HF. destruct (HF _ Hin) as [_ Hns].
    set (stem := substring 0 _ _).
    assert (Hl : 2 <= String.length (stem +:+ suffix)) by (rewrite length_str_app; lia).
    split.
    - unfold is_component. apply andb_true_iff; split; apply negb_true_iff, String.eqb_neq;
        intros Heq; rewrite Heq in Hl; simpl in Hl; lia.
    - rewrite has_char_app, Hsuf. unfold stem.
      now rewrite (has_char_substring _ _ _ _ Hns).
  Qed.

Lemma Path_plain n : plain_component n -> Path n = mkPath "" [n].
  Proof.
    intros Hn. unfold Path, splitroot.
    rewrite (plain_leading n Hn). destruct Hn as [Hc Hs].
    rewrite (split_plain _ _ Hs). simpl. now rewrite Hc.
  Qed.

  (** Joining a plain name appends one component. *)
Lemma path_join_plain p n :
    plain_component n -> path_join p n = mkPath (p_root p) (p_parts p ++ [n]).
  Proof. intros Hn. unfold path_join. now rewrite (Path_plain n Hn). Qed.

Lemma path_join_wf p n : wf_path p -> plain_component n -> wf_path (path_join p n).
  Proof.
    intros [Hr HF] Hn. rewrite (path_join_plain p n Hn). split; simpl; [assumption|].
    apply Forall_app; split; [assumption | now constructor].
  Qed.

Lemma dot_o_plain : has_char "/" ".o" = false /\ 2 <= String.length ".o".
  Proof. split; [reflexivity | simpl; lia]. Qed.

Lemma unit_object_wf config s o : unit_object config s = Some o -> wf_path o.
  Proof.
    unfold unit_object. destruct (with_suffix_name (Path s) ".o") as [n|] eqn:E; [|discriminate].
    intros [= <-]. apply path_join_wf; [apply Path_wf|].
    destruct dot_o_plain. eapply with_suffix_name_plain; eauto using Path_wf.
  Qed.

  (** The strings of a task are in pathlib's normal form: [Path] and [str]
      give them back unchanged. *)
Lemma unit_task_normal w config s t :
    unit_task w config s = Some t ->
    path_str (Path (task_src t)) = task_src t /\ path_str (Path (task_obj t)) = task_obj t.
  Proof.
    unfold unit_task. destruct (unit_object config s) as [o|] eqn:Eo; [|discriminate].
    destruct (unit_fingerprint w config s); [|discriminate].
    intros [= <-]; simpl. split; [apply path_str_idem|].
    now rewrite (Path_str_roundtrip o (unit_object_wf _ _ _ Eo)).
  Qed.

End ObjectPaths.

(** C9, as the code has it.  Two sources are given the same object path
    exactly when their file names agree once the suffix is replaced by
    [.o]; the directories of the sources play no part. *)
Theorem object_path_determined_by_name config s1 s2 o1 o2 :
  unit_object config s1 = Some o1 ->
  unit_object config s2 = Some o2 ->
  (path_str o1 = path_str o2
   <-> with_suffix_name (Path s1) ".o" = with_suffix_name (Path s2) ".o").
Proof.
  intros H1 H2.
  pose proof (unit_object_wf _ _ _ H1) as W1.
  pose proof (unit_object_wf _ _ _ H2) as W2.
  unfold unit_object in *.
  destruct (with_suffix_name (Path s1) ".o") as [n1|] eqn:E1; [|discriminate].
  destruct (with_suffix_name (Path s2) ".o") as [n2|] eqn:E2; [|discriminate].
  injection H1 as <-. injection H2 as <-.
  destruct dot_o_plain as [Hs Hl].
  pose proof (with_suffix_name_plain _ _ _ (Path_wf s1) Hs Hl E1) as P1.
  pose proof (with_suffix_name_plain _ _ _ (Path_wf s2) Hs Hl E2) as P2.
  split.
  - intros E. apply path_str_inj in E; [|assumption..].
    rewrite (path_join_plain _ _ P1), (path_join_plain _ _ P2) in E.
    injection E as E. apply app_inj_tail in E as [_ ->]. reflexivity.
  - intros [= ->]. reflexivity.
Qed.

Lemma object_path_determined_by_name_witness :
  let config := Demo.config ["a/x.cpp"; "b/x.cpp"] in
  let o := path_join (Path "build") "x.o" in
  unit_object config "a/x.cpp" = Some o
  /\ unit_object config "b/x.cpp" = Some o
  /\ (path_str o = path_str o
      <-> with_suffix_name (Path "a/x.cpp") ".o" = with_suffix_name (Path "b/x.cpp") ".o").
Proof.
  intros config o.
  split; [reflexivity|]. split; [reflexivity|].
  apply (object_path_determined_by_name config "a/x.cpp" "b/x.cpp"); reflexivity.
Defined.

(** C9, as stated, fails: two distinct sources of one source list are
    classified with the same object path. *)
Lemma distinct_sources_share_object :
  "a/x.cpp" <> "b/x.cpp"
  /\ match classify Demo.w (Demo.config ["a/x.cpp"; "b/x.cpp"]) false ∅
             ["a/x.cpp"; "b/x.cpp"] [] [] with
     | Returned (obj_files, compile_tasks) =>
         map path_str obj_files = ["build/x.o"; "build/x.o"]
         /\ map task_src compile_tasks = ["a/x.cpp"; "b/x.cpp"]
         /\ map task_obj compile_tasks = ["build/x.o"; "build/x.o"]
     | _ => False
     end.
Proof. split; [discriminate | vm_compute; auto]. Qed.

(** ** The compile worker *)

Lemma include_args (incs : list string) (cmd : list string) :
  fold_left (fun cmd inc => cmd ++ ["-I" +:+ inc]) incs cmd
  = cmd ++ map (fun inc => "-I" +:+ inc) incs.
Proof.
  revert cmd. induction incs as [|inc incs IH]; intros cmd; simpl.
  - now rewrite app_nil_r.
  - rewrite IH, <- app_assoc. reflexivity.
Qed.



(** C5, as stated, fails.  The compiler exits with status 1 and writes
    diagnostics that are no text in the encoding of the locale:
    [subprocess.run], called with [text=True], raises when it decodes them,
    and so does the worker, on a non-zero exit; the scheduler finds an
    exception in the future of the job and no triple. *)
Lemma compiler_daemon_raises_on_failed_compile :
  let cmd := ["clang++"; "-c"; "broken.cpp"; "-o"; "build/broken.o";
              "-Iinclude"; "-Wall"; "-std=c++20"; "-O0"; "-g"] in
  run_compiler Demo.w_undecodable 0 cmd = Undecodable 1
  /\ compiler_daemon Demo.w_undecodable 0 "clang++" ["-Wall"; "-std=c++20"] ["-O0"; "-g"]
       ["include"] "broken.cpp" "build/broken.o"
     = ([EvMkdir "build"; EvCompilerRun 0 cmd], Crashed SpawnFailed)
  /\ (forall returncode stderr,
        snd (compiler_daemon Demo.w_undecodable 0 "clang++" ["-Wall"; "-std=c++20"]
               ["-O0"; "-g"] ["include"] "broken.cpp" "build/broken.o")
        <> Done "broken.cpp" returncode stderr).
Proof. intros cmd. repeat split; discriminate. Qed.

(** The command holds the paths as pathlib prints them, the returned triple
    the source as it was given. *)
Example compiler_daemon_normalises_paths :
  compiler_daemon Demo.w 0 "clang++" [] [] [] "./src//main.cpp" "build/./main.o"
  = ([EvMkdir "build"; EvCompilerRun 0 ["clang++"; "-c"; "src/main.cpp"; "-o"; "build/main.o"]],
     Done "./src//main.cpp" 0 "").
Proof. reflexivity. Qed.

(** The worker never answers with anything but a returned triple or one of
    the two exceptions of its two system calls. *)
Lemma compiler_daemon_results w job cc base_flags profile_flags incs source obj_path :
  match snd (compiler_daemon w job cc base_flags profile_flags incs source obj_path) with
  | Done src _ _ => src = source
  | Crashed e => e = MkdirFailed \/ e = SpawnFailed
  end.
Proof.
  unfold compiler_daemon. destruct (fs_mkdir w _); simpl; [|now left].
  destruct (run_compiler w job _); simpl; [reflexivity | now right | now right].
Qed.

(** ** Configuration *)

(** C10.  Loading a configuration document either stops because the source
    list is empty or absent, whatever the profile, or returns a
    configuration whose profile is the release preset when the configured
    name is the string "release" and the debug preset, under the name
    "debug", for every other value; it never raises. *)
Theorem profile_fallback doc :
  match from_file (ConfigDoc doc) with
  | Returned config =>
      (t_build_profile doc = Some (TStr "release")
       /\ profile config = {| name := "release"; flags := ["-O3"; "-DNDEBUG"] |})
      \/ (t_build_profile doc <> Some (TStr "release")
          /\ profile config = {| name := "debug"; flags := ["-O0"; "-g"] |})
  | SysExit code => code = 1%Z /\ get_or (t_sources_cpp doc) [] = []
  | Raised _ => False
  end.
Proof.
  unfold from_file.
  destruct (get_or (t_sources_cpp doc) []) as [|s rest] eqn:Es; [now split|].
  cbn [profile].
  destruct (t_build_profile doc) as [v|] eqn:Ep; simpl.
  - destruct v as [nm|n|b|items]; simpl; try (right; split; [discriminate | reflexivity]).
    destruct (String.eqb nm "release") eqn:E.
    + apply String.eqb_eq in E as ->. left. now split.
    + apply String.eqb_neq in E. right. split; [congruence | reflexivity].
  - right. split; [discriminate | reflexivity].
Qed.

(** ** Loading the cache store *)


(** ** The fingerprint *)

Section Fingerprint.

Lemma update_all_flat (h : hasher) (l : list string) :
    update_all h l = h ++ flat_map PyStr.encode l.
  Proof.
    unfold update_all, h_update. revert h.
    induction l as [|s l IH]; intros h; simpl.
    - now rewrite app_nil_r.
    - rewrite IH, <- app_assoc. reflexivity.
  Qed.

  (** The hash is taken of the plain concatenation of the five inputs. *)
Lemma hash_input_flat resolved contents base_flags profile_flags incs :
    hash_input resolved contents base_flags profile_flags incs
    = PyStr.encode resolved ++ contents ++ flat_map PyStr.encode base_flags
      ++ flat_map PyStr.encode profile_flags ++ flat_map PyStr.encode incs.
  Proof.
    unfold hash_input. rewrite !update_all_flat. unfold h_update, sha256_new.
    simpl. now rewrite <- !app_assoc.
  Qed.

Lemma encode_inj a b : PyStr.encode a = PyStr.encode b -> a = b.
  Proof.
    unfold PyStr.encode. intros E.
    rewrite <- (string_of_list_byte_of_string a), <- (string_of_list_byte_of_string b).
    now rewrite E.
  Qed.

  (** Replacing one base flag by a different one changes the hashed bytes. *)
Lemma hash_input_one_base_flag resolved contents pre post f f' profile_flags incs :
    f <> f' ->
    hash_input resolved contents (pre ++ f :: post) profile_flags incs
    <> hash_input resolved contents (pre ++ f' :: post) profile_flags incs.
  Proof.
    intros Hne E. rewrite !hash_input_flat in E.
    do 2 apply app_inv_head in E.
    rewrite !flat_map_app in E. simpl in E. rewrite <- !app_assoc in E.
    apply app_inv_head in E. rewrite !app_assoc in E.
    do 3 apply app_inv_tail in E.
    now apply encode_inj in E.
  Qed.

  (** Replacing the file contents changes the hashed bytes. *)
Lemma hash_input_contents resolved c c' base_flags profile_flags incs :
    c <> c' ->
    hash_input resolved c base_flags profile_flags incs
    <> hash_input resolved c' base_flags profile_flags incs.
  Proof.
    intros Hne E. rewrite !hash_input_flat in E.
    apply app_inv_head in E. now apply app_inv_tail in E.
  Qed.

End Fingerprint.

(** C1 at a failing input.  Swapping the include directories "inc" and
    "incinc" changes the include-directory list, and with it the compiler
    command, but not the fingerprint: for every source file and every flag
    list the two orders are hashed to the same digest, because the strings
    are fed to the hash without a separator. *)
Theorem hash_source_include_order_collision w source_path base_flags profile_flags :
  ["inc"; "incinc"] <> ["incinc"; "inc"]
  /\ hash_source w source_path base_flags profile_flags ["inc"; "incinc"]
     = hash_source w source_path base_flags profile_flags ["incinc"; "inc"].
Proof.
  split; [discriminate|].
  unfold hash_source. destruct (fs_read_bytes w _); [|reflexivity].
  now rewrite !hash_input_flat.
Qed.

(** The same at the flag lists: the boundary between two flags is not part
    of the fingerprint. *)
Lemma hash_source_flag_boundary_collision w source_path profile_flags incs :
  hash_source w source_path ["-DMODE"; "=1"] profile_flags incs
  = hash_source w source_path ["-DMODE=1"] profile_flags incs.
Proof.
  unfold hash_source. destruct (fs_read_bytes w _); [|reflexivity].
  now rewrite !hash_input_flat.
Qed.

(** On the demo project: one digest for the two include orders. *)
Example include_order_same_digest :
  hash_source Demo.w (Path "main.cpp") ["-Wall"] ["-O0"; "-g"] ["inc"; "incinc"]
  = Returned "1d33ee3021f9affb09624ed2d8678f7b626dda6f067b988a3de6c63cd776eaa0"
  /\ hash_source Demo.w (Path "main.cpp") ["-Wall"] ["-O0"; "-g"] ["incinc"; "inc"]
     = Returned "1d33ee3021f9affb09624ed2d8678f7b626dda6f067b988a3de6c63cd776eaa0".
Proof. split; vm_compute; reflexivity. Qed.

(** ** The stages of a build *)

Section Stages.

Variable w : world.
Variable config : BuildConfig.

(** Every run of [build] is one of the ways of [build_run]. *)
Lemma build_run_intro force_rebuild jobs st r st' :
  build w config force_rebuild jobs st = (r, st') ->
  build_run w config force_rebuild jobs st r st'.
Proof.
  unfold build, bind, mkdir. intros H.
  destruct (fs_mkdir w (path_str (Path (output_dir config)))) eqn:Hmk.
  2:{ injection H as <- <-. now apply run_mkdir_failed. }
  cbn [data log_events] in H.
  destruct (classify w config force_rebuild (data st) (cpp_sources config) [] [])
    as [[obj_files tasks]|code|e] eqn:Hcl.
  - change (match tasks with
            | [] => ret tt
            | _ :: _ => _run_parallel_compilers w config tasks jobs
            end) with (compile_stage w config tasks jobs) in H.
    destruct (compile_stage w config tasks jobs _) as [r1 st1] eqn:Hc.
    destruct r1 as [[]|code|e].
    + destruct (_link w config obj_files st1) as [r2 st2] eqn:Hl.
      destruct r2 as [[]|code|e].
      * eapply run_persist; eauto.
      * injection H as <- <-. eapply run_link_abort; eauto; discriminate.
      * injection H as <- <-. eapply run_link_abort; eauto; discriminate.
    + injection H as <- <-. eapply run_compile_abort; eauto; discriminate.
    + injection H as <- <-. eapply run_compile_abort; eauto; discriminate.
  - injection H as <- <-. now apply run_config_error.
  - injection H as <- <-. now apply run_fingerprint_error.
Qed.

(** [save]: one write attempt; the file changes as the storage answers. *)
Lemma save_stage st r st' :
  save w st = (r, st') ->
  data st' = data st
  /\ trace st' = trace st ++ [EvCacheWrite (data st)]
  /\ match fs_write_cache w (data st) with
     | Written => r = Returned tt /\ disk st' = Stored (data st)
     | OpenDenied => r = Raised CacheWriteFailed /\ disk st' = disk st
     | WriteInterrupted => r = Raised CacheWriteFailed /\ disk st' = Unparsable
     end.
Proof.
  unfold save. destruct (fs_write_cache w (data st)); intros [= <- <-]; simpl; auto.
Qed.

(** [_link]: at most one linker run, the cache untouched. *)
Lemma link_stage obj_files st r st' :
  _link w config obj_files st = (r, st') ->
  data st' = data st /\ disk st' = disk st
  /\ ((obj_files = [] /\ r = Returned tt /\ trace st' = trace st)
      \/ exists cmd,
           trace st' = trace st ++ [EvLinkerRun cmd]
           /\ r = match run_linker w cmd with
                  | Completed returncode _ =>
                      if (returncode =? 0)%Z then Returned tt else SysExit 1
                  | _ => Raised SpawnFailed
                  end).
Proof.
  unfold _link. destruct obj_files as [|o rest].
  - intros [= <- <-]. split; [reflexivity|]. split; [reflexivity|]. left. auto.
  - unfold bind, emit. cbn [log_events].
    set (cmd := (((([compiler_cmd config] ++ _) ++ _) ++ _) ++ _)).
    intros H. 
    assert (E : (r, st') = (match run_linker w cmd with
                  | Completed returncode _ =>
                      if (returncode =? 0)%Z then Returned tt else SysExit 1
                  | _ => Raised SpawnFailed
                  end, log_events [EvLinkerRun cmd] st)).
    { rewrite <- H. destruct (run_linker w cmd) as [rc err| |rc]; try reflexivity.
      destruct (rc =? 0)%Z; reflexivity. }
    injection E as -> ->. simpl. split; [reflexivity|]. split; [reflexivity|].
    right. exists cmd. auto.
Qed.

End Stages.

(** ** The completion loop of the scheduler *)

Section CompletionLoop.

Variable w : world.

Lemma collect_step st errors fu :
  collect w (st, errors) fu = (collected w st fu, errors || negb (fut_ok fu)).
Proof.
  unfold collect, collected, fut_trace, fut_ok, log_events, tick, set_data; simpl.
  destruct (fut_result fu) as [src rc err|e]; simpl.
  - destruct (rc =? 0)%Z; simpl; rewrite <- app_assoc; [now rewrite orb_false_r | now rewrite orb_true_r].
  - rewrite <- app_assoc. now rewrite orb_true_r.
Qed.

(** The loop leaves the cache file alone, appends the trace of every
    future it is given, and raises the flag when one of them failed. *)
Lemma collect_fold fs : forall st errors st' errors',
  fold_left (collect w) fs (st, errors) = (st', errors') ->
  disk st' = disk st
  /\ trace st' = trace st ++ flat_map fut_trace fs
  /\ errors' = errors || negb (forallb fut_ok fs).
Proof.
  induction fs as [|fu fs IH]; intros st errors st' errors' H; simpl in H.
  - injection H as <- <-. simpl. rewrite app_nil_r, orb_false_r. auto.
  - rewrite collect_step in H. apply IH in H as (Hd & Ht & He).
    split; [|split].
    + rewrite Hd. unfold collected. now destruct (fut_ok fu).
    + rewrite Ht. simpl. rewrite app_assoc. f_equal.
      unfold collected. now destruct (fut_ok fu).
    + rewrite He. simpl. destruct (fut_ok fu); simpl.
      * now rewrite orb_false_r.
      * now rewrite orb_true_r.
Qed.

Lemma stored_hash_update d obj h now :
  exists e, update_entry d obj h now !! path_str obj = Some e /\ stored_hash e = Some h.
Proof.
  unfold update_entry. eexists. split; [apply lookup_insert_eq|].
  unfold stored_hash. now rewrite lookup_insert_eq.
Qed.

(** What the loop leaves under a key: the old entry when no succeeded
    future has that key, else an entry with the fingerprint of a succeeded
    future that has it. *)
Lemma collect_fold_data fs : forall st errors st' errors' (k : string),
  fold_left (collect w) fs (st, errors) = (st', errors') ->
  ((forall fu, In fu fs -> fut_ok fu = true -> task_key (fut_task fu) <> k)
   /\ data st' !! k = data st !! k)
  \/ (exists fu e, In fu fs /\ fut_ok fu = true /\ task_key (fut_task fu) = k
                  /\ data st' !! k = Some e
                  /\ stored_hash e = Some (task_hash (fut_task fu))).
Proof.
  induction fs as [|fu fs IH]; intros st errors st' errors' k H; simpl in H.
  - injection H as <- <-. left. split; [intros fu []| reflexivity].
  - rewrite collect_step in H.
    destruct (IH _ _ _ _ k H) as [[Hnone Hsame] | (fu' & e & Hin & Hok & Hk & Hl & Hh)].
    2:{ right. exists fu', e. simpl. auto 10. }
    unfold collected in Hsame.
    destruct (fut_ok fu) eqn:Hok; simpl in Hsame.
    + destruct (String.eqb (task_key (fut_task fu)) k) eqn:Ek.
      * apply String.eqb_eq in Ek. right.
        destruct (stored_hash_update (data st) (Path (task_obj (fut_task fu)))
                    (task_hash (fut_task fu)) (clock w (ticks st))) as (e & He & Hh).
        exists fu, e. split; [now left|]. split; [assumption|]. split; [assumption|].
        split; [|assumption]. rewrite Hsame, <- Ek. exact He.
      * apply String.eqb_neq in Ek. left. split.
        -- intros fu' [<- | Hin] Hok'; [assumption | now apply Hnone].
        -- rewrite Hsame. unfold update_entry. now rewrite lookup_insert_ne.
    + left. split; [|assumption].
      intros fu' [<- | Hin] Hok'; [congruence | now apply Hnone].
Qed.

End CompletionLoop.

(** ** The compile stage *)

Section CompileStage.

Variable w : world.
Variable config : BuildConfig.

Lemma submit_all_tasks tasks : forall i,
  map fut_task (submit_all w config i tasks) = tasks.
Proof.
  induction tasks as [|t tasks IH]; intros i; simpl; [reflexivity|].
  rewrite IH. unfold submit. now destruct (pool_lost w i).
Qed.

Lemma submit_all_jobs tasks : forall i,
  map fut_job (submit_all w config i tasks) = seq i (length tasks).
Proof.
  induction tasks as [|t tasks IH]; intros i; simpl; [reflexivity|].
  rewrite IH. unfold submit. now destruct (pool_lost w i).
Qed.

Lemma submit_worker i t : worker_future (submit w config i t).
Proof.
  unfold worker_future, submit. destruct (pool_lost w i); [reflexivity|].
  simpl. unfold compiler_daemon.
  destruct (fs_mkdir w _); [|reflexivity].
  destruct (run_compiler w i _); reflexivity.
Qed.


(** The comprehension hands out the futures of the tasks accepted before
    the first refusal, and gets through when that is all of them. *)
Lemma submit_each_spec tasks : forall j,
  submit_each w config j tasks
  = (submit_all w config j (firstn (accepted w j (length tasks)) tasks),
     (accepted w j (length tasks) =? length tasks)%nat).
Proof.
  induction tasks as [|t tasks IH]; intros j; simpl; [reflexivity|].
  destruct (pool_submit w j); [|reflexivity].
  rewrite IH. reflexivity.
Qed.

Lemma firstn_whole {A} (l : list A) n : n = length l -> firstn n l = l.
Proof. intros ->. apply firstn_all. Qed.

Lemma submit_all_workers tasks : forall i,
  List.Forall worker_future (submit_all w config i tasks).
Proof.
  induction tasks as [|t tasks IH]; intros i; simpl; constructor;
    [apply submit_worker | apply IH].
Qed.

(** A reading that ignores worker events sees, in the trace of the
    completion loop, only the collection of each future. *)
Lemma reading_workers {X} (f : event -> list X) evs :
  (forall ev, worker_event ev = true -> f ev = []) ->
  forallb worker_event evs = true -> flat_map f evs = [].
Proof.
  intros Hf. induction evs as [|ev evs IH]; simpl; [reflexivity|].
  intros H. apply andb_true_iff in H as [Hev Hevs].
  now rewrite (Hf ev Hev), IH.
Qed.

Lemma reading_fut_traces {X} (f : event -> list X) done :
  (forall ev, worker_event ev = true -> f ev = []) ->
  List.Forall worker_future done ->
  flat_map f (flat_map fut_trace done)
  = flat_map (fun fu => f (EvCollected (fut_job fu) (fut_task fu) (fut_ok fu))) done.
Proof.
  intros Hf. induction 1 as [|fu done Hfu _ IH]; simpl; [reflexivity|].
  rewrite flat_map_app, IH. unfold fut_trace at 1. rewrite flat_map_app.
  rewrite (reading_workers f _ Hf Hfu). simpl. now rewrite app_nil_r.
Qed.

Lemma flat_map_single {A B} (g : A -> B) l : flat_map (fun x => [g x]) l = map g l.
Proof. induction l as [|x l IH]; simpl; [reflexivity | now rewrite IH]. Qed.

Lemma flat_map_filter {A B} (p : A -> bool) (g : A -> B) l :
  flat_map (fun x => if p x then [g x] else []) l = map g (List.filter p l).
Proof.
  induction l as [|x l IH]; simpl; [reflexivity|].
  destruct (p x); simpl; now rewrite IH.
Qed.

Lemma flat_map_nil {A B} (l : list A) : flat_map (fun _ => @nil B) l = [].
Proof. induction l; simpl; auto. Qed.

Lemma submit_events_submitted (fs : list future) :
  flat_map (fun ev => match ev with EvSubmit _ t => [t] | _ => [] end)
    (map (fun fu => EvSubmit (fut_job fu) (fut_task fu)) fs) = map fut_task fs.
Proof. induction fs as [|fu fs IH]; simpl; [reflexivity | now rewrite IH]. Qed.

Lemma submit_events_jobs (fs : list future) :
  flat_map (fun ev => match ev with EvSubmit j _ => [j] | _ => [] end)
    (map (fun fu => EvSubmit (fut_job fu) (fut_task fu)) fs) = map fut_job fs.
Proof. induction fs as [|fu fs IH]; simpl; [reflexivity | now rewrite IH]. Qed.

Lemma submit_events_other {X} (f : event -> list X) (fs : list future) :
  (forall j t, f (EvSubmit j t) = []) ->
  flat_map f (map (fun fu => EvSubmit (fut_job fu) (fut_task fu)) fs) = [].
Proof. intros Hf. induction fs as [|fu fs IH]; simpl; [reflexivity | now rewrite Hf, IH]. Qed.

Lemma done_workers tasks done :
  Permutation done (submit_all w config 0 tasks) -> List.Forall worker_future done.
Proof.
  intros Hperm. apply List.Forall_forall. intros fu Hin.
  pose proof (submit_all_workers tasks 0) as HF. rewrite List.Forall_forall in HF.
  apply HF. eapply Permutation_in; eauto.
Qed.

(** A reading of the trace of the compile stage: what it sees of the
    submissions, then what it sees of the collections. *)
Lemma compile_trace_reading {X} (f : event -> list X) tasks jobs done :
  Permutation done (submit_all w config 0 tasks) ->
  (forall ev, worker_event ev = true -> f ev = []) ->
  (forall n, f (EvPool n) = []) ->
  flat_map f (compile_trace w config tasks jobs done)
  = flat_map (fun fu => f (EvSubmit (fut_job fu) (fut_task fu))) (submit_all w config 0 tasks)
    ++ flat_map (fun fu => f (EvCollected (fut_job fu) (fut_task fu) (fut_ok fu))) done.
Proof.
  intros Hperm Hw Hp. unfold compile_trace. destruct tasks as [|t ts] eqn:E.
  - simpl in Hperm. apply Permutation_sym, Permutation_nil in Hperm. now subst.
  - rewrite <- E in *. cbn [flat_map]. rewrite Hp, flat_map_app. simpl.
    rewrite (reading_fut_traces f done Hw (done_workers _ _ Hperm)).
    f_equal. clear. induction (submit_all w config 0 tasks) as [|fu fs IH]; simpl;
      [reflexivity | now rewrite IH].
Qed.

Lemma compile_trace_submitted tasks jobs done :
  Permutation done (submit_all w config 0 tasks) ->
  submitted (compile_trace w config tasks jobs done) = tasks.
Proof.
  intros Hperm. unfold submitted.
  rewrite (compile_trace_reading _ _ _ _ Hperm) by (now intros []).
  rewrite flat_map_nil, app_nil_r, flat_map_single. apply submit_all_tasks.
Qed.

Lemma compile_trace_submitted_jobs tasks jobs done :
  Permutation done (submit_all w config 0 tasks) ->
  submitted_jobs (compile_trace w config tasks jobs done) = seq 0 (length tasks).
Proof.
  intros Hperm. unfold submitted_jobs.
  rewrite (compile_trace_reading _ _ _ _ Hperm) by (now intros []).
  rewrite flat_map_nil, app_nil_r, flat_map_single. apply submit_all_jobs.
Qed.

Lemma compile_trace_collected_jobs tasks jobs done :
  Permutation done (submit_all w config 0 tasks) ->
  collected_jobs (compile_trace w config tasks jobs done) = map fut_job done.
Proof.
  intros Hperm. unfold collected_jobs.
  rewrite (compile_trace_reading _ _ _ _ Hperm) by (now intros []).
  rewrite flat_map_nil. simpl. apply flat_map_single.
Qed.

Lemma compile_trace_succeeded tasks jobs done :
  Permutation done (submit_all w config 0 tasks) ->
  succeeded (compile_trace w config tasks jobs done)
  = map fut_task (List.filter fut_ok done).
Proof.
  intros Hperm. unfold succeeded.
  rewrite (compile_trace_reading _ _ _ _ Hperm) by (now intros []).
  rewrite flat_map_nil. simpl. apply flat_map_filter.
Qed.

Lemma compile_trace_failed tasks jobs done :
  Permutation done (submit_all w config 0 tasks) ->
  failed (compile_trace w config tasks jobs done)
  = map fut_task (List.filter (fun fu => negb (fut_ok fu)) done).
Proof.
  intros Hperm. unfold failed.
  rewrite (compile_trace_reading _ _ _ _ Hperm) by (now intros []).
  rewrite flat_map_nil. simpl. rewrite <- flat_map_filter.
  apply flat_map_ext. intros fu. now destruct (fut_ok fu).
Qed.

Lemma compile_trace_linker_runs tasks jobs done :
  Permutation done (submit_all w config 0 tasks) ->
  linker_runs (compile_trace w config tasks jobs done) = [].
Proof.
  intros Hperm. unfold linker_runs.
  rewrite (compile_trace_reading _ _ _ _ Hperm) by (now intros []).
  now rewrite !flat_map_nil.
Qed.

Lemma compile_trace_cache_writes tasks jobs done :
  Permutation done (submit_all w config 0 tasks) ->
  cache_writes (compile_trace w config tasks jobs done) = [].
Proof.
  intros Hperm. unfold cache_writes.
  rewrite (compile_trace_reading _ _ _ _ Hperm) by (now intros []).
  now rewrite !flat_map_nil.
Qed.

(** What the future of a job holds is decided by the worker of that job
    alone. *)
Lemma submit_ok j t : fut_ok (submit w config j t) = job_ok w config j t.
Proof.
  unfold fut_ok, submit, job_ok. destruct (pool_lost w j); [reflexivity|]. simpl.
  unfold compiler_daemon, compile_cmd.
  destruct (fs_mkdir w _); [|reflexivity]. simpl.
  rewrite include_args, <- !app_assoc.
  destruct (run_compiler w j _); reflexivity.
Qed.

Lemma submit_all_ok tasks : forall i fu,
  In fu (submit_all w config i tasks) ->
  fut_ok fu = job_ok w config (fut_job fu) (fut_task fu).
Proof.
  induction tasks as [|t tasks IH]; intros i fu; simpl; [intros []|].
  intros [<- | Hin]; [|eauto].
  rewrite submit_ok. unfold submit. now destruct (pool_lost w i).
Qed.

Lemma compile_trace_submissions tasks jobs done :
  Permutation done (submit_all w config 0 tasks) ->
  submissions (compile_trace w config tasks jobs done)
  = map (fun fu => (fut_job fu, fut_task fu)) (submit_all w config 0 tasks).
Proof.
  intros Hperm. unfold submissions.
  rewrite (compile_trace_reading _ _ _ _ Hperm) by (now intros []).
  rewrite flat_map_nil, app_nil_r. apply flat_map_single.
Qed.

Lemma compile_trace_collections tasks jobs done :
  Permutation done (submit_all w config 0 tasks) ->
  collections (compile_trace w config tasks jobs done)
  = map (fun fu => (fut_job fu, fut_task fu, fut_ok fu)) done.
Proof.
  intros Hperm. unfold collections.
  rewrite (compile_trace_reading _ _ _ _ Hperm) by (now intros []).
  rewrite flat_map_nil. simpl. apply flat_map_single.
Qed.

(** Every future is collected with the verdict of its own worker. *)
Lemma collections_of_submissions tasks jobs done :
  Permutation done (submit_all w config 0 tasks) ->
  Permutation (collections (compile_trace w config tasks jobs done))
    (map (fun jt => (fst jt, snd jt, job_ok w config (fst jt) (snd jt)))
       (submissions (compile_trace w config tasks jobs done))).
Proof.
  intros Hperm.
  rewrite (compile_trace_submissions _ _ _ Hperm), (compile_trace_collections _ _ _ Hperm).
  rewrite map_map. simpl.
  transitivity (map (fun fu => (fut_job fu, fut_task fu, fut_ok fu))
                  (submit_all w config 0 tasks)).
  - now apply Permutation_map.
  - apply Permutation_refl'. apply map_ext_in. intros fu Hin.
    now rewrite (submit_all_ok _ _ _ Hin).
Qed.

(** What a reading sees of the compile stage that the pool has cut short:
    the submissions that were accepted, nothing else of the scheduler. *)
Lemma pool_abort_reading {X} (f : event -> list X) tasks jobs :
  (forall ev, worker_event ev = true -> f ev = []) ->
  (forall n, f (EvPool n) = []) ->
  flat_map f (pool_abort_trace w config tasks jobs)
  = if pool_start w (effective_jobs w jobs) then
      flat_map (fun fu => f (EvSubmit (fut_job fu) (fut_task fu)))
        (submit_all w config 0 (firstn (accepted w 0 (length tasks)) tasks))
    else [].
Proof.
  intros Hw Hp. unfold pool_abort_trace.
  destruct (pool_start w (effective_jobs w jobs)); [|reflexivity].
  cbn [flat_map]. rewrite Hp, flat_map_app. simpl.
  set (sent := submit_all w config 0 _).
  assert (Hs : flat_map f (flat_map fut_events sent) = []).
  { pose proof (submit_all_workers (firstn (accepted w 0 (length tasks)) tasks) 0) as HF.
    fold sent in HF. induction HF as [|fu fs Hfu _ IH]; simpl; [reflexivity|].
    now rewrite flat_map_app, (reading_workers f _ Hw Hfu), IH. }
  rewrite Hs, app_nil_r. clear. induction sent as [|fu fs IH]; simpl;
    [reflexivity | now rewrite IH].
Qed.

Lemma pool_abort_submitted tasks jobs :
  submitted (pool_abort_trace w config tasks jobs)
  = if pool_start w (effective_jobs w jobs)
    then firstn (accepted w 0 (length tasks)) tasks else [].
Proof.
  unfold submitted. rewrite pool_abort_reading by (now intros []).
  destruct (pool_start w _); [|reflexivity].
  rewrite flat_map_single. apply submit_all_tasks.
Qed.

Lemma pool_abort_submitted_jobs tasks jobs :
  submitted_jobs (pool_abort_trace w config tasks jobs)
  = if pool_start w (effective_jobs w jobs)
    then seq 0 (length (firstn (accepted w 0 (length tasks)) tasks)) else [].
Proof.
  unfold submitted_jobs. rewrite pool_abort_reading by (now intros []).
  destruct (pool_start w _); [|reflexivity].
  rewrite flat_map_single. apply submit_all_jobs.
Qed.

Lemma pool_abort_quiet {X} (f : event -> list X) tasks jobs :
  (forall ev, worker_event ev = true -> f ev = []) ->
  (forall n, f (EvPool n) = []) ->
  (forall j t, f (EvSubmit j t) = []) ->
  flat_map f (pool_abort_trace w config tasks jobs) = [].
Proof.
  intros Hw Hp Hs. rewrite pool_abort_reading by assumption.
  destruct (pool_start w _); [|reflexivity].
  induction (submit_all w config 0 _) as [|fu fs IH]; simpl; [reflexivity|].
  now rewrite Hs, IH.
Qed.

Lemma pool_abort_collected_jobs tasks jobs :
  collected_jobs (pool_abort_trace w config tasks jobs) = [].
Proof. apply pool_abort_quiet; now intros []. Qed.
Lemma pool_abort_collections tasks jobs :
  collections (pool_abort_trace w config tasks jobs) = [].
Proof. apply pool_abort_quiet; now intros []. Qed.
Lemma pool_abort_succeeded tasks jobs :
  succeeded (pool_abort_trace w config tasks jobs) = [].
Proof. apply pool_abort_quiet; now intros []. Qed.
Lemma pool_abort_failed tasks jobs :
  failed (pool_abort_trace w config tasks jobs) = [].
Proof. apply pool_abort_quiet; now intros []. Qed.
Lemma pool_abort_linker_runs tasks jobs :
  linker_runs (pool_abort_trace w config tasks jobs) = [].
Proof. apply pool_abort_quiet; now intros []. Qed.
Lemma pool_abort_cache_writes tasks jobs :
  cache_writes (pool_abort_trace w config tasks jobs) = [].
Proof. apply pool_abort_quiet; now intros []. Qed.

(** The compile stage under a fair pool: the pool does not take the tasks,
    and the stage ends with its exception before any future is collected;
    or every task is submitted and every future collected. *)
Lemma compile_stage_spec tasks jobs st r st' :
  fair_pool w ->
  compile_stage w config tasks jobs st = (r, st') ->
  (tasks <> [] /\ pool_takes w jobs (length tasks) = false
   /\ (if pool_start w (effective_jobs w jobs) then r = Raised SubmitFailed
       else r = Raised PoolFailed)
   /\ data st' = data st /\ disk st' = disk st
   /\ trace st' = trace st ++ pool_abort_trace w config tasks jobs)
  \/ ((tasks = [] \/ pool_takes w jobs (length tasks) = true)
      /\ exists done,
    Permutation done (submit_all w config 0 tasks)
    /\ disk st' = disk st
    /\ trace st' = trace st ++ compile_trace w config tasks jobs done
    /\ r = (if forallb fut_ok done then Returned tt else SysExit 1)
    /\ forall k : string,
         ((forall fu, In fu done -> fut_ok fu = true -> task_key (fut_task fu) <> k)
          /\ data st' !! k = data st !! k)
         \/ (exists fu e, In fu done /\ fut_ok fu = true /\ task_key (fut_task fu) = k
                         /\ data st' !! k = Some e
                         /\ stored_hash e = Some (task_hash (fut_task fu)))).
Proof.
  intros Hfair. unfold compile_stage. destruct tasks as [|t ts].
  - intros [= <- <-]. right. split; [now left|]. exists []. simpl. rewrite app_nil_r.
    split; [constructor|]. split; [reflexivity|]. split; [reflexivity|].
    split; [reflexivity|]. intros k. left. split; [intros fu []|reflexivity].
  - unfold _run_parallel_compilers, pool_takes, pool_abort_trace.
    destruct (pool_start w (effective_jobs w jobs)) eqn:Hstart.
    2:{ intros [= <- <-]. left. split; [discriminate|]. split; [reflexivity|].
        split; [reflexivity|]. split; [reflexivity|]. split; [reflexivity|].
        now rewrite app_nil_r. }
    rewrite submit_each_spec.
    destruct (accepted w 0 (length (t :: ts)) =? length (t :: ts))%nat eqn:Hacc.
    2:{ intros [= <- <-]. left. split; [discriminate|]. split; [reflexivity|].
        split; [reflexivity|]. split; [reflexivity|]. split; [reflexivity|].
        unfold log_events. cbn [trace]. now rewrite <- app_assoc. }
    apply Nat.eqb_eq in Hacc. rewrite (firstn_whole _ _ Hacc).
    set (fm := submit_all w config 0 (t :: ts)).
    set (st0 := log_events _ st).
    destruct (fold_left (collect w) (pool_as_completed w fm) (st0, false))
      as [st1 errors] eqn:Hfold.
    intros H.
    assert (Hr : (r, st') = ((if errors then SysExit 1 else Returned tt), st1))
      by (rewrite <- H; now destruct errors).
    injection Hr as -> ->.
    destruct (collect_fold w _ _ _ _ _ Hfold) as (Hd & Ht & He).
    right. split; [right; reflexivity|].
    exists (pool_as_completed w fm). split; [apply Hfair|].
    split; [exact Hd|]. split.
    + rewrite Ht. unfold st0, compile_trace, log_events. cbn [trace].
      now rewrite <- app_assoc.
    + split.
      * rewrite He. simpl. now destruct (forallb fut_ok _).
      * intros k. exact (collect_fold_data w _ _ _ _ _ k Hfold).
Qed.

End CompileStage.

(** ** Classification *)

Section Classification.

Variable w : world.
Variable config : BuildConfig.

Lemma unit_pair_task s u :
  unit_pair w config s = Some u ->
  unit_object config s = Some (fst u) /\ unit_task w config s = Some (snd u)
  /\ task_obj (snd u) = path_str (fst u).
Proof.
  unfold unit_pair, unit_task.
  destruct (unit_object config s) as [o|]; [|discriminate].
  destruct (unit_fingerprint w config s) as [h|]; [|discriminate].
  intros [= <-]. simpl. auto.
Qed.


(** One turn of the loop, in terms of the unit of the source. *)
Lemma classify_unit_spec force_rebuild d s :
  classify_unit w config force_rebuild d s
  = if negb (fs_exists w (path_str (Path s))) then SysExit 1
    else match with_suffix_name (Path s) ".o" with
         | None => Raised EmptyName
         | Some _ =>
             match unit_pair w config s with
             | Some u => Returned (fst u, if stale force_rebuild d u then Some (snd u) else None)
             | None => Raised ReadFailed
             end
         end.
Proof.
  unfold classify_unit, unit_pair, unit_task, unit_object, unit_fingerprint, stale.
  destruct (negb (fs_exists w (path_str (Path s)))); [reflexivity|].
  destruct (with_suffix_name (Path s) ".o") as [n|]; [|reflexivity].
  unfold hash_source.
  destruct (fs_read_bytes w (path_str (Path s))) as [contents|]; [|reflexivity].
  simpl. now destruct (force_rebuild || _).
Qed.

(** When the loop gets through the source list, every source exists, the
    object files are those of the units in order, and the tasks are those
    of the stale units in order. *)
Lemma classify_returned force_rebuild d sources : forall obj_files0 tasks0 obj_files tasks,
  classify w config force_rebuild d sources obj_files0 tasks0 = Returned (obj_files, tasks) ->
  List.Forall (fun s => fs_exists w (path_str (Path s)) = true) sources
  /\ exists us, units w config sources = Some us
                /\ obj_files = obj_files0 ++ map fst us
                /\ tasks = tasks0 ++ map snd (List.filter (stale force_rebuild d) us).
Proof.
  induction sources as [|s rest IH]; intros objs0 tasks0 objs tasks H; simpl in H.
  - injection H as <- <-. split; [constructor|]. exists []. simpl.
    now rewrite !app_nil_r.
  - rewrite classify_unit_spec in H.
    destruct (fs_exists w (path_str (Path s))) eqn:Hex; simpl in H; [|discriminate].
    destruct (with_suffix_name (Path s) ".o"); [|discriminate].
    destruct (unit_pair w config s) as [u|] eqn:Hu; [|discriminate].
    simpl. rewrite Hu.
    destruct (stale force_rebuild d u) eqn:Hst;
      apply IH in H as (HF & us & Hus & -> & ->); (split; [now constructor|]);
      exists (u :: us); rewrite Hus; simpl; rewrite Hst, <- !app_assoc; auto.
Qed.

Lemma units_suffix sources us :
  units w config sources = Some us ->
  List.Forall (fun s => is_Some (with_suffix_name (Path s) ".o")) sources.
Proof.
  revert us. induction sources as [|s rest IH]; intros us H; [constructor|].
  simpl in H. destruct (unit_pair w config s) as [u|] eqn:Hu; [|discriminate].
  destruct (units w config rest) as [us'|]; [|discriminate].
  constructor; [|eapply IH; eauto].
  apply unit_pair_task in Hu as (Ho & _). unfold unit_object in Ho.
  destruct (with_suffix_name (Path s) ".o"); [eauto | discriminate].
Qed.

(** Conversely the loop gets through when every source exists and has a
    unit. *)
Lemma classify_total force_rebuild d sources : forall us obj_files0 tasks0,
  List.Forall (fun s => fs_exists w (path_str (Path s)) = true) sources ->
  units w config sources = Some us ->
  classify w config force_rebuild d sources obj_files0 tasks0
  = Returned (obj_files0 ++ map fst us,
              tasks0 ++ map snd (List.filter (stale force_rebuild d) us)).
Proof.
  induction sources as [|s rest IH]; intros us objs0 tasks0 HF Hus; simpl in *.
  - injection Hus as <-. simpl. now rewrite !app_nil_r.
  - inversion HF as [|? ? Hex HF']; subst.
    pose proof (units_suffix (s :: rest) us) as Hsuf. simpl in Hsuf.
    destruct (unit_pair w config s) as [u|] eqn:Hu; [|discriminate].
    destruct (units w config rest) as [us'|] eqn:Hus'; [|discriminate].
    specialize (Hsuf Hus). inversion Hsuf as [|? ? [n Hn] _]; subst.
    injection Hus as <-.
    rewrite classify_unit_spec, Hex, Hn, Hu. simpl.
    destruct (stale force_rebuild d u); rewrite (IH us' _ _ HF' eq_refl);
      now rewrite <- !app_assoc.
Qed.

Lemma units_in sources : forall us u,
  units w config sources = Some us -> In u us ->
  exists s, In s sources /\ unit_pair w config s = Some u.
Proof.
  induction sources as [|s rest IH]; intros us u H Hin; simpl in H.
  - injection H as <-. destruct Hin.
  - destruct (unit_pair w config s) as [u0|] eqn:Hu; [|discriminate].
    destruct (units w config rest) as [us'|]; [|discriminate].
    injection H as <-. destruct Hin as [<- | Hin].
    + exists s. split; [now left | assumption].
    + destruct (IH _ _ eq_refl Hin) as (s' & Hs' & Hu'). exists s'. split; [now right | assumption].
Qed.



End Classification.

(** Environments with the same source files derive the same units. *)
Lemma same_sources_units w1 w2 config sources :
  same_sources w1 w2 -> units w2 config sources = units w1 config sources.
Proof.
  intros Hs. induction sources as [|s rest IH]; simpl; [reflexivity|].
  rewrite IH. f_equal.
  unfold unit_pair, unit_task, unit_fingerprint, hash_source.
  destruct (Hs (path_str (Path s))) as (_ & -> & ->). reflexivity.
Qed.

(** ** The shape of a build *)

Section BuildShape.

Variable w : world.
Variable config : BuildConfig.

Lemma classify_unit_errors force_rebuild d s :
  match classify_unit w config force_rebuild d s with
  | Returned _ => True
  | SysExit code => code = 1%Z
  | Raised e => e = EmptyName \/ e = ReadFailed
  end.
Proof.
  rewrite classify_unit_spec.
  destruct (negb _); [reflexivity|].
  destruct (with_suffix_name _ _); [|now left].
  destruct (unit_pair w config s); [exact I | now right].
Qed.

Lemma classify_errors force_rebuild d sources : forall obj_files tasks,
  match classify w config force_rebuild d sources obj_files tasks with
  | Returned _ => True
  | SysExit code => code = 1%Z
  | Raised e => e = EmptyName \/ e = ReadFailed
  end.
Proof.
  induction sources as [|s rest IH]; intros objs tasks; simpl; [exact I|].
  pose proof (classify_unit_errors force_rebuild d s) as H.
  destruct (classify_unit w config force_rebuild d s) as [[o [t|]]|code|e];
    try apply IH; exact H.
Qed.

Lemma build_shape_intro force_rebuild jobs st r st' :
  fair_pool w ->
  build w config force_rebuild jobs st = (r, st') ->
  build_shape w config force_rebuild jobs st r st'.
Proof.
  intros Hfair H. apply build_run_intro in H.
  destruct H as [Hmk | code Hmk Hcl | e Hmk Hcl
                | objs tasks r1 st1 Hmk Hcl Hc Hr1
                | objs tasks st1 r2 st2 Hmk Hcl Hc Hl Hr2
                | objs tasks st1 st2 r st' Hmk Hcl Hc Hl Hs].
  - apply shape_early; auto.
  - apply shape_early; [reflexivity| |right; now rewrite Hcl].
    pose proof (classify_errors force_rebuild (data st) (cpp_sources config) [] []) as He.
    rewrite Hcl in He. subst. auto.
  - apply shape_early; [reflexivity| |right; now rewrite Hcl].
    pose proof (classify_errors force_rebuild (data st) (cpp_sources config) [] []) as He.
    rewrite Hcl in He. destruct He as [-> | ->]; auto.
  - destruct (compile_stage_spec w config _ _ _ _ _ Hfair Hc)
      as [(Hne & Htk & Hr & Hdata & Hd & Ht)
         | (Htk & done & Hperm & Hd & Ht & Hr & Hdata)];
      unfold log_events in Hd, Ht, Hdata; cbn [disk data trace] in Hd, Ht, Hdata.
    + eapply shape_pool_abort; eauto. rewrite Ht. now rewrite <- app_assoc.
    + destruct (forallb fut_ok done) eqn:Hok; [congruence|].
      eapply shape_compile_abort; eauto.
      rewrite Ht. simpl. now rewrite <- app_assoc.
  - destruct (compile_stage_spec w config _ _ _ _ _ Hfair Hc)
      as [(Hne & Htk & Hr & _) | (Htk & done & Hperm & Hd & Ht & Hr & Hdata)].
    { destruct (pool_start w _); discriminate. }
    unfold log_events in Hd, Ht, Hdata; cbn [disk data trace] in Hd, Ht, Hdata.
    destruct (forallb fut_ok done) eqn:Hok; [|discriminate].
    destruct (link_stage w config _ _ _ _ Hl) as (Hld & Hlk & Hlt).
    destruct Hlt as [(_ & -> & _) | (cmd & Hlt & Hlr)]; [congruence|].
    eapply (shape_link_abort _ _ _ _ _ _ _ objs tasks done cmd); eauto.
    + intros k. rewrite Hld. apply Hdata.
    + destruct (run_linker w cmd) as [rc err| |rc] eqn:Hrun.
      * left. exists rc, err. destruct (rc =? 0)%Z eqn:E; [congruence|].
        apply Z.eqb_neq in E. auto.
      * right. split; [discriminate | assumption].
      * right. split; [discriminate | assumption].
    + congruence.
    + rewrite Hlt, Ht. simpl. now rewrite <- !app_assoc.
  - destruct (compile_stage_spec w config _ _ _ _ _ Hfair Hc)
      as [(Hne & Htk & Hr & _) | (Htk & done & Hperm & Hd & Ht & Hr & Hdata)].
    { destruct (pool_start w _); discriminate. }
    unfold log_events in Hd, Ht, Hdata; cbn [disk data trace] in Hd, Ht, Hdata.
    destruct (forallb fut_ok done) eqn:Hok; [|discriminate].
    destruct (link_stage w config _ _ _ _ Hl) as (Hld & Hlk & Hlt).
    destruct (save_stage w _ _ _ Hs) as (Hsd & Hst & Hsw).
    assert (Hdata' : data_after done (data st) (data st'))
      by (intros k; rewrite Hsd, Hld; apply Hdata).
    rewrite <- Hsd in Hsw, Hst.
    assert (Hdisk : disk st2 = disk st) by congruence.
    rewrite Hdisk in Hsw.
    destruct Hlt as [(-> & _ & Hlt) | (cmd & Hlt & Hlr)].
    + eapply (shape_persist _ _ _ _ _ _ _ [] tasks done []); eauto.
      rewrite Hst, Hlt, Ht. simpl. now rewrite <- !app_assoc.
    + destruct (run_linker w cmd) as [rc err| |rc] eqn:Hrun; try discriminate.
      destruct (rc =? 0)%Z eqn:E; [|discriminate].
      apply Z.eqb_eq in E. subst rc.
      eapply (shape_persist _ _ _ _ _ _ _ objs tasks done [EvLinkerRun cmd]); eauto.
      rewrite Hst, Hlt, Ht. simpl. now rewrite <- !app_assoc.
Qed.

End BuildShape.

(** ** Reading traces *)

Lemma submitted_app a b : submitted (a ++ b) = submitted a ++ submitted b.
Proof. apply flat_map_app. Qed.
Lemma submitted_jobs_app a b : submitted_jobs (a ++ b) = submitted_jobs a ++ submitted_jobs b.
Proof. apply flat_map_app. Qed.
Lemma collected_jobs_app a b : collected_jobs (a ++ b) = collected_jobs a ++ collected_jobs b.
Proof. apply flat_map_app. Qed.
Lemma succeeded_app a b : succeeded (a ++ b) = succeeded a ++ succeeded b.
Proof. apply flat_map_app. Qed.
Lemma failed_app a b : failed (a ++ b) = failed a ++ failed b.
Proof. apply flat_map_app. Qed.
Lemma linker_runs_app a b : linker_runs (a ++ b) = linker_runs a ++ linker_runs b.
Proof. apply flat_map_app. Qed.
Lemma cache_writes_app a b : cache_writes (a ++ b) = cache_writes a ++ cache_writes b.
Proof. apply flat_map_app. Qed.
Lemma submissions_app a b : submissions (a ++ b) = submissions a ++ submissions b.
Proof. apply flat_map_app. Qed.
Lemma collections_app a b : collections (a ++ b) = collections a ++ collections b.
Proof. apply flat_map_app. Qed.

Create Rewrite HintDb readings.
#[local] Hint Rewrite submitted_app submitted_jobs_app collected_jobs_app succeeded_app
  failed_app linker_runs_app cache_writes_app submissions_app collections_app : readings.
#[local] Hint Rewrite compile_trace_submitted compile_trace_submitted_jobs
  compile_trace_collected_jobs compile_trace_succeeded compile_trace_failed
  compile_trace_linker_runs compile_trace_cache_writes using eassumption : readings.
#[local] Hint Rewrite pool_abort_submitted pool_abort_submitted_jobs
  pool_abort_collected_jobs pool_abort_succeeded pool_abort_failed
  pool_abort_linker_runs pool_abort_cache_writes : readings.

(** Rewrite the readings of a trace of known shape into those of its parts. *)
Ltac read_trace H :=
  rewrite H; autorewrite with readings; simpl; rewrite ?app_nil_r.

(** [main] is [from_file], then loading the cache, then [build]. *)
Lemma main_cases w cfg cmd jobs f r st' :
  main w cfg cmd jobs (boot f) = (r, st') ->
  (exists config,
      from_file cfg = Returned config
      /\ build w config (force_of cmd) jobs (Proc (_load f) f [] 0) = (r, st'))
  \/ (st' = boot f /\ (r = SysExit 1 \/ r = Raised ConfigUnparsable)).
Proof.
  unfold main. destruct cfg as [| |doc].
  - intros [= <- <-]. right. auto.
  - intros [= <- <-]. right. auto.
  - destruct (from_file (ConfigDoc doc)) as [config|code|e] eqn:Hff.
    + intros H. left. exists config. split; [reflexivity|].
      destruct cmd; exact H.
    + unfold from_file in Hff. destruct (get_or (t_sources_cpp doc) []); [|discriminate].
      injection Hff as <-. intros [= <- <-]. right. auto.
    + unfold from_file in Hff. destruct (get_or (t_sources_cpp doc) []); discriminate.
Qed.

Lemma all_ok_no_failed done :
  forallb fut_ok done = true -> List.filter (fun fu => negb (fut_ok fu)) done = [].
Proof.
  induction done as [|fu fs IH]; [reflexivity|]. simpl. intros Hok.
  apply andb_true_iff in Hok as [-> Hfs]. simpl. now apply IH.
Qed.

Lemma all_ok_succeeded done :
  forallb fut_ok done = true -> List.filter fut_ok done = done.
Proof.
  induction done as [|fu fs IH]; [reflexivity|]. simpl. intros Hok.
  apply andb_true_iff in Hok as [-> Hfs]. now rewrite IH.
Qed.

Lemma fair_identity w : (forall fs, pool_as_completed w fs = fs) -> fair_pool w.
Proof. intros H fs. rewrite H. apply Permutation_refl. Qed.

Lemma main_build w cfg config cmd jobs f :
  from_file cfg = Returned config ->
  main w cfg cmd jobs (boot f)
  = build w config (force_of cmd) jobs (Proc (_load f) f [] 0).
Proof. unfold main. intros ->. now destruct cmd. Qed.

(** ** Persisting the cache *)

(** C4.  In a run of [main] the cache file is written at most once, and it
    is written exactly when the build gets through the link step (linked,
    or nothing to link): a run that returns has written the in-memory cache
    once and that is what the file holds; a run that stops anywhere before
    has not touched the file.  A failed compile job or a lost worker, and a
    linker that does not exit with zero, stop the run before. *)
Theorem cache_persisted_once_on_success w cfg cmd jobs f r st' :
  fair_pool w ->
  main w cfg cmd jobs (boot f) = (r, st') ->
  match r with
  | Returned _ =>
      cache_writes (trace st') = [data st'] /\ disk st' = Stored (data st')
  | Raised CacheWriteFailed =>
      cache_writes (trace st') = [data st']
      /\ fs_write_cache w (data st') <> Written
      /\ (disk st' = f \/ disk st' = Unparsable)
  | _ => cache_writes (trace st') = [] /\ disk st' = f
  end
  /\ (failed (trace st') <> [] ->
      r = SysExit 1 /\ cache_writes (trace st') = [] /\ disk st' = f)
  /\ (forall link_cmd,
        In link_cmd (linker_runs (trace st')) ->
        (forall stderr, run_linker w link_cmd <> Completed 0 stderr) ->
        (r = SysExit 1 \/ r = Raised SpawnFailed)
        /\ cache_writes (trace st') = [] /\ disk st' = f).
Proof.
  intros Hfair Hmain.
  destruct (main_cases _ _ _ _ _ _ _ Hmain) as [(config & Hff & Hb) | (-> & Hr)].
  2:{ simpl. split; [destruct Hr as [-> | ->]; auto|].
      split; [intros H; now elim H | intros c []]. }
  apply build_shape_intro in Hb; [|assumption].
  destruct Hb as [-> Hr Hwhy
                 | objs tasks Hcl Hne Htk Hr Hsame Hdisk Ht
                 | objs tasks done Hcl Hperm Hdata Hok -> Hdisk Ht Htk
                 | objs tasks done lcmd Hcl Hperm Hdata Hok Hlink Hdisk Ht Htk
                 | objs tasks done link_evs Hcl Hperm Hdata Hok Hlink Hwrite Ht Htk];
    cbn [trace disk log_events] in *.
  - simpl. split; [destruct Hr as [-> | [-> | [-> | ->]]]; auto|].
    split; [intros H; now elim H | intros c []].
  - read_trace Ht. rewrite Hdisk.
    split; [destruct (pool_start w _); subst r; auto|].
    split; [intros H; now elim H | intros c []].
  - read_trace Ht. rewrite Hdisk. split; [auto|]. split; [auto|]. intros c [].
  - read_trace Ht. rewrite Hdisk.
    rewrite (all_ok_no_failed _ Hok). simpl.
    split; [destruct Hlink as [(rc & err & _ & _ & ->) | [_ ->]]; auto|].
    split; [intros H; now elim H|].
    intros c [<- | []] _.
    destruct Hlink as [(rc & err & _ & _ & ->) | [_ ->]]; auto.
  - read_trace Ht.
    rewrite (all_ok_no_failed _ Hok). simpl.
    assert (Hlw : cache_writes link_evs = [] /\ failed link_evs = []).
    { destruct Hlink as [[_ ->] | (c & err & -> & _)]; auto. }
    destruct Hlw as [-> ->]. simpl.
    split.
    + destruct (fs_write_cache w (data st')) eqn:Hw; destruct Hwrite as [-> Hd];
        repeat split; auto; discriminate.
    + split; [intros H; now elim H|].
      intros c Hin Hbad. exfalso.
      destruct Hlink as [[_ ->] | (c' & err & -> & Hrun)]; simpl in Hin; [destruct Hin|].
      destruct Hin as [<- | []]. now apply (Hbad err).
Qed.

Lemma cache_persisted_once_on_success_witness :
  let run := main Demo.w (ConfigDoc (Demo.doc ["main.cpp"])) CmdBuild None (boot NoFile) in
  fair_pool Demo.w
  /\ fst run = Returned tt
  /\ cache_writes (trace (snd run)) = [data (snd run)]
  /\ disk (snd run) = Stored (data (snd run)).
Proof.
  intros run.
  assert (Hfair : fair_pool Demo.w) by (apply fair_identity; reflexivity).
  assert (Hr : fst run = Returned tt) by (vm_compute; reflexivity).
  split; [exact Hfair|]. split; [exact Hr|].
  pose proof (cache_persisted_once_on_success Demo.w _ _ _ _ (fst run) (snd run)
                Hfair (surjective_pairing run)) as H.
  rewrite Hr in H. exact (proj1 H).
Defined.

(** C6, as the code has it.  When the write of the cache file fails, the
    exception of [save] leaves [build] and [main]: the run does not return,
    the process ends with status 1, although every linker run of the build
    had exited with zero. *)
Theorem persist_failure_propagates w cfg cmd jobs f r st' d :
  fair_pool w ->
  main w cfg cmd jobs (boot f) = (r, st') ->
  In d (cache_writes (trace st')) ->
  fs_write_cache w d <> Written ->
  r = Raised CacheWriteFailed
  /\ exit_status r = 1%Z
  /\ (forall link_cmd, In link_cmd (linker_runs (trace st')) ->
        exists stderr, run_linker w link_cmd = Completed 0 stderr).
Proof.
  intros Hfair Hmain Hin Hbad.
  destruct (main_cases _ _ _ _ _ _ _ Hmain) as [(config & Hff & Hb) | (-> & Hr)];
    [|destruct Hin].
  apply build_shape_intro in Hb; [|assumption].
  destruct Hb as [-> Hr Hwhy
                 | objs tasks Hcl Hne Htk Hr Hsame Hdisk Ht
                 | objs tasks done Hcl Hperm Hdata Hok -> Hdisk Ht Htk
                 | objs tasks done lcmd Hcl Hperm Hdata Hok Hlink Hdisk Ht Htk
                 | objs tasks done link_evs Hcl Hperm Hdata Hok Hlink Hwrite Ht Htk];
    cbn [trace disk log_events] in *.
  - destruct Hin.
  - revert Hin. read_trace Ht. intros [].
  - revert Hin. read_trace Ht. intros [].
  - revert Hin. read_trace Ht. intros [].
  - revert Hin. read_trace Ht.
    assert (Hlw : cache_writes link_evs = []).
    { destruct Hlink as [[_ ->] | (c & err & -> & _)]; auto. }
    rewrite Hlw. simpl. intros [<- | []].
    assert (Hr : r = Raised CacheWriteFailed).
    { destruct (fs_write_cache w (data st')); destruct Hwrite as [-> _]; congruence. }
    subst r. split; [reflexivity|]. split; [reflexivity|].
    intros c Hc. destruct Hlink as [[_ ->] | (c' & err & -> & Hrun)]; simpl in Hc.
    + destruct Hc.
    + destruct Hc as [<- | []]. now exists err.
Qed.

Lemma persist_failure_propagates_witness :
  let run := main Demo.w_readonly (ConfigDoc (Demo.doc ["main.cpp"])) CmdBuild None
               (boot NoFile) in
  fair_pool Demo.w_readonly
  /\ In (data (snd run)) (cache_writes (trace (snd run)))
  /\ fs_write_cache Demo.w_readonly (data (snd run)) <> Written
  /\ fst run = Raised CacheWriteFailed
  /\ exit_status (fst run) = 1%Z.
Proof.
  intros run.
  assert (Hfair : fair_pool Demo.w_readonly) by (apply fair_identity; reflexivity).
  assert (Hin : In (data (snd run)) (cache_writes (trace (snd run))))
    by (vm_compute; left; reflexivity).
  assert (Hbad : fs_write_cache Demo.w_readonly (data (snd run)) <> Written)
    by discriminate.
  split; [exact Hfair|]. split; [exact Hin|]. split; [exact Hbad|].
  destruct (persist_failure_propagates Demo.w_readonly _ _ _ _ (fst run) (snd run) _
              Hfair (surjective_pairing run) Hin Hbad) as (H1 & H2 & _).
  split; assumption.
Defined.

(** C6, as stated, fails: the link succeeds, the write of the cache file
    is refused, and the run ends with an uncaught exception and exit status
    1 instead of finishing as a success. *)
Lemma persist_failure_is_fatal :
  let run := main Demo.w_readonly (ConfigDoc (Demo.doc ["main.cpp"])) CmdBuild None
               (boot NoFile) in
  linker_runs (trace (snd run))
  = [["clang++"; "build/main.o"; "-Wall"; "-std=c++20"; "-O0"; "-g"; "-o"; "build/myproject"]]
  /\ run_linker Demo.w_readonly
       ["clang++"; "build/main.o"; "-Wall"; "-std=c++20"; "-O0"; "-g"; "-o"; "build/myproject"]
     = Completed 0 ""
  /\ fst run = Raised CacheWriteFailed
  /\ fst run <> Returned tt
  /\ exit_status (fst run) <> 0%Z.
Proof. vm_compute. repeat split; discriminate. Qed.

(** ** Partial failure *)

Lemma in_succeeded_done done t :
  In t (map fut_task (List.filter fut_ok done)) <->
  exists fu, In fu done /\ fut_ok fu = true /\ fut_task fu = t.
Proof.
  rewrite in_map_iff. split.
  - intros (fu & <- & Hin). apply filter_In in Hin as [Hin Hok]. eauto.
  - intros (fu & Hin & Hok & <-). exists fu. split; [reflexivity|].
    apply filter_In. auto.
Qed.

(** C3, as the code has it.  Every future is collected with the verdict
    of its own worker: the job at position [j] counts as succeeded exactly
    when its worker was not lost, could make the directory of the object and
    ran a compiler that exited with zero, whatever became of the other jobs.
    When a dispatched unit A fails in this sense, every submitted job is
    still collected, the run ends with [sys.exit(1)], the linker is not run
    and the cache file is not written.  In the cache store every succeeded
    unit B finds, under its object path, an entry with the fingerprint of a
    succeeded unit that has this object path; and the entry under A's object
    path is the one loaded at start, provided no succeeded unit has A's
    object path. *)
Theorem partial_failure_aggregation w cfg config cmd jobs f r st' tA :
  fair_pool w ->
  from_file cfg = Returned config ->
  main w cfg cmd jobs (boot f) = (r, st') ->
  In tA (failed (trace st')) ->
  Permutation (collections (trace st'))
    (map (fun jt => (fst jt, snd jt, job_ok w config (fst jt) (snd jt)))
       (submissions (trace st')))
  /\ (exists jA, In (jA, tA) (submissions (trace st')) /\ job_ok w config jA tA = false)
  /\ Permutation (collected_jobs (trace st')) (submitted_jobs (trace st'))
  /\ r = SysExit 1
  /\ exit_status r <> 0%Z
  /\ linker_runs (trace st') = []
  /\ cache_writes (trace st') = []
  /\ disk st' = f
  /\ (forall tB, In tB (succeeded (trace st')) ->
        exists tC e, In tC (succeeded (trace st'))
                     /\ task_key tC = task_key tB
                     /\ data st' !! task_key tB = Some e
                     /\ stored_hash e = Some (task_hash tC))
  /\ ((forall tB, In tB (succeeded (trace st')) -> task_key tB <> task_key tA) ->
      data st' !! task_key tA = _load f !! task_key tA).
Proof.
  intros Hfair Hff Hmain Hin.
  rewrite (main_build _ _ _ _ _ _ Hff) in Hmain. rename Hmain into Hb.
  apply build_shape_intro in Hb; [|assumption].
  destruct Hb as [-> Hr Hwhy
                 | objs tasks Hcl Hne Htk Hr Hsame Hdisk Ht
                 | objs tasks done Hcl Hperm Hdata Hok -> Hdisk Ht Htk
                 | objs tasks done lcmd Hcl Hperm Hdata Hok Hlink Hdisk Ht Htk
                 | objs tasks done link_evs Hcl Hperm Hdata Hok Hlink Hwrite Ht Htk];
    cbn [trace disk data log_events] in *.
  - destruct Hin.
  - exfalso. revert Hin. read_trace Ht. intros [].
  - assert (Htie : Permutation (collections (trace st'))
                     (map (fun jt => (fst jt, snd jt, job_ok w config (fst jt) (snd jt)))
                        (submissions (trace st')))).
    { rewrite Ht. autorewrite with readings. simpl.
      now apply collections_of_submissions. }
    assert (HA : exists jA, In (jA, tA) (submissions (trace st'))
                            /\ job_ok w config jA tA = false).
    { revert Hin. rewrite Ht. autorewrite with readings. simpl.
      rewrite (compile_trace_submissions w config _ _ _ Hperm).
      intros HA. apply in_map_iff in HA as (fu & <- & Hfu).
      apply filter_In in Hfu as [Hfu Hbad].
      assert (Hsub : In fu (submit_all w config 0 tasks))
        by (eapply Permutation_in; eauto).
      exists (fut_job fu). split.
      - apply in_map_iff. now exists fu.
      - rewrite <- (submit_all_ok w config _ _ _ Hsub). now apply negb_true_iff. }
    split; [exact Htie|]. split; [exact HA|].
    clear Hin Htie HA. read_trace Ht. split.
    { rewrite <- (submit_all_jobs w config tasks 0). now apply Permutation_map. }
    split; [reflexivity|]. split; [discriminate|]. split; [reflexivity|].
    split; [reflexivity|]. split; [assumption|]. split.
    + intros tB HB. apply in_succeeded_done in HB as (fuB & HinB & HokB & <-).
      destruct (Hdata (task_key (fut_task fuB))) as [[Hnone _] | (fu & e & Hfu & Hfok & Hk & Hl & Hh)].
      * exfalso. now apply (Hnone fuB).
      * exists (fut_task fu), e. split; [|auto].
        apply in_succeeded_done. eauto.
    + intros Hsep.
      destruct (Hdata (task_key tA)) as [[_ Hsame] | (fu & e & Hfu & Hfok & Hk & _)];
        [assumption|].
      exfalso. apply (Hsep (fut_task fu)); [|assumption].
      apply in_succeeded_done. eauto.
  - exfalso. revert Hin. read_trace Ht. rewrite (all_ok_no_failed _ Hok). intros [].
  - exfalso. revert Hin. read_trace Ht. rewrite (all_ok_no_failed _ Hok).
    destruct Hlink as [[_ ->] | (c & err & -> & _)]; intros [].
Qed.

Lemma partial_failure_aggregation_witness :
  let cfg := ConfigDoc (Demo.doc ["broken.cpp"; "main.cpp"]) in
  let run := main Demo.w cfg CmdBuild None (boot NoFile) in
  let tA := Task "broken.cpp" "build/broken.o"
              "be39629e75a24868cac4d6c6629f5e739f707e999e3b97717d9ec0a133cd8e97" in
  fair_pool Demo.w
  /\ In tA (failed (trace (snd run)))
  /\ run_compiler Demo.w 0 (compile_cmd (Demo.config ["broken.cpp"; "main.cpp"]) tA)
     = Completed 1 "broken.cpp:1:11: error: expected ')'"
  /\ fst run = SysExit 1
  /\ linker_runs (trace (snd run)) = []
  /\ data (snd run) !! task_key tA = None.
Proof.
  intros cfg run tA.
  assert (Hfair : fair_pool Demo.w) by (apply fair_identity; reflexivity).
  assert (Hin : In tA (failed (trace (snd run)))) by (vm_compute; left; reflexivity).
  split; [exact Hfair|]. split; [exact Hin|]. split; [reflexivity|].
  destruct (partial_failure_aggregation Demo.w cfg (Demo.config ["broken.cpp"; "main.cpp"])
              CmdBuild None NoFile (fst run) (snd run) tA Hfair eq_refl
              (surjective_pairing run) Hin)
    as (_ & _ & _ & Hr & _ & Hl & _ & _ & _ & HA).
  split; [exact Hr|]. split; [exact Hl|].
  rewrite HA; [reflexivity|].
  intros tB HB. vm_compute in HB. destruct HB as [<- | []]. discriminate.
Defined.

(** C3, as stated, fails.  [legacy/x.cpp] fails to compile, [b/x.cpp]
    succeeds, both are written to [build/x.o]: the entry under the object
    path of the failed unit, absent at start, is there after the run, with
    the fingerprint of the other unit. *)
Lemma failed_unit_entry_changed :
  let run := main Demo.w (ConfigDoc (Demo.doc ["legacy/x.cpp"; "b/x.cpp"])) CmdBuild None
               (boot NoFile) in
  map task_src (failed (trace (snd run))) = ["legacy/x.cpp"]
  /\ map task_key (failed (trace (snd run))) = ["build/x.o"]
  /\ map task_src (succeeded (trace (snd run))) = ["b/x.cpp"]
  /\ _load NoFile !! "build/x.o" = None
  /\ option_map stored_hash (data (snd run) !! "build/x.o")
     = Some (Some "f0a147c26406669c4b79660364f28ec5f12f4d1ed5fb3cbe8cf746738aca3a61").
Proof. vm_compute. repeat split. Qed.

(** ** Forced builds *)

(** A loaded configuration has sources. *)
Lemma from_file_sources cfg config :
  from_file cfg = Returned config -> cpp_sources config <> [].
Proof.
  destruct cfg as [| |doc]; try discriminate. unfold from_file.
  destruct (get_or (t_sources_cpp doc) []) eqn:E; [discriminate|].
  intros [= <-]. simpl. discriminate.
Qed.



(** C8, as stated, fails.  With [-j 4294967296] the process pool cannot be
    created ([ProcessPoolExecutor] raises for a size that does not fit a C
    [int]): the forced build has made a compile task for both units, ends
    with the exception and has dispatched none of them, where the same
    build without [-j] dispatches both. *)
Lemma force_build_without_dispatch :
  let sources := ["main.cpp"; "a/x.cpp"] in
  let cfg := ConfigDoc (Demo.doc sources) in
  let run := main Demo.w cfg CmdForceBuild (Some 4294967296%Z) (boot NoFile) in
  option_map (fun ot => map task_src (snd ot))
    (match classify Demo.w (Demo.config sources) true ∅ sources [] [] with
     | Returned ot => Some ot
     | _ => None
     end) = Some sources
  /\ pool_start Demo.w (effective_jobs Demo.w (Some 4294967296%Z)) = false
  /\ fst run = Raised PoolFailed
  /\ submitted (trace (snd run)) = []
  /\ trace (snd run) = [EvMkdir "build"]
  /\ map task_src (submitted (trace (snd (main Demo.w cfg CmdForceBuild None (boot NoFile)))))
     = sources.
Proof. vm_compute. repeat split. Qed.

(** ** The cache round trip *)

Section RoundTrip.

Lemma hash_differs_stored (e : cache_entry) h :
  hash_differs e h = false <-> stored_hash e = Some h.
Proof.
  unfold hash_differs, stored_hash.
  destruct (e !! "hash") as [[| | |h']|]; try (split; discriminate).
  rewrite negb_false_iff, String.eqb_eq. split; [now intros -> | now intros [= ->]].
Qed.

Lemma needs_rebuild_after_update d obj fp now :
  needs_rebuild (update_entry d obj fp now) obj fp = false.
Proof.
  unfold needs_rebuild, get_entry.
  destruct (stored_hash_update d obj fp now) as (e & -> & He).
  now apply hash_differs_stored.
Qed.

Lemma needs_rebuild_iff d obj fp :
  needs_rebuild d obj fp = true
  <-> (get_entry d obj = None
       \/ exists e, get_entry d obj = Some e /\ stored_hash e <> Some fp).
Proof.
  unfold needs_rebuild. destruct (get_entry d obj) as [e|]; [|split; auto].
  split.
  - intros H. right. exists e. split; [reflexivity|].
    intros Hs. apply hash_differs_stored in Hs. congruence.
  - intros [H | (e' & [= <-] & Hne)]; [discriminate|].
    destruct (hash_differs e fp) eqn:E; [reflexivity|].
    now apply hash_differs_stored in E.
Qed.

(** A build whose classification finds no stale unit submits nothing. *)
Lemma build_no_tasks w config force_rebuild jobs st r st' obj_files :
  classify w config force_rebuild (data st) (cpp_sources config) [] []
  = Returned (obj_files, []) ->
  build w config force_rebuild jobs st = (r, st') ->
  submitted (trace st') = submitted (trace st).
Proof.
  intros Hcl0 H. apply build_run_intro in H.
  destruct H as [Hmk | code Hmk Hcl | e Hmk Hcl
                | objs tasks r1 st1 Hmk Hcl Hc Hr1
                | objs tasks st1 r2 st2 Hmk Hcl Hc Hl Hr2
                | objs tasks st1 st2 r st' Hmk Hcl Hc Hl Hs].
  - simpl. rewrite submitted_app. simpl. now rewrite app_nil_r.
  - simpl. rewrite submitted_app. simpl. now rewrite app_nil_r.
  - simpl. rewrite submitted_app. simpl. now rewrite app_nil_r.
  - rewrite Hcl0 in Hcl. injection Hcl as <- <-. simpl in Hc. injection Hc as <- <-.
    now elim Hr1.
  - rewrite Hcl0 in Hcl. injection Hcl as <- <-. simpl in Hc. injection Hc as <-.
    destruct (link_stage _ _ _ _ _ _ Hl) as (_ & _ & [(_ & _ & ->) | (c & -> & _)]);
      simpl; rewrite ?submitted_app; simpl; now rewrite ?app_nil_r.
  - rewrite Hcl0 in Hcl. injection Hcl as <- <-. simpl in Hc. injection Hc as <-.
    destruct (save_stage _ _ _ _ Hs) as (_ & -> & _).
    destruct (link_stage _ _ _ _ _ _ Hl) as (_ & _ & [(_ & _ & ->) | (c & -> & _)]);
      simpl; rewrite ?submitted_app; simpl; now rewrite ?app_nil_r.
Qed.

End RoundTrip.

(** ** Rerunning a build *)

Section Rerun.

Variables w1 w2 : world.
Variable config : BuildConfig.
Hypothesis Hfair : fair_pool w1.
Hypothesis Hsame : same_sources w1 w2.
Hypothesis Hcoh : coherent_objects w1 config.

(** After a build that returned, no unit of the source list is stale
    against the cache store it leaves. *)
Lemma returned_build_leaves_fresh force_rebuild jobs st st1 us :
  build w1 config force_rebuild jobs st = (Returned tt, st1) ->
  units w1 config (cpp_sources config) = Some us ->
  forall u, In u us -> stale false (data st1) u = false.
Proof.
  intros Hb Hus u Hu.
  apply build_shape_intro in Hb; [|assumption].
  destruct Hb as [_ Hr _
                 | objs tasks Hcl Hne Htk Hr Hsame' Hdisk Ht
                 | objs tasks done Hcl Hperm Hdata Hok Hr Hdisk Ht Htk
                 | objs tasks done lcmd Hcl Hperm Hdata Hok Hlink Hdisk Ht Htk
                 | objs tasks done link_evs Hcl Hperm Hdata Hok Hlink Hwrite Ht Htk].
  - destruct Hr as [Hr | [Hr | [Hr | Hr]]]; discriminate.
  - destruct (pool_start w1 _); discriminate.
  - discriminate.
  - destruct Hlink as [(rc & err & _ & _ & Hr) | [_ Hr]]; discriminate.
  - clear Hwrite Ht Hlink.
    destruct (classify_returned w1 config _ _ _ _ _ _ _ Hcl) as (_ & us' & Hus' & _ & Htasks).
    rewrite Hus in Hus'. injection Hus' as <-. simpl in Htasks.
    destruct (units_in w1 config _ _ _ Hus Hu) as (s & Hs & Hpair).
    destruct (unit_pair_task _ _ _ _ Hpair) as (Hobj & Htask & Hto).
    destruct (unit_task_normal _ _ _ _ Htask) as (_ & Hnorm).
    assert (Hkey : task_key (snd u) = path_str (fst u))
      by (unfold task_key; rewrite Hnorm; exact Hto).
    unfold stale. simpl.
    destruct (Hdata (path_str (fst u)))
      as [[Hnone Hkeep] | (fu & e & Hfu & Hfok & Hk & Hl & Hh)].
    + assert (Hst : stale force_rebuild (data st) u = false).
      { destruct (stale force_rebuild (data st) u) eqn:E; [|reflexivity]. exfalso.
        assert (Hin : In (snd u) tasks)
          by (rewrite Htasks; apply in_map, filter_In; auto).
        rewrite <- (submit_all_tasks w1 config tasks 0) in Hin.
        apply in_map_iff in Hin as (fu & Hft & Hfin).
        apply (Hnone fu).
        - eapply Permutation_in; [apply Permutation_sym; exact Hperm | exact Hfin].
        - rewrite List.forallb_forall in Hok. apply Hok.
          eapply Permutation_in; [apply Permutation_sym; exact Hperm | exact Hfin].
        - now rewrite Hft. }
      unfold stale in Hst. apply orb_false_iff in Hst as [_ Hnr].
      unfold needs_rebuild, get_entry in *. now rewrite Hkeep.
    + assert (Hin : In (fut_task fu) tasks).
      { rewrite <- (submit_all_tasks w1 config tasks 0). apply in_map.
        eapply Permutation_in; [exact Hperm | exact Hfu]. }
      rewrite Htasks in Hin. apply in_map_iff in Hin as (u' & Hsnd & Hin').
      apply filter_In in Hin' as [Hin' _].
      destruct (units_in w1 config _ _ _ Hus Hin') as (s' & Hs' & Hpair').
      destruct (unit_pair_task _ _ _ _ Hpair') as (_ & Htask' & _).
      destruct (unit_task_normal _ _ _ _ Htask') as (_ & Hnorm').
      assert (Hsameobj : task_obj (snd u') = task_obj (snd u)).
      { rewrite <- Hnorm'. fold (task_key (snd u')). rewrite Hsnd, Hk. now symmetry. }
      pose proof (Hcoh s' s _ _ Hs' Hs Htask' Htask Hsameobj) as Hhash.
      unfold needs_rebuild, get_entry. rewrite Hl.
      apply hash_differs_stored. rewrite Hh, <- Hsnd. now f_equal.
Qed.

(** Hence the next build, on the same sources, classifies every unit as
    cached. *)
Lemma rerun_classifies_fresh force_rebuild jobs st st1 :
  build w1 config force_rebuild jobs st = (Returned tt, st1) ->
  exists obj_files,
    classify w2 config false (data st1) (cpp_sources config) [] []
    = Returned (obj_files, []).
Proof.
  intros Hb.
  assert (Hcl : exists objs tasks,
             classify w1 config force_rebuild (data st) (cpp_sources config) [] []
             = Returned (objs, tasks)).
  { apply build_run_intro in Hb. inversion Hb; subst; eauto; congruence. }
  destruct Hcl as (objs & tasks & Hcl).
  destruct (classify_returned w1 config _ _ _ _ _ _ _ Hcl) as (Hex & us & Hus & _ & _).
  pose proof (returned_build_leaves_fresh _ _ _ _ _ Hb Hus) as Hfresh.
  exists (map fst us).
  assert (Hex2 : List.Forall (fun s => fs_exists w2 (path_str (Path s)) = true)
                   (cpp_sources config)).
  { eapply List.Forall_impl; [|exact Hex]. intros s Hs. simpl in Hs.
    destruct (Hsame (path_str (Path s))) as (<- & _). exact Hs. }
  rewrite (classify_total w2 config false (data st1) _ us [] [] Hex2)
    by (rewrite (same_sources_units w1 w2) by assumption; exact Hus).
  assert (Hnil : List.filter (stale false (data st1)) us = []).
  { clear -Hfresh. induction us as [|u us IH]; [reflexivity|]. cbn [List.filter].
    rewrite (Hfresh u) by now left. apply IH. intros u' Hu'. apply Hfresh. now right. }
  now rewrite Hnil.
Qed.

End Rerun.

(** A build that returned has stored its cache store in the file. *)
Lemma returned_build_persisted w config force_rebuild jobs st st1 :
  build w config force_rebuild jobs st = (Returned tt, st1) ->
  disk st1 = Stored (data st1).
Proof.
  intros Hb. apply build_run_intro in Hb.
  inversion Hb as [ | | | ? ? ? ? _ _ _ Hr1 | ? ? ? ? ? _ _ _ _ Hr2
                  | ? ? ? ? ? ? _ _ _ _ Hs]; subst; try congruence.
  destruct (save_stage _ _ _ _ Hs) as (Hd & _ & Hw).
  destruct (fs_write_cache w (data st2)); destruct Hw as [Hr Hdisk];
    try discriminate. now rewrite Hdisk, Hd.
Qed.

(** C2, as the code has it.  An entry just recorded for a fingerprint is
    not stale for it; an artifact needs a rebuild exactly when it has no
    entry or its entry does not store that very fingerprint string; and
    after a build that returned, a normal build on the same source files
    classifies every unit as cached and submits no compile job, provided
    units that are written to one object path have one fingerprint. *)
Theorem cache_roundtrip_and_rerun w1 w2 cfg config cmd1 jobs1 jobs2 f st1 r2 st2 :
  fair_pool w1 ->
  same_sources w1 w2 ->
  from_file cfg = Returned config ->
  coherent_objects w1 config ->
  main w1 cfg cmd1 jobs1 (boot f) = (Returned tt, st1) ->
  main w2 cfg CmdBuild jobs2 (boot (disk st1)) = (r2, st2) ->
  (forall d obj fp now, needs_rebuild (update_entry d obj fp now) obj fp = false)
  /\ (forall d obj fp,
        needs_rebuild d obj fp = true
        <-> (get_entry d obj = None
             \/ exists e, get_entry d obj = Some e /\ stored_hash e <> Some fp))
  /\ (exists obj_files,
        classify w2 config false (_load (disk st1)) (cpp_sources config) [] []
        = Returned (obj_files, []))
  /\ submitted (trace st2) = [].
Proof.
  intros Hfair Hsame Hff Hcoh Hrun1 Hrun2.
  split; [exact needs_rebuild_after_update|]. split; [exact needs_rebuild_iff|].
  rewrite (main_build _ _ _ _ _ _ Hff) in Hrun1.
  rewrite (main_build _ _ _ _ _ _ Hff) in Hrun2. simpl force_of in Hrun2.
  pose proof (returned_build_persisted _ _ _ _ _ _ Hrun1) as Hdisk.
  destruct (rerun_classifies_fresh w1 w2 config Hfair Hsame Hcoh _ _ _ _ Hrun1)
    as (objs & Hcl).
  rewrite Hdisk in *. simpl _load in *.
  split; [now exists objs|].
  now rewrite (build_no_tasks w2 config false jobs2
                 (Proc (data st1) (Stored (data st1)) [] 0) r2 st2 objs Hcl Hrun2).
Qed.

Lemma cache_roundtrip_and_rerun_witness :
  let sources := ["main.cpp"; "a/x.cpp"] in
  let cfg := ConfigDoc (Demo.doc sources) in
  let first := main Demo.w cfg CmdBuild None (boot NoFile) in
  let second := main Demo.w cfg CmdBuild None (boot (disk (snd first))) in
  fair_pool Demo.w
  /\ same_sources Demo.w Demo.w
  /\ from_file cfg = Returned (Demo.config sources)
  /\ coherent_objects Demo.w (Demo.config sources)
  /\ fst first = Returned tt
  /\ submitted (trace (snd second)) = [].
Proof.
  intros sources cfg first second.
  assert (Hfair : fair_pool Demo.w) by (apply fair_identity; reflexivity).
  assert (Hsame : same_sources Demo.w Demo.w) by (intros p; auto).
  assert (Hcoh : coherent_objects Demo.w (Demo.config sources)).
  { intros s1 s2 t1 t2 H1 H2 E1 E2.
    simpl in H1, H2.
    destruct H1 as [<- | [<- | []]]; destruct H2 as [<- | [<- | []]];
      vm_compute in E1; vm_compute in E2;
      injection E1 as <-; injection E2 as <-; simpl; intros Ho;
      first [reflexivity | discriminate Ho]. }
  assert (Hr : fst first = Returned tt) by (vm_compute; reflexivity).
  assert (Hrun1 : main Demo.w cfg CmdBuild None (boot NoFile) = (Returned tt, snd first))
    by (rewrite <- Hr; apply surjective_pairing).
  split; [exact Hfair|]. split; [exact Hsame|]. split; [reflexivity|].
  split; [exact Hcoh|]. split; [exact Hr|].
  exact (proj2 (proj2 (proj2
    (cache_roundtrip_and_rerun Demo.w Demo.w cfg (Demo.config sources) CmdBuild None None
       NoFile (snd first) (fst second) (snd second)
       Hfair Hsame eq_refl Hcoh Hrun1 (surjective_pairing second))))).
Defined.

(** C2, as stated, fails.  [a/x.cpp] and [b/x.cpp] are both written to
    [build/x.o]; the first build compiles all three units, links and
    returns; the rerun on the unchanged files finds the fingerprint of
    [b/x.cpp] under [build/x.o] and submits [a/x.cpp] again. *)
Lemma rerun_recompiles_shared_object :
  let cfg := ConfigDoc (Demo.doc ["main.cpp"; "a/x.cpp"; "b/x.cpp"]) in
  let first := main Demo.w cfg CmdBuild None (boot NoFile) in
  let second := main Demo.w cfg CmdBuild None (boot (disk (snd first))) in
  fst first = Returned tt
  /\ map task_src (succeeded (trace (snd first))) = ["main.cpp"; "a/x.cpp"; "b/x.cpp"]
  /\ map task_src (submitted (trace (snd second))) = ["a/x.cpp"].
Proof. vm_compute. repeat split. Qed.

(** ** The end-to-end scenarios, run on the demo project *)

(** An empty cache: two jobs, both succeed, the cache afterwards has the two
    object paths as keys, the linker gets both objects, exit code 0. *)
Example scenario_first_build :
  let run := main Demo.w (ConfigDoc (Demo.doc ["main.cpp"; "a/x.cpp"])) CmdBuild None
               (boot NoFile) in
  exit_status (fst run) = 0%Z
  /\ map task_src (submitted (trace (snd run))) = ["main.cpp"; "a/x.cpp"]
  /\ map task_src (succeeded (trace (snd run))) = ["main.cpp"; "a/x.cpp"]
  /\ map fst (map_to_list (_load (disk (snd run)))) = ["build/main.o"; "build/x.o"]
  /\ linker_runs (trace (snd run))
     = [["clang++"; "build/main.o"; "build/x.o"; "-Wall"; "-std=c++20"; "-O0"; "-g";
         "-o"; "build/myproject"]].
Proof. vm_compute. repeat split. Qed.

(** The rerun: no job, the linker still gets both objects, exit code 0. *)
Example scenario_rerun :
  let cfg := ConfigDoc (Demo.doc ["main.cpp"; "a/x.cpp"]) in
  let first := main Demo.w cfg CmdBuild None (boot NoFile) in
  let run := main Demo.w cfg CmdBuild None (boot (disk (snd first))) in
  exit_status (fst run) = 0%Z
  /\ submitted (trace (snd run)) = []
  /\ linker_runs (trace (snd run))
     = [["clang++"; "build/main.o"; "build/x.o"; "-Wall"; "-std=c++20"; "-O0"; "-g";
         "-o"; "build/myproject"]].
Proof. vm_compute. repeat split. Qed.

(** After an edit of [a/x.cpp]: one job, the entry of [main.cpp] as it was. *)
Example scenario_edit :
  let cfg := ConfigDoc (Demo.doc ["main.cpp"; "a/x.cpp"]) in
  let first := main Demo.w cfg CmdBuild None (boot NoFile) in
  let run := main Demo.w_edited cfg CmdBuild None (boot (disk (snd first))) in
  exit_status (fst run) = 0%Z
  /\ map task_src (submitted (trace (snd run))) = ["a/x.cpp"]
  /\ data (snd run) !! "build/main.o" = data (snd first) !! "build/main.o".
Proof. vm_compute. repeat split. Qed.

(** A failing unit next to a succeeding one: both collected, no link, exit
    code 1, the cache file as it was. *)
Example scenario_partial_failure :
  let run := main Demo.w (ConfigDoc (Demo.doc ["broken.cpp"; "main.cpp"])) CmdBuild None
               (boot NoFile) in
  exit_status (fst run) = 1%Z
  /\ collected_jobs (trace (snd run)) = [0; 1]
  /\ map task_src (failed (trace (snd run))) = ["broken.cpp"]
  /\ map task_src (succeeded (trace (snd run))) = ["main.cpp"]
  /\ linker_runs (trace (snd run)) = []
  /\ disk (snd run) = NoFile.
Proof. vm_compute. repeat split. Qed.

(** On Windows the linker output gets the [.exe] suffix. *)
Example scenario_exe_suffix :
  linker_runs (trace (snd (main Demo.w_nt (ConfigDoc (Demo.doc ["main.cpp"])) CmdBuild None
                            (boot NoFile))))
  = [["clang++"; "build/main.o"; "-Wall"; "-std=c++20"; "-O0"; "-g"; "-o";
      "build/myproject.exe"]].
Proof. vm_compute. reflexivity. Qed.

(** * Further properties of the engine *)

(** ** The cache store as a map *)

(** Right after [update_entry(obj, fp1)] the artifact is stale for exactly
    the fingerprints other than [fp1], whatever the store held before and
    whatever the clock read. *)
Theorem needs_rebuild_update_same d obj fp1 now fp :
  needs_rebuild (update_entry d obj fp1 now) obj fp = negb (String.eqb fp1 fp).
Proof.
  unfold needs_rebuild, get_entry, update_entry.
  rewrite lookup_insert_eq. unfold hash_differs. now rewrite lookup_insert_eq.
Qed.

(** Recording one artifact does not change the answer for an artifact with
    another path string. *)
Theorem needs_rebuild_update_other d obj fp1 now obj' fp :
  path_str obj <> path_str obj' ->
  needs_rebuild (update_entry d obj fp1 now) obj' fp = needs_rebuild d obj' fp.
Proof.
  intros Hne. unfold needs_rebuild, get_entry, update_entry.
  now rewrite lookup_insert_ne.
Qed.

Lemma needs_rebuild_update_other_witness :
  path_str (Path "build/a.o") <> path_str (Path "build/b.o")
  /\ needs_rebuild (update_entry ∅ (Path "build/a.o") "f00d" 7) (Path "build/b.o") "f00d"
     = needs_rebuild ∅ (Path "build/b.o") "f00d".
Proof.
  assert (H : path_str (Path "build/a.o") <> path_str (Path "build/b.o"))
    by (vm_compute; discriminate).
  split; [exact H|].
  exact (needs_rebuild_update_other ∅ (Path "build/a.o") "f00d" 7 (Path "build/b.o") "f00d" H).
Defined.

(** [save] then [_load]: a write that lands gives back the in-memory map; a
    write that fails leaves a file that loads as the map loaded before or as
    the empty map, never as anything else. *)
Theorem save_load_roundtrip w st r st' :
  save w st = (r, st') ->
  (r = Returned tt -> _load (disk st') = data st)
  /\ (r <> Returned tt -> _load (disk st') = _load (disk st) \/ _load (disk st') = ∅).
Proof.
  intros H. destruct (save_stage _ _ _ _ H) as (_ & _ & Hw).
  destruct (fs_write_cache w (data st)); destruct Hw as [-> ->]; split;
    try (intros; discriminate); try (intros Hne; now elim Hne); auto.
Qed.

Lemma save_load_roundtrip_witness :
  let st := Proc (update_entry ∅ (Path "build/a.o") "f00d" 7) NoFile [] 0 in
  save Demo.w st = (Returned tt, snd (save Demo.w st))
  /\ _load (disk (snd (save Demo.w st))) = data st.
Proof.
  intros st.
  assert (H : save Demo.w st = (Returned tt, snd (save Demo.w st))) by reflexivity.
  split; [exact H|].
  exact (proj1 (save_load_roundtrip Demo.w st _ _ H) eq_refl).
Defined.

(** ** The size of the worker pool *)

(** The scheduler creates the pool first, with [effective_jobs] workers;
    when that raises, nothing else is done. *)
Lemma pool_event w config tasks jobs st r st' :
  _run_parallel_compilers w config tasks jobs st = (r, st') ->
  if pool_start w (effective_jobs w jobs)
  then exists rest, trace st' = trace st ++ EvPool (effective_jobs w jobs) :: rest
  else r = Raised PoolFailed /\ st' = st.
Proof.
  unfold _run_parallel_compilers.
  destruct (pool_start w (effective_jobs w jobs)); [|intros [= <- <-]; auto].
  destruct (submit_each w config 0 tasks) as [fm [|]].
  - destruct (fold_left _ _ _) as [st1 errors] eqn:Hfold. intros H.
    assert (E : st' = st1) by (destruct errors; injection H; auto).
    destruct (collect_fold w _ _ _ _ _ Hfold) as (_ & Ht & _). subst st'.
    rewrite Ht. unfold log_events. cbn [trace]. rewrite <- app_assoc. simpl.
    eexists. reflexivity.
  - intros [= <- <-]. unfold log_events. cbn [trace]. rewrite <- app_assoc. simpl.
    eexists. reflexivity.
Qed.

(** The size of the pool the scheduler asks for.  A positive [-j] value is
    taken as it is; without [-j], or with a value that is not positive,
    the size is the processor count the operating system reports, and 1
    when it reports none or zero.  So the pool is never asked for less than
    one worker, as long as the system reports no negative count.  That
    size is what the scheduler creates the pool with, before anything
    else; when the pool cannot be created the scheduler ends there. *)
Theorem effective_jobs_positive w jobs :
  (forall n, os_cpu_count w = Some n -> (0 <= n)%Z) ->
  (1 <= effective_jobs w jobs)%Z
  /\ (forall j, jobs = Some j -> (0 < j)%Z -> effective_jobs w jobs = j)
  /\ (jobs = None \/ (exists j, jobs = Some j /\ (j <= 0)%Z) ->
      (forall n, os_cpu_count w = Some n -> n <> 0%Z -> effective_jobs w jobs = n)
      /\ (os_cpu_count w = None \/ os_cpu_count w = Some 0%Z ->
          effective_jobs w jobs = 1%Z))
  /\ (forall config tasks st r st',
        _run_parallel_compilers w config tasks jobs st = (r, st') ->
        if pool_start w (effective_jobs w jobs)
        then exists rest, trace st' = trace st ++ EvPool (effective_jobs w jobs) :: rest
        else r = Raised PoolFailed /\ st' = st).
Proof.
  intros Hcpu.
  assert (Hd : (1 <= match os_cpu_count w with
                     | Some n => if (n =? 0)%Z then 1 else n
                     | None => 1
                     end)%Z).
  { destruct (os_cpu_count w) as [n|] eqn:E; [|lia].
    specialize (Hcpu n eq_refl). destruct (n =? 0)%Z eqn:E0; [lia|].
    apply Z.eqb_neq in E0. lia. }
  split; [|split; [|split]].
  - unfold effective_jobs. destruct jobs as [j|]; [|exact Hd].
    destruct (j <=? 0)%Z eqn:E; [exact Hd|]. apply Z.leb_gt in E. lia.
  - unfold effective_jobs. intros j -> Hj. destruct (j <=? 0)%Z eqn:E; [|reflexivity].
    apply Z.leb_le in E. lia.
  - intros Hjobs.
    assert (E : effective_jobs w jobs
                = match os_cpu_count w with
                  | Some n => if (n =? 0)%Z then 1%Z else n
                  | None => 1%Z
                  end).
    { unfold effective_jobs. destruct Hjobs as [-> | (j & -> & Hj)]; [reflexivity|].
      apply Z.leb_le in Hj. now rewrite Hj. }
    rewrite E. split.
    + intros n -> Hn. apply Z.eqb_neq in Hn. now rewrite Hn.
    + intros [-> | ->]; reflexivity.
  - intros config tasks st r st'. apply pool_event.
Qed.

Lemma effective_jobs_positive_witness :
  (forall n, os_cpu_count Demo.w = Some n -> (0 <= n)%Z)
  /\ (1 <= effective_jobs Demo.w (Some (-3)%Z))%Z
  /\ effective_jobs Demo.w (Some (-3)%Z) = effective_jobs Demo.w None.
Proof.
  assert (H : forall n, os_cpu_count Demo.w = Some n -> (0 <= n)%Z)
    by (intros n [= <-]; lia).
  split; [exact H|].
  split; [exact (proj1 (effective_jobs_positive Demo.w (Some (-3)%Z) H)) | reflexivity].
Defined.

(** ** What the fingerprint does tell apart *)

Lemma flat_encode_one pre post (f f' : string) :
  flat_map PyStr.encode (pre ++ f :: post) = flat_map PyStr.encode (pre ++ f' :: post) ->
  f = f'.
Proof.
  rewrite !flat_map_app. simpl. intros E.
  apply app_inv_head in E. apply app_inv_tail in E. now apply encode_inj.
Qed.

(** Changing exactly one of the strings that are hashed, with all others
    as they were, changes the bytes given to SHA-256: the resolved path, the
    file contents, one base flag, one profile flag or one include
    directory. *)
Theorem hash_input_single_change resolved contents base_flags profile_flags incs :
  (forall resolved', resolved <> resolved' ->
     hash_input resolved contents base_flags profile_flags incs
     <> hash_input resolved' contents base_flags profile_flags incs)
  /\ (forall contents', contents <> contents' ->
        hash_input resolved contents base_flags profile_flags incs
        <> hash_input resolved contents' base_flags profile_flags incs)
  /\ (forall pre f f' post, f <> f' ->
        hash_input resolved contents (pre ++ f :: post) profile_flags incs
        <> hash_input resolved contents (pre ++ f' :: post) profile_flags incs)
  /\ (forall pre f f' post, f <> f' ->
        hash_input resolved contents base_flags (pre ++ f :: post) incs
        <> hash_input resolved contents base_flags (pre ++ f' :: post) incs)
  /\ (forall pre f f' post, f <> f' ->
        hash_input resolved contents base_flags profile_flags (pre ++ f :: post)
        <> hash_input resolved contents base_flags profile_flags (pre ++ f' :: post)).
Proof.
  repeat split; intros; intros E; rewrite !hash_input_flat in E.
  - apply app_inv_tail in E. now apply encode_inj in E.
  - apply app_inv_head in E. now apply app_inv_tail in E.
  - do 2 apply app_inv_head in E. apply app_inv_tail in E.
    now apply flat_encode_one in E.
  - do 3 apply app_inv_head in E. apply app_inv_tail in E.
    now apply flat_encode_one in E.
  - do 4 apply app_inv_head in E. now apply flat_encode_one in E.
Qed.

Lemma hash_input_single_change_witness :
  "-O2" <> "-O3"
  /\ hash_input "/proj/main.cpp" (PyStr.encode "int main() {}") ["-Wall"; "-O2"] ["-g"] ["include"]
     <> hash_input "/proj/main.cpp" (PyStr.encode "int main() {}") ["-Wall"; "-O3"] ["-g"]
          ["include"].
Proof.
  assert (H : "-O2" <> "-O3") by discriminate.
  split; [exact H|].
  exact (proj1 (proj2 (proj2
    (hash_input_single_change "/proj/main.cpp" (PyStr.encode "int main() {}") [] ["-g"]
       ["include"]))) ["-Wall"] "-O2" "-O3" [] H).
Defined.

(** ** Where the objects go *)

(** The object path of a unit lies directly in the output directory, so the
    directory a worker makes before compiling a task of [build] is the
    output directory itself. *)
Theorem worker_makes_output_dir w config job s t :
  unit_task w config s = Some t ->
  exists rest,
    fst (compiler_daemon w job (compiler_cmd config) (compiler_base_flags config)
           (flags (profile config)) (include_dirs config) (task_src t) (task_obj t))
    = EvMkdir (path_str (Path (output_dir config))) :: rest.
Proof.
  intros Ht. unfold unit_task in Ht.
  destruct (unit_object config s) as [o|] eqn:Eo; [|discriminate].
  destruct (unit_fingerprint w config s); [|discriminate].
  injection Ht as <-. simpl.
  pose proof (unit_object_wf _ _ _ Eo) as Hwf.
  unfold compiler_daemon. rewrite (Path_str_roundtrip o Hwf).
  assert (Hpar : path_parent o = Path (output_dir config)).
  { unfold unit_object in Eo.
    destruct (with_suffix_name (Path s) ".o") as [n|] eqn:En; [|discriminate].
    injection Eo as <-. destruct dot_o_plain as [Hs Hl].
    rewrite (path_join_plain _ _ (with_suffix_name_plain _ _ _ (Path_wf s) Hs Hl En)).
    unfold path_parent. simpl. now rewrite removelast_last. }
  rewrite Hpar.
  destruct (fs_mkdir w _); [|now eexists].
  destruct (run_compiler w job _); now eexists.
Qed.

Lemma worker_makes_output_dir_witness :
  let config := Demo.config ["a/x.cpp"] in
  let t := Task "a/x.cpp" "build/x.o"
             "997e87381aa1ab0804d4dfb462f377ae8ff3fa6408f64ed38c066ae9ad6578d6" in
  unit_task Demo.w config "a/x.cpp" = Some t
  /\ exists rest,
       fst (compiler_daemon Demo.w 0 "clang++" ["-Wall"; "-std=c++20"] ["-O0"; "-g"]
              ["include"] "a/x.cpp" "build/x.o")
       = EvMkdir "build" :: rest.
Proof.
  intros config t.
  assert (H : unit_task Demo.w config "a/x.cpp" = Some t) by (vm_compute; reflexivity).
  split; [exact H|].
  exact (worker_makes_output_dir Demo.w config 0 "a/x.cpp" t H).
Defined.

(** ** The name of the binary *)

Lemma lower_app a b : PyStr.lower (a +:+ b) = PyStr.lower a +:+ PyStr.lower b.
Proof. induction a as [|c a IH]; simpl; [reflexivity | now rewrite IH]. Qed.

Lemma lower_length a : String.length (PyStr.lower a) = String.length a.
Proof. induction a as [|c a IH]; simpl; [reflexivity | now rewrite IH]. Qed.

Lemma substring_all s : substring 0 (String.length s) s = s.
Proof. induction s as [|c s IH]; simpl; [reflexivity | now rewrite IH]. Qed.

Lemma substring_app_tail a b :
  substring (String.length a) (String.length b) (a +:+ b) = b.
Proof. induction a as [|c a IH]; simpl; [apply substring_all | exact IH]. Qed.

Lemma endswith_app a b : PyStr.endswith (a +:+ b) b = true.
Proof.
  unfold PyStr.endswith. rewrite length_str_app.
  replace (String.length a + String.length b - String.length b) with (String.length a) by lia.
  rewrite substring_app_tail, String.eqb_refl, andb_true_r.
  apply Nat.leb_le. lia.
Qed.

(** On Windows the name of the linked binary always ends in [.exe], in
    whatever case, and a configured name that already does is kept; on every
    other platform the configured name is kept. *)
Theorem link_binary_name_policy w config :
  (os_name w = "nt" ->
     PyStr.endswith (PyStr.lower (link_binary_name w config)) ".exe" = true
     /\ (PyStr.endswith (PyStr.lower (binary_name config)) ".exe" = true ->
         link_binary_name w config = binary_name config))
  /\ (os_name w <> "nt" -> link_binary_name w config = binary_name config).
Proof.
  unfold link_binary_name. split.
  - intros ->. simpl.
    destruct (PyStr.endswith (PyStr.lower (binary_name config)) ".exe") eqn:E; simpl.
    + split; [exact E | reflexivity].
    + split; [|discriminate]. rewrite lower_app. apply (endswith_app _ ".exe").
  - intros Hne. apply String.eqb_neq in Hne. now rewrite Hne.
Qed.

Lemma link_binary_name_policy_witness :
  os_name Demo.w_nt = "nt"
  /\ PyStr.endswith (PyStr.lower (link_binary_name Demo.w_nt (Demo.config ["main.cpp"])))
       ".exe" = true.
Proof.
  split; [reflexivity|].
  exact (proj1 (proj1 (link_binary_name_policy Demo.w_nt (Demo.config ["main.cpp"]))
                  eq_refl)).
Defined.

(** [_link] runs the command [link_cmd] when there is something to link. *)
Lemma link_stage_cmd w config obj_files st r st' :
  _link w config obj_files st = (r, st') ->
  obj_files <> [] ->
  trace st' = trace st ++ [EvLinkerRun (link_cmd w config obj_files)].
Proof.
  unfold _link. destruct obj_files as [|o rest]; [congruence|]. intros H _.
  unfold bind, emit in H. cbn [log_events] in H.
  fold (link_binary_name w config) in H.
  assert (Hcmd : (((([compiler_cmd config] ++ map path_str (o :: rest))
                    ++ compiler_base_flags config) ++ flags (profile config))
                  ++ ["-o"; path_str (path_join (Path (output_dir config))
                                        (link_binary_name w config))])
                 = link_cmd w config (o :: rest))
    by (unfold link_cmd; now rewrite <- !app_assoc).
  rewrite Hcmd in H.
  destruct (run_linker w (link_cmd w config (o :: rest))) as [rc err| |rc];
    [destruct (rc =? 0)%Z| |]; injection H as _ <-; reflexivity.
Qed.

(** ** The trace of a build, stage by stage *)

(** Once the output directory is made and the classification has returned,
    either the pool does not take the tasks, and the trace of [build] is the
    directory and what the pool did before its exception; or the trace is
    the directory, the compile stage, and one of four tails: nothing (a job
    failed), the cache write alone (nothing to link), the linker run alone
    (the link failed), or the linker run and the cache write. *)
Lemma build_trace w config force_rebuild jobs st r st' obj_files tasks :
  fair_pool w ->
  build w config force_rebuild jobs st = (r, st') ->
  fs_mkdir w (path_str (Path (output_dir config))) = true ->
  classify w config force_rebuild (data st) (cpp_sources config) [] []
  = Returned (obj_files, tasks) ->
  (tasks <> [] /\ pool_takes w jobs (length tasks) = false
   /\ (if pool_start w (effective_jobs w jobs) then r = Raised SubmitFailed
       else r = Raised PoolFailed)
   /\ data st' = data st /\ disk st' = disk st
   /\ trace st' = trace st ++ [EvMkdir (path_str (Path (output_dir config)))]
                  ++ pool_abort_trace w config tasks jobs)
  \/ ((tasks = [] \/ pool_takes w jobs (length tasks) = true)
      /\ exists done tail,
    Permutation done (submit_all w config 0 tasks)
    /\ data_after done (data st) (data st')
    /\ trace st' = trace st ++ [EvMkdir (path_str (Path (output_dir config)))]
                   ++ compile_trace w config tasks jobs done ++ tail
    /\ ((tail = [] /\ forallb fut_ok done = false /\ r = SysExit 1 /\ disk st' = disk st)
        \/ (tail = [EvCacheWrite (data st')] /\ forallb fut_ok done = true
            /\ obj_files = [] /\ (r = Returned tt \/ r = Raised CacheWriteFailed))
        \/ (tail = [EvLinkerRun (link_cmd w config obj_files)]
            /\ forallb fut_ok done = true /\ obj_files <> []
            /\ (r = SysExit 1 \/ r = Raised SpawnFailed) /\ disk st' = disk st)
        \/ (tail = [EvLinkerRun (link_cmd w config obj_files); EvCacheWrite (data st')]
            /\ forallb fut_ok done = true /\ obj_files <> []
            /\ (r = Returned tt \/ r = Raised CacheWriteFailed)))).
Proof.
  intros Hfair H Hmk0 Hcl0. apply build_run_intro in H.
  destruct H as [Hmk | code Hmk Hcl | e Hmk Hcl
                | objs tasks' r1 st1 Hmk Hcl Hc Hr1
                | objs tasks' st1 r2 st2 Hmk Hcl Hc Hl Hr2
                | objs tasks' st1 st2 r st' Hmk Hcl Hc Hl Hs];
    try congruence;
    rewrite Hcl0 in Hcl; injection Hcl as <- <-;
    (destruct (compile_stage_spec w config _ _ _ _ _ Hfair Hc)
      as [(Hne & Htk & Hr & Hdata & Hd & Ht)
         | (Htk & done & Hperm & Hd & Ht & Hr & Hdata)];
     [|right; split; [exact Htk|]; exists done]);
    unfold log_events in Hd, Ht, Hdata; cbn [disk data trace] in Hd, Ht, Hdata.
  - left. split; [assumption|]. split; [assumption|]. split; [assumption|].
    split; [assumption|]. split; [assumption|]. now rewrite Ht, <- app_assoc.
  - exists []. destruct (forallb fut_ok done) eqn:Hok; [congruence|].
    split; [assumption|]. split; [exact Hdata|].
    split; [rewrite Ht, <- !app_assoc, app_nil_r; reflexivity|].
    left. auto.
  - exfalso. destruct (pool_start w _); discriminate.
  - destruct (forallb fut_ok done) eqn:Hok; [|discriminate].
    destruct (link_stage w config _ _ _ _ Hl) as (Hld & Hlk & Hlt).
    destruct obj_files as [|o rest].
    { destruct Hlt as [(_ & -> & _) | (c & _ & Hc')]; [congruence|].
      simpl in Hl. injection Hl as <- _. congruence. }
    exists [EvLinkerRun (link_cmd w config (o :: rest))].
    split; [assumption|]. split; [intros k; rewrite Hld; apply Hdata|].
    split.
    { rewrite (link_stage_cmd _ _ _ _ _ _ Hl) by discriminate.
      rewrite Ht, <- !app_assoc. reflexivity. }
    right. right. left. split; [reflexivity|]. split; [reflexivity|].
    split; [discriminate|]. split; [|congruence].
    destruct Hlt as [(Hnil & _) | (c & _ & Hc')]; [discriminate|].
    subst r2. destruct (run_linker w c) as [rc err| |rc]; [|now right|now right].
    destruct (rc =? 0)%Z; [now elim Hr2 | now left].
  - exfalso. destruct (pool_start w _); discriminate.
  - destruct (forallb fut_ok done) eqn:Hok; [|discriminate].
    destruct (link_stage w config _ _ _ _ Hl) as (Hld & Hlk & Hlt).
    destruct (save_stage w _ _ _ Hs) as (Hsd & Hst & Hsw).
    assert (Hr' : r = Returned tt \/ r = Raised CacheWriteFailed)
      by (destruct (fs_write_cache w (data st2)); destruct Hsw as [-> _]; auto).
    assert (Hda : data_after done (data st) (data st'))
      by (intros k; rewrite Hsd, Hld; apply Hdata).
    destruct obj_files as [|o rest].
    + exists [EvCacheWrite (data st')].
      split; [assumption|]. split; [exact Hda|]. split.
      { simpl in Hl. injection Hl as <-. rewrite Hst, Ht, Hsd, <- !app_assoc. reflexivity. }
      right. left. auto.
    + exists [EvLinkerRun (link_cmd w config (o :: rest)); EvCacheWrite (data st')].
      split; [assumption|]. split; [exact Hda|]. split.
      { rewrite Hst, (link_stage_cmd _ _ _ _ _ _ Hl) by discriminate.
        rewrite Ht, Hsd, <- !app_assoc. reflexivity. }
      right. right. right. split; [reflexivity|]. split; [reflexivity|].
      split; [discriminate | assumption].
Qed.

Lemma sent_tasks_all w jobs tasks :
  tasks = [] \/ pool_takes w jobs (length tasks) = true -> sent_tasks w jobs tasks = tasks.
Proof.
  unfold sent_tasks, pool_takes. intros [-> | H].
  - destruct (pool_start w _); reflexivity.
  - apply andb_true_iff in H as [-> H]. apply Nat.eqb_eq in H. rewrite H. apply firstn_all.
Qed.


(** The jobs a build submits, once the classification has returned. *)
Lemma build_submitted w config force_rebuild jobs st r st' obj_files tasks :
  fair_pool w ->
  build w config force_rebuild jobs st = (r, st') ->
  fs_mkdir w (path_str (Path (output_dir config))) = true ->
  classify w config force_rebuild (data st) (cpp_sources config) [] []
  = Returned (obj_files, tasks) ->
  submitted (trace st') = submitted (trace st) ++ sent_tasks w jobs tasks
  /\ (tasks <> [] -> pool_takes w jobs (length tasks) = false ->
      if pool_start w (effective_jobs w jobs) then r = Raised SubmitFailed
      else r = Raised PoolFailed).
Proof.
  intros Hfair Hb Hmk Hcl.
  destruct (build_trace _ _ _ _ _ _ _ _ _ Hfair Hb Hmk Hcl)
    as [(Hne & Htk & Hr & _ & _ & Ht) | (Htk & done & tail & Hperm & _ & Ht & Hcase)].
  - split; [|now intros _ _]. read_trace Ht. reflexivity.
  - split.
    + rewrite (sent_tasks_all _ _ _ Htk). read_trace Ht.
      destruct Hcase as [(-> & _) | [(-> & _) | [(-> & _) | (-> & _)]]];
        simpl; now rewrite ?app_nil_r.
    + intros Hne Hno. destruct Htk; congruence.
Qed.

Lemma units_length w config sources us :
  units w config sources = Some us -> length us = length sources.
Proof.
  revert us. induction sources as [|s rest IH]; intros us H; simpl in H.
  - now injection H as <-.
  - destruct (unit_pair w config s); [|discriminate].
    destruct (units w config rest) as [us'|]; [|discriminate].
    injection H as <-. simpl. now rewrite (IH us').
Qed.

Lemma returned_build_classified w config force_rebuild jobs st st' :
  build w config force_rebuild jobs st = (Returned tt, st') ->
  fs_mkdir w (path_str (Path (output_dir config))) = true
  /\ exists obj_files tasks,
       classify w config force_rebuild (data st) (cpp_sources config) [] []
       = Returned (obj_files, tasks).
Proof.
  intros H. apply build_run_intro in H.
  inversion H; subst; try congruence; eauto.
Qed.

Lemma units_sources_ok w config us :
  List.Forall (fun s => fs_exists w (path_str (Path s)) = true) (cpp_sources config) ->
  units w config (cpp_sources config) = Some us ->
  sources_ok w config.
Proof.
  unfold sources_ok. revert us.
  induction (cpp_sources config) as [|s rest IH]; intros us HF Hus; [constructor|].
  inversion HF as [|? ? Hex HF']; subst. simpl in Hus.
  destruct (unit_pair w config s) as [u|] eqn:Hu; [|discriminate].
  destruct (units w config rest) as [us'|] eqn:Hus'; [|discriminate].
  constructor; [|eapply IH; eauto].
  split; [assumption|]. apply unit_pair_task in Hu as (_ & Ht & _). eauto.
Qed.

Lemma units_objects w config sources : forall us,
  units w config sources = Some us ->
  map path_str (map fst us) = map task_obj (map snd us).
Proof.
  induction sources as [|s rest IH]; intros us H; simpl in H.
  - now injection H as <-.
  - destruct (unit_pair w config s) as [u|] eqn:Hu; [|discriminate].
    destruct (units w config rest) as [us'|]; [|discriminate].
    injection H as <-. simpl. rewrite (IH us' eq_refl).
    apply unit_pair_task in Hu as (_ & _ & ->). reflexivity.
Qed.

(** ** What a build links *)

(** A run that returns has run the linker exactly once, on the object
    paths of all units of the source list in their order, freshly compiled
    or cached, between the compiler command with the base and profile flags
    and [-o] with the binary under the output directory. *)
Theorem returned_build_links_all_units w cfg config cmd jobs f st' :
  fair_pool w ->
  from_file cfg = Returned config ->
  main w cfg cmd jobs (boot f) = (Returned tt, st') ->
  exists us,
    units w config (cpp_sources config) = Some us
    /\ linker_runs (trace st')
       = [[compiler_cmd config] ++ map task_obj (map snd us)
          ++ compiler_base_flags config ++ flags (profile config)
          ++ ["-o"; path_str (path_join (Path (output_dir config))
                                (link_binary_name w config))]].
Proof.
  intros Hfair Hff Hmain. rewrite (main_build _ _ _ _ _ _ Hff) in Hmain.
  destruct (returned_build_classified _ _ _ _ _ _ Hmain) as (Hmk & objs & tasks & Hcl).
  destruct (classify_returned w config _ _ _ _ _ _ _ Hcl) as (_ & us & Hus & Hobjs & _).
  simpl in Hobjs. exists us. split; [exact Hus|].
  pose proof (units_objects _ _ _ _ Hus) as Hobj.
  assert (Hne : objs <> []).
  { subst objs. intros Hnil. apply map_eq_nil in Hnil. subst us.
    apply units_length in Hus. simpl in Hus.
    apply (from_file_sources _ _ Hff). now apply length_zero_iff_nil. }
  destruct (build_trace _ _ _ _ _ _ _ _ _ Hfair Hmain Hmk Hcl)
    as [(_ & _ & Hr & _) | (_ & done & tail & Hperm & _ & Ht & Hcase)].
  { destruct (pool_start w _); discriminate. }
  cbn [trace] in Ht.
  destruct Hcase as [(_ & _ & Hr & _) | [(_ & _ & Hnil & _) | [(_ & _ & _ & Hr & _)
                    | (-> & _ & _ & _)]]];
    [discriminate | contradiction | destruct Hr; discriminate |].
  read_trace Ht. unfold link_cmd. now rewrite Hobjs, Hobj.
Qed.

Lemma returned_build_links_all_units_witness :
  let sources := ["main.cpp"; "a/x.cpp"] in
  let cfg := ConfigDoc (Demo.doc sources) in
  let first := main Demo.w cfg CmdBuild None (boot NoFile) in
  let run := main Demo.w cfg CmdBuild None (boot (disk (snd first))) in
  fair_pool Demo.w
  /\ from_file cfg = Returned (Demo.config sources)
  /\ fst run = Returned tt
  /\ submitted (trace (snd run)) = []
  /\ exists us,
       units Demo.w (Demo.config sources) sources = Some us
       /\ linker_runs (trace (snd run))
          = [["clang++"] ++ map task_obj (map snd us) ++ ["-Wall"; "-std=c++20"]
             ++ ["-O0"; "-g"] ++ ["-o"; "build/myproject"]].
Proof.
  intros sources cfg first run.
  assert (Hfair : fair_pool Demo.w) by (apply fair_identity; reflexivity).
  assert (Hr : fst run = Returned tt) by (vm_compute; reflexivity).
  assert (Hrun : main Demo.w cfg CmdBuild None (boot (disk (snd first)))
                 = (Returned tt, snd run))
    by (rewrite <- Hr; apply surjective_pairing).
  split; [exact Hfair|]. split; [reflexivity|]. split; [exact Hr|].
  split; [vm_compute; reflexivity|].
  exact (returned_build_links_all_units Demo.w cfg (Demo.config sources) CmdBuild None
           (disk (snd first)) (snd run) Hfair eq_refl Hrun).
Defined.

(** ** What a build compiles *)






(** ** Sources that cannot be fingerprinted *)

(** When some source of the list is missing, has no file name or cannot be
    read, the build ends with a non-zero status before anything is
    compiled: no job is submitted, the linker is not run, and neither the
    cache store nor the cache file changes, wherever in the list the bad
    source stands. *)
Theorem bad_source_stops_build w cfg config cmd jobs f r st' :
  from_file cfg = Returned config ->
  ~ sources_ok w config ->
  main w cfg cmd jobs (boot f) = (r, st') ->
  exit_status r <> 0%Z
  /\ submitted (trace st') = []
  /\ linker_runs (trace st') = []
  /\ cache_writes (trace st') = []
  /\ data st' = _load f
  /\ disk st' = f.
Proof.
  intros Hff Hbad Hmain. rewrite (main_build _ _ _ _ _ _ Hff) in Hmain.
  apply build_run_intro in Hmain.
  assert (Hnot : forall objs tasks,
             classify w config (force_of cmd) (_load f) (cpp_sources config) [] []
             <> Returned (objs, tasks)).
  { intros objs tasks Hcl.
    destruct (classify_returned w config _ _ _ _ _ _ _ Hcl) as (Hex & us & Hus & _).
    apply Hbad. eapply units_sources_ok; eauto. }
  inversion Hmain as [Hmk | code Hmk Hcl | e Hmk Hcl
                     | objs tasks r1 st1 Hmk Hcl
                     | objs tasks st1 r2 st2 Hmk Hcl
                     | objs tasks st1 st2 r0 st0 Hmk Hcl]; subst;
    try (exfalso; eapply Hnot; exact Hcl); simpl.
  - repeat split; discriminate.
  - pose proof (classify_errors w config (force_of cmd) (_load f) (cpp_sources config) [] [])
      as He. simpl in Hcl. rewrite Hcl in He. subst code. repeat split; discriminate.
  - repeat split; discriminate.
Qed.

Lemma bad_source_stops_build_witness :
  let sources := ["main.cpp"; "missing.cpp"] in
  let cfg := ConfigDoc (Demo.doc sources) in
  let run := main Demo.w cfg CmdForceBuild None (boot NoFile) in
  ~ sources_ok Demo.w (Demo.config sources)
  /\ exit_status (fst run) <> 0%Z
  /\ submitted (trace (snd run)) = [].
Proof.
  intros sources cfg run.
  assert (Hbad : ~ sources_ok Demo.w (Demo.config sources)).
  { unfold sources_ok. simpl. intros H.
    inversion H as [|? ? _ H']; subst. inversion H' as [|? ? [Hex _] _]; subst.
    vm_compute in Hex. discriminate. }
  split; [exact Hbad|].
  destruct (bad_source_stops_build Demo.w cfg (Demo.config sources) CmdForceBuild None
              NoFile (fst run) (snd run) eq_refl Hbad (surjective_pairing run))
    as (H1 & H2 & _).
  split; assumption.
Defined.

(** ** Which cache entries a build touches *)

(** After any run of a build, the entry under a key that is not the object
    path of a job that succeeded in this run is the entry that was loaded
    from the cache file: cached units, failed units and artifacts of other
    projects keep their entries. *)
Theorem untouched_entries_kept w cfg config cmd jobs f r st' (k : string) :
  fair_pool w ->
  from_file cfg = Returned config ->
  main w cfg cmd jobs (boot f) = (r, st') ->
  (forall t, In t (succeeded (trace st')) -> task_key t <> k) ->
  data st' !! k = _load f !! k.
Proof.
  intros Hfair Hff Hmain Hk. rewrite (main_build _ _ _ _ _ _ Hff) in Hmain.
  apply build_shape_intro in Hmain; [|assumption].
  assert (Hdone : forall objs tasks done tail,
             Permutation done (submit_all w config 0 tasks) ->
             data_after done (_load f) (data st') ->
             trace st' = [] ++ [EvMkdir (path_str (Path (output_dir config)))]
                         ++ compile_trace w config tasks jobs done ++ tail ->
             succeeded tail = [] ->
             classify w config (force_of cmd) (_load f) (cpp_sources config) [] []
             = Returned (objs, tasks) ->
             data st' !! k = _load f !! k).
  { intros objs tasks done tail Hperm Hdata Ht Htail _.
    destruct (Hdata k) as [[_ Hsame] | (fu & e & Hfu & Hfok & Hfk & _)]; [assumption|].
    exfalso. apply (Hk (fut_task fu)); [|assumption].
    rewrite Ht. autorewrite with readings. simpl. rewrite Htail, app_nil_r.
    apply in_succeeded_done. eauto. }
  destruct Hmain as [-> Hr Hwhy
                    | objs tasks Hcl Hne Hno Hr Hsame Hdisk Ht
                    | objs tasks done Hcl Hperm Hdata Hok -> Hdisk Ht Htk
                    | objs tasks done lcmd Hcl Hperm Hdata Hok Hlink Hdisk Ht Htk
                    | objs tasks done link_evs Hcl Hperm Hdata Hok Hlink Hwrite Ht Htk];
    cbn [trace disk data log_events] in *.
  - reflexivity.
  - now rewrite Hsame.
  - apply (Hdone objs tasks done []); auto. now rewrite app_nil_r.
  - apply (Hdone objs tasks done [EvLinkerRun lcmd]); auto.
  - apply (Hdone objs tasks done (link_evs ++ [EvCacheWrite (data st')])); auto.
    rewrite succeeded_app. destruct Hlink as [[_ ->] | (c & err & -> & _)]; reflexivity.
Qed.

Lemma untouched_entries_kept_witness :
  let sources := ["main.cpp"; "a/x.cpp"] in
  let cfg := ConfigDoc (Demo.doc sources) in
  let first := main Demo.w cfg CmdBuild None (boot NoFile) in
  let run := main Demo.w_edited cfg CmdBuild None (boot (disk (snd first))) in
  fair_pool Demo.w_edited
  /\ map task_key (succeeded (trace (snd run))) = ["build/x.o"]
  /\ data (snd run) !! "build/main.o" = _load (disk (snd first)) !! "build/main.o".
Proof.
  intros sources cfg first run.
  assert (Hfair : fair_pool Demo.w_edited) by (apply fair_identity; reflexivity).
  assert (Hs : map task_key (succeeded (trace (snd run))) = ["build/x.o"])
    by (vm_compute; reflexivity).
  split; [exact Hfair|]. split; [exact Hs|].
  apply (untouched_entries_kept Demo.w_edited cfg (Demo.config sources) CmdBuild None
           (disk (snd first)) (fst run) (snd run) "build/main.o" Hfair eq_refl
           (surjective_pairing run)).
  intros t Ht Hk. apply (in_map task_key) in Ht. rewrite Hs, Hk in Ht.
  destruct Ht as [Ht | []]. discriminate.
Defined.

(** ** The order of completion *)

Lemma forallb_perm {A} (p : A -> bool) l1 l2 :
  Permutation l1 l2 -> forallb p l1 = forallb p l2.
Proof.
  induction 1 as [|x l l' _ IH|x y l|l l' l'' _ IH1 _ IH2]; simpl.
  - reflexivity.
  - now rewrite IH.
  - now rewrite !andb_assoc, (andb_comm (p y) (p x)).
  - now rewrite IH1.
Qed.

Lemma hash_differs_same_stored (e1 e2 : cache_entry) h fp :
  stored_hash e1 = Some h -> stored_hash e2 = Some h ->
  hash_differs e1 fp = hash_differs e2 fp.
Proof.
  unfold stored_hash, hash_differs.
  destruct (e1 !! "hash") as [[| | |h1]|]; try discriminate.
  destruct (e2 !! "hash") as [[| | |h2]|]; try discriminate.
  now intros [= ->] [= ->].
Qed.

(** The completion loop comes to the same verdict and to a cache store that
    answers [needs_rebuild] in the same way for every artifact and
    fingerprint, in whatever order the same futures complete, provided
    futures with the same object path carry the same fingerprint. *)
Theorem completion_order_irrelevant w fs1 fs2 st :
  Permutation fs1 fs2 ->
  (forall fu fu', In fu fs1 -> In fu' fs1 ->
     task_key (fut_task fu) = task_key (fut_task fu') ->
     task_hash (fut_task fu) = task_hash (fut_task fu')) ->
  snd (fold_left (collect w) fs1 (st, false)) = snd (fold_left (collect w) fs2 (st, false))
  /\ disk (fst (fold_left (collect w) fs1 (st, false)))
     = disk (fst (fold_left (collect w) fs2 (st, false)))
  /\ forall obj fp,
       needs_rebuild (data (fst (fold_left (collect w) fs1 (st, false)))) obj fp
       = needs_rebuild (data (fst (fold_left (collect w) fs2 (st, false)))) obj fp.
Proof.
  intros Hperm Hcoh.
  destruct (fold_left (collect w) fs1 (st, false)) as [s1 e1] eqn:H1.
  destruct (fold_left (collect w) fs2 (st, false)) as [s2 e2] eqn:H2.
  destruct (collect_fold w _ _ _ _ _ H1) as (Hd1 & _ & He1).
  destruct (collect_fold w _ _ _ _ _ H2) as (Hd2 & _ & He2).
  simpl. split; [|split].
  - now rewrite He1, He2, (forallb_perm fut_ok _ _ Hperm).
  - congruence.
  - intros obj fp. unfold needs_rebuild, get_entry.
    destruct (collect_fold_data w _ _ _ _ _ (path_str obj) H1)
      as [[Hn1 Hs1] | (fu1 & x1 & Hin1 & Hok1 & Hk1 & Hl1 & Hh1)];
    destruct (collect_fold_data w _ _ _ _ _ (path_str obj) H2)
      as [[Hn2 Hs2] | (fu2 & x2 & Hin2 & Hok2 & Hk2 & Hl2 & Hh2)].
    + now rewrite Hs1, Hs2.
    + exfalso. apply (Hn1 fu2); auto.
      eapply Permutation_in; [apply Permutation_sym; exact Hperm | exact Hin2].
    + exfalso. apply (Hn2 fu1); auto.
      eapply Permutation_in; [exact Hperm | exact Hin1].
    + rewrite Hl1, Hl2. apply (hash_differs_same_stored _ _ (task_hash (fut_task fu1)));
        [assumption|].
      rewrite Hh2. f_equal. symmetry. apply Hcoh; [assumption | | congruence].
      eapply Permutation_in; [apply Permutation_sym; exact Hperm | exact Hin2].
Qed.

Lemma completion_order_irrelevant_witness :
  let config := Demo.config ["main.cpp"; "broken.cpp"; "a/x.cpp"] in
  let fs := submit_all Demo.w config 0
              [Task "main.cpp" "build/main.o" "11"; Task "broken.cpp" "build/broken.o" "22";
               Task "a/x.cpp" "build/x.o" "33"] in
  Permutation fs (rev fs)
  /\ snd (fold_left (collect Demo.w) fs (boot NoFile, false))
     = snd (fold_left (collect Demo.w) (rev fs) (boot NoFile, false))
  /\ needs_rebuild (data (fst (fold_left (collect Demo.w) fs (boot NoFile, false))))
       (Path "build/x.o") "33"
     = needs_rebuild (data (fst (fold_left (collect Demo.w) (rev fs) (boot NoFile, false))))
         (Path "build/x.o") "33".
Proof.
  intros config fs.
  assert (Hperm : Permutation fs (rev fs)) by apply Permutation_rev.
  assert (Hcoh : forall fu fu', In fu fs -> In fu' fs ->
            task_key (fut_task fu) = task_key (fut_task fu') ->
            task_hash (fut_task fu) = task_hash (fut_task fu')).
  { intros fu fu' H H'. simpl in H, H'.
    destruct H as [<- | [<- | [<- | []]]]; destruct H' as [<- | [<- | [<- | []]]];
      vm_compute; intros E; first [reflexivity | discriminate E]. }
  split; [exact Hperm|].
  destruct (completion_order_irrelevant Demo.w fs (rev fs) (boot NoFile) Hperm Hcoh)
    as (H1 & _ & H3).
  split; [exact H1 | apply H3].
Defined.

(** * The rest of the command line *)

(** ** The texts [init] writes *)

Example wrapper_sh_contents_digest :
  SHA256.hexdigest (PyStr.encode wrapper_sh_contents)
  = "f9a3d62d628ca33e635fa6fb0fd18b416cf7bffeb2d2699a8a193aa638ccdc7a".
Proof. vm_compute. reflexivity. Qed.

Example wrapper_bat_contents_digest :
  SHA256.hexdigest (PyStr.encode wrapper_bat_contents)
  = "f46fec33080f1482c062eaeaf73dd8d2fb2d68b7d53a1ae5ac360b0ec2762bee".
Proof. vm_compute. reflexivity. Qed.

Example example_config_digest :
  SHA256.hexdigest (PyStr.encode example_config)
  = "5d340ae736c158d0380282bb9205dcf4606085c76172ac3bb1e083a50b1130fb".
Proof. vm_compute. reflexivity. Qed.

Example example_main_cpp_digest :
  SHA256.hexdigest (PyStr.encode example_main_cpp)
  = "e58a3e47fa394191049a5168b1dd090de2b0665855579da408d89136bcb40ae6".
Proof. vm_compute. reflexivity. Qed.

(** ** [colored] *)

Lemma str_app_nil_r (s : string) : s +:+ "" = s.
Proof.
  induction s as [|c s IH]; [reflexivity|].
  change (String c s +:+ "") with (String c (s +:+ "")). now rewrite IH.
Qed.

Lemma colors_not_empty color code : colors !! color = Some code -> code <> "".
Proof.
  unfold colors. simpl.
  repeat (rewrite lookup_insert; case_decide; [intros [= <-]; discriminate|]).
  rewrite lookup_empty. discriminate.
Qed.

(** A colour name outside the table leaves the text as it is; a name of the
    table, [reset] included, puts its escape code before the text and the
    reset code after it. *)
Theorem colored_wraps text color :
  match colors !! color with
  | None => colored text color = text
  | Some code => colored text color = code +:+ text +:+ ESC +:+ "[0m"
  end.
Proof.
  assert (Hreset : colors !! "reset" = Some (ESC +:+ "[0m")) by (vm_compute; reflexivity).
  unfold colored. rewrite Hreset. destruct (colors !! color) as [code|] eqn:E; simpl.
  - pose proof (colors_not_empty _ _ E) as Hne. apply String.eqb_neq in Hne.
    rewrite Hne. reflexivity.
  - apply str_app_nil_r.
Qed.

(** ** [clean] *)




(** ** The commands and the configuration *)

(** Every command but [init] first loads the configuration: with a missing
    configuration file, or one that lists no source, [clean] and
    [show-config] end with exit status 1 like the two build commands,
    without removing or printing anything; [init] runs all the same. *)
Theorem commands_need_configuration w o env cmd config_path cfg jobs f fs :
  cfg = ConfigMissing
  \/ (exists doc, cfg = ConfigDoc doc /\ get_or (t_sources_cpp doc) [] = []) ->
  match cmd with
  | CliInit =>
      cli_main w o env cmd config_path cfg jobs f fs
      = RanInit (fst (create_example_project_and_wrapper env (Path config_path) fs))
          (snd (create_example_project_and_wrapper env (Path config_path) fs))
  | _ =>
      cli_main w o env cmd config_path cfg jobs f fs = ConfigRefused (SysExit 1)
      /\ cli_status (cli_main w o env cmd config_path cfg jobs f fs) = 1%Z
  end.
Proof.
  intros Hcfg.
  assert (Hff : from_file cfg = SysExit 1).
  { destruct Hcfg as [-> | (doc & -> & Hs)]; [reflexivity|].
    unfold from_file. now rewrite Hs. }
  destruct cmd; simpl; try reflexivity; rewrite Hff; split; reflexivity.
Qed.

Lemma commands_need_configuration_witness :
  let o := {| rmtree_ok := fun _ => true; rmtree_takes_cache := fun _ => false;
              unlink_ok := true |} in
  let env := {| self_text := "print(1)"; self_mode := 420; self_name := "FB2.py";
                self_copy := CopyWhole; new_file_mode := 420; denied := fun _ => false |} in
  cli_main Demo.w o env CliClean "forge.toml" ConfigMissing None (Stored ∅) ∅
  = ConfigRefused (SysExit 1).
Proof.
  intros o env.
  exact (proj1 (commands_need_configuration Demo.w o env CliClean "forge.toml" ConfigMissing
                  None (Stored ∅) ∅ (or_introl eq_refl))).
Defined.

(** ** [init]: what is kept, what is made, and running it again *)

Lemma same_kinds_refl fs : same_kinds fs fs.
Proof. intros k n H. exists n. split; [assumption | tauto]. Qed.

Lemma same_kinds_trans fs1 fs2 fs3 :
  same_kinds fs1 fs2 -> same_kinds fs2 fs3 -> same_kinds fs1 fs3.
Proof.
  intros H12 H23 k n H. destruct (H12 k n H) as (n2 & H2 & E2).
  destruct (H23 k n2 H2) as (n3 & H3 & E3). exists n3. split; [assumption | tauto].
Qed.

Lemma kept_outside_refl keys fs : kept_outside keys fs fs.
Proof. intros k n H _. exact H. Qed.

Lemma kept_outside_trans keys fs1 fs2 fs3 :
  kept_outside keys fs1 fs2 -> kept_outside keys fs2 fs3 -> kept_outside keys fs1 fs3.
Proof. intros H12 H23 k n H Hk. apply H23; [apply H12|]; assumption. Qed.

Lemma subseteq_same_kinds (fs fs' : fsys) : fs ⊆ fs' -> same_kinds fs fs'.
Proof.
  intros Hs k n H. exists n. split; [|tauto].
  exact (lookup_weaken _ _ _ _ H Hs).
Qed.

Lemma subseteq_kept_outside keys (fs fs' : fsys) : fs ⊆ fs' -> kept_outside keys fs fs'.
Proof. intros Hs k n H _. exact (lookup_weaken _ _ _ _ H Hs). Qed.

Lemma io_respects_impl (R R' : fsys -> fsys -> Prop) m :
  (forall fs fs', R fs fs' -> R' fs fs') -> io_respects R m -> io_respects R' m.
Proof. intros HR Hm fs r fs' E. apply HR. exact (Hm fs r fs' E). Qed.

Lemma io_respects_seq (R : fsys -> fsys -> Prop) m k :
  (forall a b c, R a b -> R b c -> R a c) ->
  io_respects R m -> io_respects R k -> io_respects R (io_seq m k).
Proof.
  intros Ht Hm Hk fs r fs' E. unfold io_seq in E.
  destruct (m fs) as [[[]|] fs1] eqn:Em.
  - exact (Ht _ _ _ (Hm _ _ _ Em) (Hk _ _ _ E)).
  - injection E as <- <-. exact (Hm _ _ _ Em).
Qed.

Lemma io_respects_all (R : fsys -> fsys -> Prop) steps :
  (forall a, R a a) -> (forall a b c, R a b -> R b c -> R a c) ->
  List.Forall (io_respects R) steps -> io_respects R (io_all steps).
Proof.
  intros Hr Ht HF. induction HF as [|m rest Hm _ IH]; simpl.
  - intros fs r fs' [= <- <-]. apply Hr.
  - apply io_respects_seq; assumption.
Qed.

(** *** The nodes of a path *)

Lemma fs_node_none fs p :
  fs_node fs p = None -> p_parts p <> [] /\ fs !! path_str p = None.
Proof. unfold fs_node. destruct (p_parts p); [discriminate|]. intros H. split; [discriminate | exact H]. Qed.

Lemma fs_node_file fs p c m :
  fs_node fs p = Some (NFile c m) -> p_parts p <> [] /\ fs !! path_str p = Some (NFile c m).
Proof. unfold fs_node. destruct (p_parts p); [discriminate|]. intros H. split; [discriminate | exact H]. Qed.

Lemma fs_node_lookup fs p : p_parts p <> [] -> fs_node fs p = fs !! path_str p.
Proof. unfold fs_node. destruct (p_parts p); [congruence | reflexivity]. Qed.

Lemma fs_node_dir_kept fs fs' p :
  same_kinds fs fs' -> fs_node fs p = Some NDir -> fs_node fs' p = Some NDir.
Proof.
  unfold fs_node. intros Hk. destruct (p_parts p); [reflexivity|]. intros H.
  destruct (Hk _ _ H) as (n' & H' & E). rewrite H'. f_equal. now apply E.
Qed.

Lemma fs_node_file_kept fs fs' p c m :
  same_kinds fs fs' -> fs_node fs p = Some (NFile c m) ->
  exists c' m', fs_node fs' p = Some (NFile c' m').
Proof.
  intros Hk H. destruct (fs_node_file _ _ _ _ H) as [Hp Hl].
  rewrite (fs_node_lookup _ _ Hp). destruct (Hk _ _ Hl) as (n' & H' & E).
  destruct n' as [|c' m']; [|eauto]. destruct E as [_ E]. specialize (E eq_refl). discriminate.
Qed.

Lemma fs_has_kept fs fs' p : same_kinds fs fs' -> fs_has fs p = true -> fs_has fs' p = true.
Proof.
  unfold fs_has. intros Hk. destruct (fs_node fs p) as [[|c m]|] eqn:E; [| |discriminate]; intros _.
  - now rewrite (fs_node_dir_kept _ _ _ Hk E).
  - destruct (fs_node_file_kept _ _ _ _ _ Hk E) as (c' & m' & ->). reflexivity.
Qed.

Lemma fs_is_dir_kept fs fs' p :
  same_kinds fs fs' -> fs_is_dir fs p = true -> fs_is_dir fs' p = true.
Proof.
  unfold fs_is_dir. intros Hk. destruct (fs_node fs p) as [[|c m]|] eqn:E; try discriminate.
  intros _. now rewrite (fs_node_dir_kept _ _ _ Hk E).
Qed.

Lemma fs_is_dir_node fs p : fs_is_dir fs p = true <-> fs_node fs p = Some NDir.
Proof.
  unfold fs_is_dir. destruct (fs_node fs p) as [[|c m]|]; split; intros H;
    try reflexivity; try discriminate.
Qed.

(** *** The single steps *)

Lemma io_mkdir_subseteq env p : io_respects (⊆) (io_mkdir env p).
Proof.
  intros fs r fs'. unfold io_mkdir.
  destruct (fs_node fs p) as [[|c m]|] eqn:E.
  - intros [= <- <-]. reflexivity.
  - intros [= <- <-]. reflexivity.
  - destruct (fs_node_none _ _ E) as [_ Hl].
    destruct (can_create env fs p); intros [= <- <-]; [|reflexivity].
    now apply insert_subseteq.
Qed.

Lemma io_mkdir_makes env p fs fs1 :
  io_mkdir env p fs = (Some tt, fs1) -> fs_node fs1 p = Some NDir.
Proof.
  unfold io_mkdir. destruct (fs_node fs p) as [[|c m]|] eqn:E.
  - intros [= <-]. exact E.
  - discriminate.
  - destruct (fs_node_none _ _ E) as [Hp _].
    destruct (can_create env fs p); [|discriminate]. intros [= <-].
    rewrite (fs_node_lookup _ _ Hp). apply lookup_insert_eq.
Qed.

Lemma io_mkdir_settles env p : io_settles same_kinds (io_mkdir env p).
Proof.
  intros fs fs1 E fs2 Hk. apply io_mkdir_makes in E.
  unfold io_mkdir. now rewrite (fs_node_dir_kept _ _ _ Hk E).
Qed.

Lemma io_write_text_new env p c fs r fs' :
  fs_has fs p = false -> io_write_text env p c fs = (r, fs') ->
  (r = None /\ fs' = fs)
  \/ (r = Some tt /\ p_parts p <> [] /\ fs !! path_str p = None
      /\ fs' = <[path_str p := NFile c (new_file_mode env)]> fs).
Proof.
  unfold fs_has, io_write_text. destruct (fs_node fs p) as [n|] eqn:E; [discriminate|].
  intros _. destruct (fs_node_none _ _ E) as [Hp Hl].
  destruct (can_create env fs p); intros [= <- <-]; [right | left]; auto.
Qed.

Lemma io_guarded_write_subseteq env p c :
  io_respects (⊆) (io_unless_exists p (io_write_text env p c)).
Proof.
  intros fs r fs'. unfold io_unless_exists. destruct (fs_has fs p) eqn:Eh.
  - intros [= <- <-]. reflexivity.
  - intros E. destruct (io_write_text_new _ _ _ _ _ _ Eh E) as [[_ ->] | (_ & _ & Hl & ->)];
      [reflexivity | now apply insert_subseteq].
Qed.

Lemma io_guarded_script_new env p c fs r fs' :
  fs_has fs p = false ->
  io_seq (io_write_text env p c) (io_make_executable p) fs = (r, fs') ->
  (r = None /\ fs' = fs)
  \/ (r = Some tt /\ p_parts p <> [] /\ fs !! path_str p = None
      /\ fs' = <[path_str p := NFile c (Z.lor (new_file_mode env) 73)]> fs).
Proof.
  intros Eh. unfold io_seq. destruct (io_write_text env p c fs) as [r1 fs1] eqn:E1.
  destruct (io_write_text_new _ _ _ _ _ _ Eh E1) as [[-> ->] | (-> & Hp & Hl & ->)].
  - intros [= <- <-]. now left.
  - unfold io_make_executable. rewrite (fs_node_lookup _ _ Hp), lookup_insert_eq.
    intros [= <- <-]. right. repeat split; auto. apply insert_insert_eq.
Qed.

Lemma io_guarded_script_subseteq env p c :
  io_respects (⊆)
    (io_unless_exists p (io_seq (io_write_text env p c) (io_make_executable p))).
Proof.
  intros fs r fs'. unfold io_unless_exists. destruct (fs_has fs p) eqn:Eh.
  - intros [= <- <-]. reflexivity.
  - intros E. destruct (io_guarded_script_new _ _ _ _ _ _ Eh E) as [[_ ->] | (_ & _ & Hl & ->)];
      [reflexivity | now apply insert_subseteq].
Qed.

Lemma io_unless_exists_makes p body fs fs1 :
  (forall fs fs1, fs_has fs p = false -> body fs = (Some tt, fs1) -> fs_has fs1 p = true) ->
  io_unless_exists p body fs = (Some tt, fs1) -> fs_has fs1 p = true.
Proof.
  intros Hb. unfold io_unless_exists. destruct (fs_has fs p) eqn:Eh.
  - intros [= <-]. exact Eh.
  - apply Hb. exact Eh.
Qed.

Lemma fs_has_insert fs p n : p_parts p <> [] -> fs_has (<[path_str p := n]> fs) p = true.
Proof. intros Hp. unfold fs_has. now rewrite (fs_node_lookup _ _ Hp), lookup_insert_eq. Qed.

Lemma io_guarded_write_makes env p c fs fs1 :
  io_unless_exists p (io_write_text env p c) fs = (Some tt, fs1) -> fs_has fs1 p = true.
Proof.
  apply io_unless_exists_makes. intros fs0 fs0' Eh E.
  destruct (io_write_text_new _ _ _ _ _ _ Eh E) as [[? _] | (_ & Hp & _ & ->)];
    [discriminate | now apply fs_has_insert].
Qed.

Lemma io_guarded_script_makes env p c fs fs1 :
  io_unless_exists p (io_seq (io_write_text env p c) (io_make_executable p)) fs
  = (Some tt, fs1) -> fs_has fs1 p = true.
Proof.
  apply io_unless_exists_makes. intros fs0 fs0' Eh E.
  destruct (io_guarded_script_new _ _ _ _ _ _ Eh E) as [[? _] | (_ & Hp & _ & ->)];
    [discriminate | now apply fs_has_insert].
Qed.

Lemma io_unless_exists_settles p body :
  (forall fs fs1, io_unless_exists p body fs = (Some tt, fs1) -> fs_has fs1 p = true) ->
  io_settles same_kinds (io_unless_exists p body).
Proof.
  intros Hb fs fs1 E fs2 Hk. unfold io_unless_exists.
  now rewrite (fs_has_kept _ _ _ Hk (Hb _ _ E)).
Qed.

Lemma io_settles_all (R : fsys -> fsys -> Prop) steps :
  (forall a, R a a) -> (forall a b c, R a b -> R b c -> R a c) ->
  List.Forall (io_respects R) steps -> List.Forall (io_settles R) steps ->
  io_settles R (io_all steps).
Proof.
  intros Hr Ht HF. induction HF as [|m rest Hm HF IH]; simpl; intros HS.
  - intros fs fs1 _ fs2 _. reflexivity.
  - inversion HS as [|? ? Hsm HSr]; subst. specialize (IH HSr).
    intros fs fs1 E fs2 H12. unfold io_seq in E |- *.
    destruct (m fs) as [[[]|] fsa] eqn:Em; [|discriminate].
    assert (Ha1 : R fsa fs1) by exact (io_respects_all R rest Hr Ht HF _ _ _ E).
    rewrite (Hsm _ _ Em fs2 (Ht _ _ _ Ha1 H12)).
    exact (IH _ _ E _ H12).
Qed.

(** *** The copy of the script *)

Lemma io_copy_self_cases env t fs b fs' :
  io_copy_self env t fs = (b, fs') ->
  let dst := copy_destination env fs t in
  (b = false /\ fs' = fs)
  \/ (denied env (path_str dst) = false
      /\ p_parts dst <> [] /\ fs !! path_str dst <> Some NDir
      /\ ((b = true /\ self_copy env = CopyWhole
           /\ fs' = <[path_str dst := NFile (self_text env) (self_mode env)]> fs)
          \/ (exists written stat_copied,
                b = false /\ self_copy env = CopyBroken written stat_copied
                /\ fs' = <[path_str dst :=
                             NFile written (if stat_copied then self_mode env
                                            else mode_at env fs (path_str dst))]> fs))).
Proof.
  intros E dst. unfold io_copy_self in E. fold dst in E. unfold mode_at.
  destruct (fs_node fs dst) as [[|c m]|] eqn:En.
  - injection E as <- <-; now left.
  - destruct (fs_node_file _ _ _ _ En) as [Hp Hl].
    destruct (denied env (path_str dst)) eqn:Ed; [injection E as <- <-; now left|].
    destruct (self_copy env) as [| |written stat] eqn:Ec; injection E as <- <-;
      [right | now left | right];
      (split; [auto|]; split; [assumption|]; split; [congruence|]).
    + now left.
    + right. exists written, stat. rewrite Hl. auto.
  - destruct (fs_node_none _ _ En) as [Hp Hl]. unfold can_create in E.
    destruct (fs_is_dir fs (path_parent dst)); simpl in E;
      [|injection E as <- <-; now left].
    destruct (denied env (path_str dst)) eqn:Ed; simpl in E; [injection E as <- <-; now left|].
    destruct (self_copy env) as [| |written stat] eqn:Ec; injection E as <- <-;
      [right | now left | right];
      (split; [auto|]; split; [assumption|]; split; [congruence|]).
    + now left.
    + right. exists written, stat. rewrite Hl. auto.
Qed.

(** The copy changes the file system at its destination at most, and puts
    a file there where no directory was. *)
Lemma io_copy_self_at env t fs b fs' :
  io_copy_self env t fs = (b, fs') ->
  let dst := copy_destination env fs t in
  fs' = fs
  \/ (fs !! path_str dst <> Some NDir
      /\ exists c m, fs' = <[path_str dst := NFile c m]> fs).
Proof.
  intros E dst.
  destruct (io_copy_self_cases _ _ _ _ _ E)
    as [[_ ->] | (_ & _ & Hnd & [(_ & _ & ->) | (c & st & _ & _ & ->)])]; eauto.
Qed.

Lemma copy_destination_cases env fs t :
  copy_destination env fs t = t \/ copy_destination env fs t = path_join t (self_name env).
Proof. unfold copy_destination. destruct (fs_is_dir fs t); auto. Qed.

Lemma insert_file_same_kinds (fs : fsys) k c m :
  fs !! k <> Some NDir -> same_kinds fs (<[k := NFile c m]> fs).
Proof.
  intros Hk k' n H. destruct (decide (k = k')) as [<-|Hne].
  - exists (NFile c m). rewrite lookup_insert_eq. split; [reflexivity|].
    split; [intros ->; congruence | discriminate].
  - exists n. rewrite lookup_insert_ne by assumption. split; [assumption | tauto].
Qed.

Lemma io_copy_self_same_kinds env t fs b fs' :
  io_copy_self env t fs = (b, fs') -> same_kinds fs fs'.
Proof.
  intros E. destruct (io_copy_self_at _ _ _ _ _ E) as [-> | (Hd & c & m & ->)].
  - apply same_kinds_refl.
  - now apply insert_file_same_kinds.
Qed.

Lemma io_copy_self_kept env t fs b fs' :
  io_copy_self env t fs = (b, fs') ->
  kept_outside [path_str t; path_str (path_join t (self_name env))] fs fs'.
Proof.
  intros E k n H Hk. destruct (io_copy_self_at _ _ _ _ _ E) as [-> | (_ & c & m & ->)];
    [assumption|].
  rewrite lookup_insert_ne; [assumption|]. intros <-. apply Hk.
  destruct (copy_destination_cases env fs t) as [-> | ->]; simpl; auto.
Qed.

(** Once the copy has put a file at its destination, the destination is
    the same on every file system that keeps the kinds of the one before
    and has that file. *)
Lemma copy_destination_kept env fa fs1 t c m :
  same_kinds fa fs1 ->
  p_parts (copy_destination env fa t) <> [] ->
  fs1 !! path_str (copy_destination env fa t) = Some (NFile c m) ->
  copy_destination env fs1 t = copy_destination env fa t.
Proof.
  intros Hka Hp Hl1. unfold copy_destination in *.
  destruct (fs_is_dir fa t) eqn:Ed.
  - now rewrite (fs_is_dir_kept _ _ _ Hka Ed).
  - unfold fs_is_dir. rewrite (fs_node_lookup _ _ Hp), Hl1. reflexivity.
Qed.

(** A copy that raised raises again, and changes nothing, on the file
    system it left. *)
Lemma io_copy_self_raises_again env t fa fb :
  io_copy_self env t fa = (false, fb) -> io_copy_self env t fb = (false, fb).
Proof.
  intros Ec.
  destruct (io_copy_self_cases _ _ _ _ _ Ec)
    as [[_ ->] | (Hden & Hp & Hnd & [(? & _) | (c & st & _ & Hrun & Hfb)])];
    [assumption | discriminate |].
  set (dst := copy_destination env fa t) in *.
  assert (Hl : fb !! path_str dst
               = Some (NFile c (if st then self_mode env else mode_at env fa (path_str dst))))
    by (rewrite Hfb; apply lookup_insert_eq).
  assert (Hka : same_kinds fa fb) by exact (io_copy_self_same_kinds _ _ _ _ _ Ec).
  assert (Hdst : copy_destination env fb t = dst)
    by exact (copy_destination_kept env fa fb t _ _ Hka Hp Hl).
  unfold io_copy_self. rewrite Hdst, (fs_node_lookup _ _ Hp), Hl, Hden, Hrun.
  f_equal. apply insert_id. rewrite Hl. do 2 f_equal. now destruct st.
Qed.

(** *** [install_wrapper_scripts] and [create_example_project_and_wrapper] *)

Lemma wrappers_respect (R : fsys -> fsys -> Prop) env root :
  (forall a, R a a) -> (forall a b c, R a b -> R b c -> R a c) ->
  (forall a b : fsys, a ⊆ b -> R a b) ->
  io_respects R
    (io_all
       [ io_unless_exists (path_join root WRAPPER_SH)
           (io_seq (io_write_text env (path_join root WRAPPER_SH) wrapper_sh_contents)
              (io_make_executable (path_join root WRAPPER_SH)));
         io_unless_exists (path_join root WRAPPER_BAT)
           (io_write_text env (path_join root WRAPPER_BAT) wrapper_bat_contents) ]).
Proof.
  intros Hr Ht Hs. apply io_respects_all; auto.
  repeat constructor.
  - eapply io_respects_impl; [exact Hs | apply io_guarded_script_subseteq].
  - eapply io_respects_impl; [exact Hs | apply io_guarded_write_subseteq].
Qed.

Lemma install_respects (R : fsys -> fsys -> Prop) env root :
  (forall a, R a a) -> (forall a b c, R a b -> R b c -> R a c) ->
  (forall a b : fsys, a ⊆ b -> R a b) ->
  (forall fs b fs', io_copy_self env (target_script_of root) fs = (b, fs') -> R fs fs') ->
  io_respects R (install_wrapper_scripts env root).
Proof.
  intros Hr Ht Hs Hc. unfold install_wrapper_scripts.
  intros fs r fs'. unfold io_seq at 1.
  destruct (io_mkdir env (path_join root WRAPPER_DIR) fs) as [[[]|] fs1] eqn:Em.
  - pose proof (Hs _ _ (io_mkdir_subseteq _ _ _ _ _ Em)) as H01.
    fold (wrapper_dir_of root). fold (target_script_of root).
    destruct (io_copy_self env (target_script_of root) fs1) as [[|] fs2] eqn:Ec.
    + intros E. pose proof (Hc _ _ _ Ec) as H12.
      pose proof (wrappers_respect R env root Hr Ht Hs _ _ _ E) as H23. eauto.
    + intros [= <- <-]. eauto.
  - intros [= <- <-]. exact (Hs _ _ (io_mkdir_subseteq _ _ _ _ _ Em)).
Qed.

Lemma create_respects (R : fsys -> fsys -> Prop) env config_path :
  (forall a, R a a) -> (forall a b c, R a b -> R b c -> R a c) ->
  (forall a b : fsys, a ⊆ b -> R a b) ->
  (forall fs b fs',
     io_copy_self env (target_script_of (path_parent config_path)) fs = (b, fs') ->
     R fs fs') ->
  io_respects R (create_example_project_and_wrapper env config_path).
Proof.
  intros Hr Ht Hs Hc. unfold create_example_project_and_wrapper.
  apply io_respects_all; auto. repeat constructor.
  - eapply io_respects_impl; [exact Hs | apply io_guarded_write_subseteq].
  - eapply io_respects_impl; [exact Hs | apply io_mkdir_subseteq].
  - eapply io_respects_impl; [exact Hs | apply io_guarded_write_subseteq].
  - eapply io_respects_impl; [exact Hs | apply io_mkdir_subseteq].
  - apply install_respects; auto.
Qed.

Lemma io_all_again (R : fsys -> fsys -> Prop) steps last :
  (forall a, R a a) -> (forall a b c, R a b -> R b c -> R a c) ->
  List.Forall (io_respects R) steps -> List.Forall (io_settles R) steps ->
  io_respects R last ->
  (forall fs fs1, last fs = (Some tt, fs1) -> last fs1 = (Some tt, fs1)) ->
  forall fs fs1,
    io_all (steps ++ [last]) fs = (Some tt, fs1) ->
    io_all (steps ++ [last]) fs1 = (Some tt, fs1).
Proof.
  intros Hr Ht HF HS Hl Hagain. induction HF as [|m rest Hm HF IH]; simpl.
  - intros fs fs1. unfold io_seq, io_ret.
    destruct (last fs) as [[[]|] fa] eqn:E; [|discriminate]. intros [= <-].
    now rewrite (Hagain _ _ E).
  - inversion HS as [|? ? Hsm HSr]; subst. specialize (IH HSr).
    intros fs fs1 E. unfold io_seq in E |- *.
    destruct (m fs) as [[[]|] fa] eqn:Em; [|discriminate].
    assert (Ha1 : R fa fs1).
    { refine (io_respects_all R (rest ++ [last]) Hr Ht _ _ _ _ E).
      apply List.Forall_app. split; [assumption | now constructor]. }
    rewrite (Hsm _ _ Em fs1 Ha1). exact (IH _ _ E).
Qed.

Lemma install_again env root fs fs1 :
  install_wrapper_scripts env root fs = (Some tt, fs1) ->
  install_wrapper_scripts env root fs1 = (Some tt, fs1).
Proof.
  unfold install_wrapper_scripts. fold (wrapper_dir_of root). fold (target_script_of root).
  set (wrappers := io_all _).
  assert (Hw : io_respects (⊆) wrappers).
  { apply (wrappers_respect (⊆) env root); auto. intros a b c Hab Hbc. now transitivity b. }
  assert (Hws : io_settles same_kinds wrappers).
  { apply io_settles_all.
    - apply same_kinds_refl.
    - apply same_kinds_trans.
    - repeat constructor.
      + eapply io_respects_impl; [apply subseteq_same_kinds | apply io_guarded_script_subseteq].
      + eapply io_respects_impl; [apply subseteq_same_kinds | apply io_guarded_write_subseteq].
    - repeat constructor.
      + apply io_unless_exists_settles. intros a b. apply io_guarded_script_makes.
      + apply io_unless_exists_settles. intros a b. apply io_guarded_write_makes. }
  unfold io_seq.
  destruct (io_mkdir env (wrapper_dir_of root) fs) as [[[]|] fa] eqn:Em; [|discriminate].
  destruct (io_copy_self env (target_script_of root) fa) as [[|] fb] eqn:Ec.
  - intros E.
    pose proof (io_copy_self_same_kinds _ _ _ _ _ Ec) as Hab.
    destruct (io_copy_self_cases _ _ _ _ _ Ec)
      as [[? _] | (Hden & Hp & Hnd & [(_ & Hok & Hfb) | (c & st & ? & _)])];
      try discriminate.
    set (dst := copy_destination env fa (target_script_of root)) in *.
    pose proof (Hw _ _ _ E) as Hsub.
    assert (Hka : same_kinds fa fs1).
    { eapply same_kinds_trans; [exact Hab|]. now apply subseteq_same_kinds. }
    rewrite (io_mkdir_settles env _ _ _ Em fs1 Hka).
    assert (Hl1 : fs1 !! path_str dst = Some (NFile (self_text env) (self_mode env))).
    { eapply lookup_weaken; [|exact Hsub]. rewrite Hfb. apply lookup_insert_eq. }
    assert (Hdst : copy_destination env fs1 (target_script_of root) = dst)
      by exact (copy_destination_kept env fa fs1 _ _ _ Hka Hp Hl1).
    assert (Hc1 : io_copy_self env (target_script_of root) fs1 = (true, fs1)).
    { unfold io_copy_self. rewrite Hdst, Hok, (fs_node_lookup _ _ Hp), Hl1, Hden.
      f_equal. now apply insert_id. }
    rewrite Hc1. exact (Hws _ _ E fs1 (same_kinds_refl fs1)).
  - intros [= <-].
    rewrite (io_mkdir_settles env _ _ _ Em fb (io_copy_self_same_kinds _ _ _ _ _ Ec)).
    now rewrite (io_copy_self_raises_again _ _ _ _ Ec).
Qed.

(** Whatever [init] finds is still there when it ends, whether it returns
    or raises: no node disappears, a directory stays a directory and a file
    a file, and every node is unchanged (text and permission bits) unless it
    is the place the running script is copied to, [.forgebuild2/forgebuild2.py]
    under the directory of the configuration file (or, when that is itself a
    directory, the script's name in it). *)
Theorem init_keeps_what_exists env config_path fs r fs' k n :
  create_example_project_and_wrapper env config_path fs = (r, fs') ->
  fs !! k = Some n ->
  let target := target_script_of (path_parent config_path) in
  (exists n', fs' !! k = Some n' /\ (n = NDir <-> n' = NDir))
  /\ (k <> path_str target -> k <> path_str (path_join target (self_name env)) ->
      fs' !! k = Some n).
Proof.
  intros E H target. split.
  - refine (create_respects same_kinds env config_path
              same_kinds_refl same_kinds_trans subseteq_same_kinds _ _ _ _ E k n H).
    intros a b c. apply io_copy_self_same_kinds.
  - intros H1 H2.
    refine (create_respects
              (kept_outside [path_str target; path_str (path_join target (self_name env))])
              env config_path (kept_outside_refl _) (kept_outside_trans _)
              (subseteq_kept_outside _) _ _ _ _ E k n H _).
    + intros a b c. apply io_copy_self_kept.
    + simpl. intros [<- | [<- | []]]; congruence.
Qed.

Lemma init_keeps_what_exists_witness :
  let run := create_example_project_and_wrapper Demo.env (Path "forge.toml") Demo.tree in
  Demo.tree !! "forge.toml" = Some (NFile "project = 1" 384)
  /\ snd run !! "forge.toml" = Some (NFile "project = 1" 384).
Proof.
  intros run.
  assert (H : Demo.tree !! "forge.toml" = Some (NFile "project = 1" 384)) by reflexivity.
  split; [exact H|].
  apply (proj2 (init_keeps_what_exists Demo.env (Path "forge.toml") Demo.tree
                  (fst run) (snd run) "forge.toml" _ (surjective_pairing run) H));
    intros E; vm_compute in E; discriminate.
Defined.

(** Running [init] again on what a returning [init] left returns too and
    changes nothing. *)
Theorem init_twice env config_path fs fs1 :
  create_example_project_and_wrapper env config_path fs = (Some tt, fs1) ->
  create_example_project_and_wrapper env config_path fs1 = (Some tt, fs1).
Proof.
  unfold create_example_project_and_wrapper.
  set (root := path_parent config_path).
  apply (io_all_again same_kinds
           [ io_unless_exists config_path (io_write_text env config_path example_config);
             io_mkdir env (path_join root "src");
             io_unless_exists (path_join (path_join root "src") "main.cpp")
               (io_write_text env (path_join (path_join root "src") "main.cpp")
                  example_main_cpp);
             io_mkdir env (path_join root "include") ]
           (install_wrapper_scripts env root)).
  - apply same_kinds_refl.
  - apply same_kinds_trans.
  - repeat constructor.
    + eapply io_respects_impl; [apply subseteq_same_kinds | apply io_guarded_write_subseteq].
    + eapply io_respects_impl; [apply subseteq_same_kinds | apply io_mkdir_subseteq].
    + eapply io_respects_impl; [apply subseteq_same_kinds | apply io_guarded_write_subseteq].
    + eapply io_respects_impl; [apply subseteq_same_kinds | apply io_mkdir_subseteq].
  - repeat constructor.
    + apply io_unless_exists_settles. intros a b. apply io_guarded_write_makes.
    + apply io_mkdir_settles.
    + apply io_unless_exists_settles. intros a b. apply io_guarded_write_makes.
    + apply io_mkdir_settles.
  - apply install_respects.
    + apply same_kinds_refl.
    + apply same_kinds_trans.
    + apply subseteq_same_kinds.
    + intros a b c. apply io_copy_self_same_kinds.
  - apply install_again.
Qed.

Lemma init_twice_witness :
  let run := create_example_project_and_wrapper Demo.env (Path "forge.toml") Demo.tree in
  fst run = Some tt
  /\ create_example_project_and_wrapper Demo.env (Path "forge.toml") (snd run)
     = (Some tt, snd run).
Proof.
  intros run.
  assert (H : fst run = Some tt) by (vm_compute; reflexivity).
  split; [exact H|].
  apply (init_twice Demo.env (Path "forge.toml") Demo.tree (snd run)).
  rewrite <- H. apply surjective_pairing.
Defined.

Lemma install_makes_dir env root fs fs1 :
  install_wrapper_scripts env root fs = (Some tt, fs1) ->
  fs_is_dir fs1 (wrapper_dir_of root) = true.
Proof.
  intros E.
  assert (Hk : io_respects same_kinds (install_wrapper_scripts env root)).
  { apply install_respects.
    - apply same_kinds_refl.
    - apply same_kinds_trans.
    - apply subseteq_same_kinds.
    - intros a b c. apply io_copy_self_same_kinds. }
  pose proof (install_again _ _ _ _ E) as E1.
  unfold install_wrapper_scripts in E1. fold (wrapper_dir_of root) in E1.
  unfold io_seq in E1.
  destruct (io_mkdir env (wrapper_dir_of root) fs1) as [[[]|] fa] eqn:Em; [|discriminate].
  apply fs_is_dir_node. unfold io_mkdir in Em.
  destruct (fs_node fs1 (wrapper_dir_of root)) as [[|c m]|] eqn:En; [reflexivity|discriminate|].
  exfalso. pose proof (io_mkdir_makes env (wrapper_dir_of root) fs1 fa) as Hm.
  unfold io_mkdir in Hm. rewrite En in Hm.
  destruct (can_create env fs1 (wrapper_dir_of root)); [|discriminate].
  injection Em as <-. specialize (Hm eq_refl).
  destruct (fs_node_none _ _ En) as [Hp Hl].
  destruct (io_copy_self env (target_script_of root) (<[path_str (wrapper_dir_of root):=NDir]> fs1))
    as [[|] fb] eqn:Ec; fold (target_script_of root) in E1; rewrite Ec in E1.
  - assert (Hs : same_kinds (<[path_str (wrapper_dir_of root):=NDir]> fs1) fs1).
    { eapply same_kinds_trans; [exact (io_copy_self_same_kinds _ _ _ _ _ Ec)|].
      apply subseteq_same_kinds.
      refine (wrappers_respect (⊆) env root _ _ _ _ _ _ E1); auto.
      intros a b c Hab Hbc. now transitivity b. }
    pose proof (fs_node_dir_kept _ _ _ Hs Hm). congruence.
  - injection E1 as E1. subst fb.
    pose proof (fs_node_dir_kept _ _ _ (io_copy_self_same_kinds _ _ _ _ _ Ec) Hm). congruence.
Qed.

(** When [init] returns, the starter layout is there: the configuration
    file, [src/] with [main.cpp], [include/] and [.forgebuild2/], all next
    to the configuration file. *)
Theorem init_layout env config_path fs fs1 :
  create_example_project_and_wrapper env config_path fs = (Some tt, fs1) ->
  let root := path_parent config_path in
  fs_has fs1 config_path = true
  /\ fs_is_dir fs1 (path_join root "src") = true
  /\ fs_has fs1 (path_join (path_join root "src") "main.cpp") = true
  /\ fs_is_dir fs1 (path_join root "include") = true
  /\ fs_is_dir fs1 (path_join root WRAPPER_DIR) = true.
Proof.
  intros E root. unfold create_example_project_and_wrapper in E. fold root in E.
  simpl io_all in E. unfold io_seq at 1 in E.
  destruct (io_unless_exists config_path _ fs) as [[[]|] f1] eqn:E1; [|discriminate].
  unfold io_seq at 1 in E.
  destruct (io_mkdir env (path_join root "src") f1) as [[[]|] f2] eqn:E2; [|discriminate].
  unfold io_seq at 1 in E.
  destruct (io_unless_exists (path_join (path_join root "src") "main.cpp") _ f2)
    as [[[]|] f3] eqn:E3; [|discriminate].
  unfold io_seq at 1 in E.
  destruct (io_mkdir env (path_join root "include") f3) as [[[]|] f4] eqn:E4; [|discriminate].
  unfold io_seq at 1 in E.
  destruct (install_wrapper_scripts env root f4) as [[[]|] f5] eqn:E5; [|discriminate].
  injection E as <-.
  assert (H45 : same_kinds f4 f5).
  { refine (install_respects same_kinds env root same_kinds_refl same_kinds_trans
              subseteq_same_kinds _ _ _ _ E5).
    intros a b c. apply io_copy_self_same_kinds. }
  assert (H34 : same_kinds f3 f4)
    by exact (subseteq_same_kinds _ _ (io_mkdir_subseteq _ _ _ _ _ E4)).
  assert (H23 : same_kinds f2 f3)
    by exact (subseteq_same_kinds _ _ (io_guarded_write_subseteq _ _ _ _ _ _ E3)).
  assert (H12 : same_kinds f1 f2)
    by exact (subseteq_same_kinds _ _ (io_mkdir_subseteq _ _ _ _ _ E2)).
  pose proof (same_kinds_trans _ _ _ H34 H45) as H35.
  pose proof (same_kinds_trans _ _ _ H23 H35) as H25.
  pose proof (same_kinds_trans _ _ _ H12 H25) as H15.
  repeat split.
  - exact (fs_has_kept _ _ _ H15 (io_guarded_write_makes _ _ _ _ _ E1)).
  - apply (fs_is_dir_kept _ _ _ H25). apply fs_is_dir_node. exact (io_mkdir_makes _ _ _ _ E2).
  - exact (fs_has_kept _ _ _ H35 (io_guarded_write_makes _ _ _ _ _ E3)).
  - apply (fs_is_dir_kept _ _ _ H45). apply fs_is_dir_node. exact (io_mkdir_makes _ _ _ _ E4).
  - exact (install_makes_dir _ _ _ _ E5).
Qed.

Lemma init_layout_witness :
  let run := create_example_project_and_wrapper Demo.env (Path "forge.toml") ∅ in
  fst run = Some tt
  /\ fs_has (snd run) (Path "forge.toml") = true
  /\ fs_is_dir (snd run) (Path "src") = true
  /\ fs_has (snd run) (Path "src/main.cpp") = true
  /\ fs_is_dir (snd run) (Path "include") = true
  /\ fs_is_dir (snd run) (Path ".forgebuild2") = true.
Proof.
  intros run.
  assert (H : fst run = Some tt) by (vm_compute; reflexivity).
  split; [exact H|].
  apply (init_layout Demo.env (Path "forge.toml") ∅ (snd run)).
  rewrite <- H. apply surjective_pairing.
Defined.

(** *** The launchers *)

Lemma fs_has_insert_ne fs k n p :
  k <> path_str p -> fs_has (<[k := n]> fs) p = fs_has fs p.
Proof.
  intros Hk. unfold fs_has, fs_node. destruct (p_parts p); [reflexivity|].
  now rewrite lookup_insert_ne.
Qed.

Lemma io_mkdir_cases env p fs r fs' :
  io_mkdir env p fs = (r, fs') -> fs' = fs \/ fs' = <[path_str p := NDir]> fs.
Proof.
  unfold io_mkdir. destruct (fs_node fs p) as [[|c m]|]; try (intros [= <- <-]; now left).
  destruct (can_create env fs p); intros [= <- <-]; auto.
Qed.

Lemma path_str_ne p q :
  wf_path p -> wf_path q -> p_parts p <> p_parts q -> path_str p <> path_str q.
Proof. intros Hp Hq Hne E. apply Hne. now rewrite (path_str_inj p q Hp Hq E). Qed.

Lemma plain_WRAPPER_DIR : plain_component WRAPPER_DIR.
Proof. split; reflexivity. Qed.
Lemma plain_WRAPPER_SCRIPT_NAME : plain_component WRAPPER_SCRIPT_NAME.
Proof. split; reflexivity. Qed.
Lemma plain_WRAPPER_SH : plain_component WRAPPER_SH.
Proof. split; reflexivity. Qed.
Lemma plain_WRAPPER_BAT : plain_component WRAPPER_BAT.
Proof. split; reflexivity. Qed.

(** The launchers are stored apart from each other, from [.forgebuild2/]
    and from the copy of the script. *)
Lemma launcher_keys env root fs n :
  wf_path root -> plain_component (self_name env) ->
  n = WRAPPER_SH \/ n = WRAPPER_BAT ->
  path_str (wrapper_dir_of root) <> path_str (path_join root n)
  /\ path_str (copy_destination env fs (target_script_of root)) <> path_str (path_join root n).
Proof.
  intros Hwf Hself Hn.
  assert (Hpn : plain_component n)
    by (destruct Hn as [-> | ->]; [apply plain_WRAPPER_SH | apply plain_WRAPPER_BAT]).
  pose proof (path_join_wf _ _ Hwf Hpn) as Hwn.
  pose proof (path_join_wf _ _ Hwf plain_WRAPPER_DIR) as Hwd.
  pose proof (path_join_wf _ _ Hwd plain_WRAPPER_SCRIPT_NAME) as Hwt.
  pose proof (path_join_wf _ _ Hwt Hself) as Hws.
  split.
  - apply path_str_ne; auto. unfold wrapper_dir_of.
    rewrite (path_join_plain _ _ plain_WRAPPER_DIR), (path_join_plain _ _ Hpn). simpl.
    intros E. apply app_inj_tail in E. destruct E as [_ E].
    destruct Hn as [-> | ->]; discriminate.
  - destruct (copy_destination_cases env fs (target_script_of root)) as [-> | ->];
      apply path_str_ne; auto; unfold target_script_of, wrapper_dir_of;
      rewrite ?(path_join_plain _ _ Hself), !(path_join_plain _ _ plain_WRAPPER_SCRIPT_NAME),
        !(path_join_plain _ _ plain_WRAPPER_DIR), (path_join_plain _ _ Hpn); simpl;
      intros E; apply (f_equal (@List.length string)) in E;
      rewrite !length_app in E; simpl in E; lia.
Qed.

Lemma launcher_keys_apart root :
  wf_path root -> path_str (path_join root WRAPPER_SH) <> path_str (path_join root WRAPPER_BAT).
Proof.
  intros Hwf. apply path_str_ne; try (apply path_join_wf; auto using plain_WRAPPER_SH, plain_WRAPPER_BAT).
  rewrite (path_join_plain _ _ plain_WRAPPER_SH), (path_join_plain _ _ plain_WRAPPER_BAT). simpl.
  intros E. apply app_inj_tail in E. destruct E as [_ E]. discriminate.
Qed.

(** A launcher that a returning [install_wrapper_scripts] created, one that
    was not there before and is there after, has the text of the source;
    [forgew] has the permission bits of a new file with the three execute
    bits added, [forgew.bat] those of a new file. *)
Theorem created_launchers env root fs fs' :
  wf_path root -> plain_component (self_name env) ->
  install_wrapper_scripts env root fs = (Some tt, fs') ->
  (fs_has fs (path_join root WRAPPER_SH) = false ->
   fs_has fs' (path_join root WRAPPER_SH) = true ->
   fs_node fs' (path_join root WRAPPER_SH)
   = Some (NFile wrapper_sh_contents (Z.lor (new_file_mode env) 73)))
  /\ (fs_has fs (path_join root WRAPPER_BAT) = false ->
      fs_has fs' (path_join root WRAPPER_BAT) = true ->
      fs_node fs' (path_join root WRAPPER_BAT)
      = Some (NFile wrapper_bat_contents (new_file_mode env))).
Proof.
  intros Hwf Hself E.
  unfold install_wrapper_scripts in E. fold (wrapper_dir_of root) in E.
  fold (target_script_of root) in E. unfold io_seq at 1 in E.
  destruct (io_mkdir env (wrapper_dir_of root) fs) as [[[]|] fa] eqn:Em; [|discriminate].
  assert (Hfa : forall n, n = WRAPPER_SH \/ n = WRAPPER_BAT ->
                  fs_has fa (path_join root n) = fs_has fs (path_join root n)).
  { intros n Hn. destruct (io_mkdir_cases _ _ _ _ _ Em) as [-> | ->]; [reflexivity|].
    apply fs_has_insert_ne. exact (proj1 (launcher_keys env root fs n Hwf Hself Hn)). }
  destruct (io_copy_self env (target_script_of root) fa) as [b fb] eqn:Ec.
  assert (Hfb' : forall n, n = WRAPPER_SH \/ n = WRAPPER_BAT ->
                  fs_has fb (path_join root n) = fs_has fs (path_join root n)).
  { intros n Hn. rewrite <- (Hfa n Hn).
    destruct (io_copy_self_at _ _ _ _ _ Ec) as [-> | (_ & c & m & ->)]; [reflexivity|].
    apply fs_has_insert_ne.
    exact (proj2 (launcher_keys env root fa n Hwf Hself Hn)). }
  destruct b.
  - clear Hfa Ec Em. simpl io_all in E. unfold io_seq at 1 in E.
    destruct (io_unless_exists (path_join root WRAPPER_SH) _ fb) as [[[]|] fc] eqn:E1;
      [|discriminate].
    unfold io_seq at 1 in E.
    destruct (io_unless_exists (path_join root WRAPPER_BAT) _ fc) as [[[]|] fd] eqn:E2;
      [|discriminate].
    injection E as <-.
    pose proof (launcher_keys_apart root Hwf) as Hne.
    unfold io_unless_exists in E1, E2.
    split; intros Hbefore _.
    + rewrite <- (Hfb' WRAPPER_SH (or_introl eq_refl)) in Hbefore. rewrite Hbefore in E1.
      destruct (io_guarded_script_new _ _ _ _ _ _ Hbefore E1)
        as [[? _] | (_ & Hp & _ & ->)]; [discriminate|].
      rewrite (fs_node_lookup _ _ Hp).
      destruct (fs_has _ (path_join root WRAPPER_BAT)) eqn:Eb.
      * injection E2 as <-. apply lookup_insert_eq.
      * destruct (io_write_text_new _ _ _ _ _ _ Eb E2) as [[? _] | (_ & _ & _ & ->)];
          [discriminate|].
        rewrite lookup_insert_ne by (intros X; apply Hne; now rewrite X).
        apply lookup_insert_eq.
    + rewrite <- (Hfb' WRAPPER_BAT (or_intror eq_refl)) in Hbefore.
      assert (Hc : fs_has fc (path_join root WRAPPER_BAT) = false).
      { destruct (fs_has fb (path_join root WRAPPER_SH)) eqn:Es.
        - injection E1 as <-. exact Hbefore.
        - destruct (io_guarded_script_new _ _ _ _ _ _ Es E1)
            as [[? _] | (_ & _ & _ & ->)]; [discriminate|].
          rewrite fs_has_insert_ne; [exact Hbefore | exact Hne]. }
      rewrite Hc in E2.
      destruct (io_write_text_new _ _ _ _ _ _ Hc E2) as [[? _] | (_ & Hp & _ & ->)];
        [discriminate|].
      rewrite (fs_node_lookup _ _ Hp). apply lookup_insert_eq.
  - injection E as <-.
    split; intros Hbefore Hafter.
    + rewrite (Hfb' WRAPPER_SH (or_introl eq_refl)) in Hafter. congruence.
    + rewrite (Hfb' WRAPPER_BAT (or_intror eq_refl)) in Hafter. congruence.
Qed.

Lemma created_launchers_witness :
  let run := install_wrapper_scripts Demo.env (Path ".") Demo.tree in
  fst run = Some tt
  /\ fs_node (snd run) (Path "forgew") = Some (NFile wrapper_sh_contents 493)
  /\ fs_node (snd run) (Path "forgew.bat") = Some (NFile wrapper_bat_contents 420).
Proof.
  intros run.
  assert (H : fst run = Some tt) by (vm_compute; reflexivity).
  assert (Hrun : run = (Some tt, snd run)) by (rewrite <- H; apply surjective_pairing).
  assert (Hwf : wf_path (Path ".")) by apply Path_wf.
  assert (Hself : plain_component (self_name Demo.env)) by (split; reflexivity).
  destruct (created_launchers Demo.env (Path ".") Demo.tree (snd run) Hwf Hself Hrun)
    as [Hsh Hbat].
  split; [exact H|]. split.
  - apply Hsh; vm_compute; reflexivity.
  - apply Hbat; vm_compute; reflexivity.
Defined.

(** *** A copy that fails *)




(** ** Runs that stop, and the exit status *)

Lemma done_succeeded_submitted w config tasks done t :
  Permutation done (submit_all w config 0 tasks) ->
  In t (map fut_task (List.filter fut_ok done)) -> In t tasks.
Proof.
  intros Hperm Hin. apply in_map_iff in Hin as (fu & <- & Hfu).
  apply filter_In in Hfu as [Hfu _].
  rewrite <- (submit_all_tasks w config tasks 0). apply in_map.
  eapply Permutation_in; eauto.
Qed.

(** Environments with the same source files classify alike. *)
Lemma same_sources_classify w1 w2 config force_rebuild d sources :
  same_sources w1 w2 ->
  forall obj_files tasks,
    classify w2 config force_rebuild d sources obj_files tasks
    = classify w1 config force_rebuild d sources obj_files tasks.
Proof.
  intros Hs. induction sources as [|s rest IH]; intros objs tasks; simpl; [reflexivity|].
  assert (E : classify_unit w2 config force_rebuild d s
              = classify_unit w1 config force_rebuild d s).
  { unfold classify_unit, hash_source.
    destruct (Hs (path_str (Path s))) as (-> & -> & ->). reflexivity. }
  rewrite E.
  destruct (classify_unit w1 config force_rebuild d s) as [[o [t|]]|code|e]; auto.
Qed.

Lemma sent_tasks_nil w jobs : sent_tasks w jobs [] = [].
Proof. apply sent_tasks_all. now left. Qed.

(** The jobs a run of [main] submits, when the output directory can be
    made. *)
Lemma main_submitted w cfg cmd jobs f r st' :
  fair_pool w ->
  (forall config, from_file cfg = Returned config ->
     fs_mkdir w (path_str (Path (output_dir config))) = true) ->
  main w cfg cmd jobs (boot f) = (r, st') ->
  submitted (trace st') = sent_tasks w jobs (compile_tasks_of w cfg cmd f)
  /\ (compile_tasks_of w cfg cmd f <> [] ->
      pool_takes w jobs (length (compile_tasks_of w cfg cmd f)) = false ->
      if pool_start w (effective_jobs w jobs) then r = Raised SubmitFailed
      else r = Raised PoolFailed).
Proof.
  intros Hfair Hmk Hmain. unfold compile_tasks_of.
  destruct (from_file cfg) as [config|code|e] eqn:Hff.
  - specialize (Hmk config eq_refl).
    rewrite (main_build _ _ _ _ _ _ Hff) in Hmain.
    destruct (classify w config (force_of cmd) (_load f) (cpp_sources config) [] [])
      as [[objs tasks]|code|e] eqn:Hcl.
    + destruct (build_submitted _ _ _ _ _ _ _ _ _ Hfair Hmain Hmk Hcl) as [Hs Hr].
      split; [exact Hs | exact Hr].
    + split; [|congruence]. rewrite sent_tasks_nil.
      apply build_run_intro in Hmain. cbn [data] in Hmain.
      inversion Hmain; subst; cbn [data] in *; try congruence; reflexivity.
    + split; [|congruence]. rewrite sent_tasks_nil.
      apply build_run_intro in Hmain. cbn [data] in Hmain.
      inversion Hmain; subst; cbn [data] in *; try congruence; reflexivity.
  - split; [|congruence]. unfold main in Hmain. rewrite Hff in Hmain.
    injection Hmain as <- <-. now rewrite sent_tasks_nil.
  - split; [|congruence]. unfold main in Hmain. rewrite Hff in Hmain.
    injection Hmain as <- <-. now rewrite sent_tasks_nil.
Qed.

(** A run of [main] that ends with [sys.exit]: the status, the cache file
    and the jobs that had succeeded. *)
Lemma main_stopped w cfg cmd jobs f code st' :
  fair_pool w ->
  main w cfg cmd jobs (boot f) = (SysExit code, st') ->
  code = 1%Z /\ disk st' = f /\ cache_writes (trace st') = []
  /\ incl (succeeded (trace st')) (submitted (trace st'))
  /\ submitted (trace st') = compile_tasks_of w cfg cmd f.
Proof.
  intros Hfair Hmain.
  assert (Hmk : forall config, from_file cfg = Returned config ->
                  fs_mkdir w (path_str (Path (output_dir config))) = true).
  { intros config Hff. rewrite (main_build _ _ _ _ _ _ Hff) in Hmain.
    apply build_run_intro in Hmain. inversion Hmain; subst; auto. }
  assert (Hsub : submitted (trace st') = compile_tasks_of w cfg cmd f).
  { destruct (main_submitted _ _ _ _ _ _ _ Hfair Hmk Hmain) as [Hs Hr]. rewrite Hs.
    apply sent_tasks_all.
    destruct (compile_tasks_of w cfg cmd f) as [|t ts] eqn:Ht; [now left | right].
    destruct (pool_takes w jobs (length (t :: ts))) eqn:Hp; [reflexivity|].
    specialize (Hr ltac:(discriminate) eq_refl).
    destruct (pool_start w _); discriminate. }
  cut (code = 1%Z /\ disk st' = f /\ cache_writes (trace st') = []
       /\ incl (succeeded (trace st')) (submitted (trace st'))).
  { intros (H1 & H2 & H3 & H4). auto. }
  clear Hsub Hmk.
  destruct (main_cases _ _ _ _ _ _ _ Hmain) as [(config & Hff & Hb) | (-> & Hr)].
  2:{ destruct Hr as [[= ->] | ?]; [|discriminate]. repeat split. intros t []. }
  apply build_shape_intro in Hb; [|assumption].
  destruct Hb as [-> Hr Hwhy
                 | objs tasks Hcl Hne Hno Hr Hsame Hdisk Ht
                 | objs tasks done Hcl Hperm Hdata Hok Hr Hdisk Ht Htk
                 | objs tasks done lcmd Hcl Hperm Hdata Hok Hlink Hdisk Ht Htk
                 | objs tasks done link_evs Hcl Hperm Hdata Hok Hlink Hwrite Ht Htk];
    cbn [trace disk data log_events] in *.
  - destruct Hr as [? | [[= ->] | [? | ?]]]; try discriminate.
    repeat split. intros t [].
  - destruct (pool_start w _); discriminate.
  - injection Hr as ->. split; [reflexivity|]. split; [assumption|].
    read_trace Ht. rewrite ?succeeded_app, ?submitted_app, ?cache_writes_app. simpl.
    rewrite ?app_nil_r.
    rewrite ?(compile_trace_succeeded w config _ _ _ Hperm),
      ?(compile_trace_submitted w config _ _ _ Hperm),
      ?(compile_trace_cache_writes w config _ _ _ Hperm).
    split; [reflexivity|].
    intros t. apply (done_succeeded_submitted w config). exact Hperm.
  - destruct Hlink as [(rc & err & _ & _ & [= ->]) | (_ & ?)]; [|discriminate].
    split; [reflexivity|]. split; [assumption|].
    read_trace Ht. rewrite ?succeeded_app, ?submitted_app, ?cache_writes_app. simpl.
    rewrite ?app_nil_r.
    rewrite ?(compile_trace_succeeded w config _ _ _ Hperm),
      ?(compile_trace_submitted w config _ _ _ Hperm),
      ?(compile_trace_cache_writes w config _ _ _ Hperm).
    split; [reflexivity|].
    intros t. apply (done_succeeded_submitted w config). exact Hperm.
  - destruct (fs_write_cache w (data st')); destruct Hwrite; discriminate.
Qed.

(** A build that ends with [sys.exit] (a source that is missing, a compile
    job that failed, a link that failed) ends with status 1 and has written
    nothing to the cache file, which is as it was found, so the successes
    of its compile jobs are lost.  The same command run next on the same
    source files, whatever the compiler, the linker and the pool do this
    time, has the compile tasks of the first run, those that had succeeded
    included: it submits them as far as the pool takes them, and all of
    them when the pool can be created and accepts every submission. *)
Theorem stopped_build_starts_over w w2 cfg cmd jobs jobs2 f code st' r2 st2 :
  fair_pool w -> fair_pool w2 ->
  same_sources w w2 ->
  (forall config, from_file cfg = Returned config ->
     fs_mkdir w2 (path_str (Path (output_dir config))) = true) ->
  main w cfg cmd jobs (boot f) = (SysExit code, st') ->
  main w2 cfg cmd jobs2 (boot (disk st')) = (r2, st2) ->
  code = 1%Z
  /\ disk st' = f
  /\ cache_writes (trace st') = []
  /\ submitted (trace st2) = sent_tasks w2 jobs2 (submitted (trace st'))
  /\ (pool_takes w2 jobs2 (length (submitted (trace st'))) = true ->
      submitted (trace st2) = submitted (trace st')
      /\ forall t, In t (succeeded (trace st')) -> In t (submitted (trace st2))).
Proof.
  intros Hfair Hfair2 Hsame Hmk Hmain Hmain2.
  destruct (main_stopped _ _ _ _ _ _ _ Hfair Hmain) as (Hc & Hd & Hcw & Hs & Hsub).
  assert (Htasks : compile_tasks_of w2 cfg cmd (disk st') = submitted (trace st')).
  { rewrite Hsub, Hd. unfold compile_tasks_of.
    destruct (from_file cfg) as [config|c|e]; [|reflexivity..].
    now rewrite (same_sources_classify w w2). }
  destruct (main_submitted _ _ _ _ _ _ _ Hfair2 Hmk Hmain2) as [Hs2 _].
  rewrite Htasks in Hs2.
  split; [exact Hc|]. split; [exact Hd|]. split; [exact Hcw|]. split; [exact Hs2|].
  intros Hp.
  assert (E : submitted (trace st2) = submitted (trace st'))
    by (rewrite Hs2; apply sent_tasks_all; now right).
  split; [exact E|]. intros t Ht. rewrite E. now apply Hs.
Qed.

Lemma stopped_build_starts_over_witness :
  let cfg := ConfigDoc (Demo.doc ["main.cpp"; "broken.cpp"]) in
  let w2 := Demo.with_compiler (fun _ _ => Completed 0 EmptyString) Demo.w in
  let run := main Demo.w cfg CmdBuild None (boot NoFile) in
  let rerun := main w2 cfg CmdBuild None (boot (disk (snd run))) in
  fair_pool Demo.w /\ fair_pool w2 /\ same_sources Demo.w w2
  /\ fst run = SysExit 1
  /\ map task_src (succeeded (trace (snd run))) = ["main.cpp"]
  /\ pool_takes w2 None (length (submitted (trace (snd run)))) = true
  /\ fst rerun = Returned tt
  /\ map task_src (submitted (trace (snd rerun))) = ["main.cpp"; "broken.cpp"]
  /\ submitted (trace (snd rerun)) = submitted (trace (snd run)).
Proof.
  intros cfg w2 run rerun.
  assert (Hfair : fair_pool Demo.w) by (apply fair_identity; reflexivity).
  assert (Hfair2 : fair_pool w2) by (apply fair_identity; reflexivity).
  assert (Hsame : same_sources Demo.w w2) by (intros p; auto).
  assert (Hr : fst run = SysExit 1) by (vm_compute; reflexivity).
  assert (Hrun : run = (SysExit 1, snd run)) by (rewrite <- Hr; apply surjective_pairing).
  assert (Hp : pool_takes w2 None (length (submitted (trace (snd run)))) = true)
    by (vm_compute; reflexivity).
  split; [exact Hfair|]. split; [exact Hfair2|]. split; [exact Hsame|].
  split; [exact Hr|]. split; [vm_compute; reflexivity|]. split; [exact Hp|].
  split; [vm_compute; reflexivity|]. split; [vm_compute; reflexivity|].
  refine (proj1 (proj2 (proj2 (proj2 (proj2
    (stopped_build_starts_over Demo.w w2 cfg CmdBuild None None NoFile 1 (snd run)
       (fst rerun) (snd rerun) Hfair Hfair2 Hsame _ Hrun (surjective_pairing rerun)))))
    Hp)).
  intros config [= <-]. reflexivity.
Defined.

Lemma main_status w cfg cmd jobs f :
  fair_pool w ->
  exit_status (fst (main w cfg cmd jobs (boot f))) = 0%Z
  \/ exit_status (fst (main w cfg cmd jobs (boot f))) = 1%Z.
Proof.
  intros Hfair. destruct (main w cfg cmd jobs (boot f)) as [r st'] eqn:Hmain.
  destruct r as [[]|code|e]; simpl; auto.
  right. exact (proj1 (main_stopped _ _ _ _ _ _ _ Hfair Hmain)).
Qed.

Lemma from_file_status cfg :
  match from_file cfg with
  | Returned _ => True
  | r => exit_status r = 1%Z
  end.
Proof.
  destruct cfg as [| |doc]; simpl; try reflexivity.
  unfold from_file. destruct (get_or (t_sources_cpp doc) []); [reflexivity | exact I].
Qed.

(** The exit status of the program.  A command line that [argparse]
    refuses (no command or an unknown one, an unknown option, a job count
    that is no integer) ends the program with status 2, before anything
    is done; [-h] ends it with status 0.  Once the command line is parsed,
    the status is 0 or 1, whatever the command: every [sys.exit] of the
    code has status 1, and so has an exception that leaves [main], like
    the one [show-config] raises on a configuration that holds a date. *)
Theorem cli_status_by_command_line w o env args cfg f fs :
  fair_pool w ->
  match args with
  | ArgsRejected => cli_status (cli_program w o env args cfg f fs) = 2%Z
  | ArgsHelp => cli_status (cli_program w o env args cfg f fs) = 0%Z
  | ArgsParsed cmd config_path jobs =>
      cli_program w o env args cfg f fs = cli_main w o env cmd config_path cfg jobs f fs
      /\ (cli_status (cli_program w o env args cfg f fs) = 0%Z
          \/ cli_status (cli_program w o env args cfg f fs) = 1%Z)
      /\ (cmd = CliShowConfig ->
          forall config, from_file cfg = Returned config ->
            cli_status (cli_program w o env args cfg f fs)
            = if t_has_dates (raw config) then 1%Z else 0%Z)
  end.
Proof.
  intros Hfair. destruct args as [| |cmd config_path jobs]; try reflexivity.
  split; [reflexivity|]. simpl. split.
  - pose proof (from_file_status cfg) as Hst.
    unfold cli_main. destruct cmd.
    + simpl. destruct (fst _) as [[]|]; auto.
    + destruct (from_file cfg) as [config|code|e]; simpl; auto.
      apply main_status, Hfair.
    + destruct (from_file cfg) as [config|code|e]; simpl; auto.
      apply main_status, Hfair.
    + destruct (from_file cfg) as [config|code|e]; simpl; auto.
      destruct (clean w o config f) as [[[e|] f'] removed]; simpl; auto.
    + destruct (from_file cfg) as [config|code|e]; simpl; auto.
      destruct (t_has_dates (raw config)); simpl; auto.
  - intros -> config Hff. unfold cli_main. rewrite Hff.
    now destruct (t_has_dates (raw config)).
Qed.

Lemma cli_status_by_command_line_witness :
  let o := {| rmtree_ok := fun _ => true; rmtree_takes_cache := fun _ => false;
              unlink_ok := true |} in
  let cfg := ConfigDoc (Demo.doc ["main.cpp"; "broken.cpp"]) in
  fair_pool Demo.w
  /\ cli_status (cli_program Demo.w o Demo.env (ArgsParsed CliBuild "forge.toml" None)
                   cfg NoFile ∅) = 1%Z
  /\ cli_status (cli_program Demo.w o Demo.env ArgsRejected cfg NoFile ∅) = 2%Z.
Proof.
  intros o cfg.
  assert (Hfair : fair_pool Demo.w) by (apply fair_identity; reflexivity).
  split; [exact Hfair|]. split.
  - destruct (cli_status_by_command_line Demo.w o Demo.env
                (ArgsParsed CliBuild "forge.toml" None) cfg NoFile ∅ Hfair)
      as (_ & [H | H] & _); [|exact H].
    exfalso. vm_compute in H. discriminate.
  - exact (cli_status_by_command_line Demo.w o Demo.env ArgsRejected cfg NoFile ∅ Hfair).
Defined.
